(* ===== verification/_CoqProject ===== *)
-Q . S2P
Prelude.v
JsString.v
JsNumber.v
Words.v
Lines.v
Normalizer.v
Classifier.v
Collapse.v
Scenes.v
Prompt.v
AddOns.v
Generator.v
Spec.v
Export.v
Readback.v
ParseInt.v
NumberField.v
Form.v
Browser.v
Timed.v
Memo.v
Dom.v
View.v
Render.v
Layout.v
Page.v
App.v
