(* ===== verification/Prelude.v ===== *)
(** * Cinematic Prompt Builder: a verification development

    ** The program

    The program (src/app/components/PromptGenerator.tsx) turns a one-line
    idea, the topic, into a cinematic brief.  Its core is a pure function of
    three inputs, the topic, a scene count and five add-on flags, computed by
    the [useMemo] callback of the component [PromptGenerator]:

    - the topic is trimmed; a blank topic gives no output;
    - [toTitleCase] gives the display form of the topic (the title);
    - [inferMood] and [inferStyle] choose a mood and a style by ordered
      keyword rules, tested on the topic in lower case, first match wins;
    - [buildScenes] instantiates a catalogue of five scene templates
      cyclically, for a count clamped to 3..10;
    - [buildFullPrompt] assembles the prompt text, one line per scene;
    - [buildAddOns] adds the text blocks whose flags are set.

    Around the core stands the component itself: the form, whose state is
    the topic, the count, the flags and the flag [copied], with a handler
    per field; the [useMemo] hook that keeps the output between renders; the
    copy action [copyAll], which builds a text from the output, writes it to
    the clipboard and then shows "Copied!" for a while; and the element that
    the component returns, with the form card and the output pane.
    src/app/page.tsx puts the component on the page and src/app/layout.tsx
    puts the page between a header and a footer.

    ** The library

    Every definition that models code carries the name of the function or
    method it models, and is executable: the examples and the witnesses
    evaluate it.

    - [Prelude] (this file): the scope [js_scope] with the notation
      [[/ "a" | "b" /]] for an alternation of literals, the tactics
      ([ascii_cases], [bool_prop], [str_simpl], [str_induction]), the hint
      databases [js] and [str], the equations of string concatenation and
      the substring order [k ⊑ t] (a [PreOrder]).
    - [JsString]: the string methods the source calls, [trim], [split] at
      white space and at a character, [join], [toUpperCase], [toLowerCase],
      [charAt], [slice], [replace(/\s+/g, ...)] and the test of a regular
      expression that is an alternation of literals ([regex_test]); the
      matcher is proved to decide occurrence, which makes [k ⊑ t] decidable.
    - [JsNumber]: numbers as integers or [NaN], [Math_max], [Math_min],
      the clamp and [Array_from] with its length conversion.
    - [Words]: the algebra of [trim] and of splitting at white space: words,
      sentences, and that splitting undoes joining.
    - [Lines]: splitting at a character against [join]; [lines] reads a text
      line by line, which is how the theorems on assembled texts are stated.
    - [Normalizer]: [toTitleCase] and its callback [capitalize]; the class
      [Normalizer] is the contract the other components rely on, and the
      instance [toTitleCase_normalizer] discharges it.
    - [Classifier]: [inferMood] and [inferStyle] as the chains of tests of
      the source, the same rules as data ([mood_rules], [style_rules]), the
      evaluator [first_match] and the specification [decides] of first match
      wins; case-insensitivity as [Proper] instances for the equivalence
      [case_equiv].
    - [Collapse]: the normalized view of the topic that the design matches
      on ([collapse], [normalizedLower]) and the lemmas on occurrences of a
      word in the tokens of a text.
    - [Scenes]: the record of a scene, the catalogue [templates] with the
      texts of the source and [buildScenes].
    - [Prompt]: [sceneLine] and [buildFullPrompt].
    - [AddOns]: the flags, the five keys, the five blocks and
      [buildAddOns], whose result is a finite map from keys to texts.
    - [Generator]: the record [GeneratedOutput] and [output], the body of
      the [useMemo] callback (lines 198-216).
    - [Spec]: the design's description of the generator, [generate], as a
      specification, and the refinement theorem.
    - [Export]: the text of [copyAll] (lines 220-259): [sceneBlock],
      [sceneText], [addOnText] and [copyText], with [filter_Boolean] for the
      two passes through [filter(Boolean)].
    - [Readback]: a reader of the copied text ([read_copy]) and the
      function [rebuild] from what was read back to an output.
    - [ParseInt]: [parseInt] as the count field calls it (line 290).
    - [NumberField]: what the browser hands to that call, because the field
      is declared with [type="number"] (line 286): the text of the field
      when it is a valid floating-point number ([valid_float]) and the
      empty string otherwise ([sanitize]).
    - [Form]: the state of the component as the record [State], its
      handlers ([setTopic], [setSceneCount], [updateOption], ...) and the
      transition function [step] over the events of the form and of the
      browser; [copyAll] is three events, the click, the end of the write
      and the timer, because the source awaits the write.  [run] runs a
      list of events, [reachable] is the set of states of the runs from
      [initial].
    - [Browser]: the steps of the browser alone ([browser_step]: the end of
      a clipboard write, a timer) and the measure [pending] of the work that
      is left to it.
    - [Timed]: the same machine with a clock: the time [now], the
      [deadlines] of the timers that [copyAll] sets with
      [setTimeout(..., 1500)] (line 258), and [timed_step], an event at the
      current time or the passing of time.
    - [Memo]: the [useMemo] hook with its dependencies (line 216), an
      instance of the component with the identity of its flags object
      ([Component]), a render ([render]) and an event followed by its render
      ([dispatch]).
    - [Dom]: JSX as a tree, [Node], of elements with props ([Value]) and
      texts; [textContent], [descendants], and the delivery of a gesture of
      the user to the handler of an element ([fire], [offers]).
    - [View]: the output pane (lines 315-388): [renderOutput],
      [renderScene], [renderAddOns].
    - [Render]: the element that the component returns (lines 265-392) as a
      function of the state: [PromptGenerator], its two cards and the
      controls of the form ([topicField], [countField], [checkbox],
      [copyButton]).
    - [Layout]: [metadata] and [RootLayout] of src/app/layout.tsx.
    - [Page]: [Page] of src/app/page.tsx.
    - [App]: the document, [RootLayout] around [Page], and [ui_step], a
      step of the application that starts from a gesture that the document
      accepts or from the browser.

    The files depend on each other in this order.  A component uses another
    through its lemmas: the generator and the view use the normalizer
    through the class [Normalizer], the form uses the generator through
    [output_cases] and the tactic [output_fields], which opens a hypothesis
    that there is an output; the page, the layout and the document use the
    element of the component through what it offers ([offers_controls]) and
    never through its shape.

    ** What the theorems show

    - Refinement: [output_refines_generate], for every topic, every integer
      count and every choice of flags the output of the source is the output
      that the design describes; the theorems below say what that output is,
      part by part.
    - Primitives: [regex_test_spec] (the matcher decides occurrence of an
      alternative), [trim_spec] (only white space at the ends is removed),
      [split_ws_join] and [lines_join_inverse] (round trips of split and
      join).
    - Normalizer: the display form of a topic that is not blank is a
      sentence of capitalized words ([toTitleCase_sentence]), where a word
      is capitalized when it does not start with one of the letters a to z;
      title case is preserved ([toTitleCase_fixed]); [toTitleCase] is
      idempotent and empty exactly on blank topics.
    - Classifiers: the chains of tests implement first match wins
      ([inferMood_first_match_wins], [inferStyle_first_match_wins]); they do
      not see case; their range is the descriptors of the source; the
      fallback is returned exactly when nothing matches; every keyword is
      live, but the keyword "neon" of the third mood rule never decides
      ([inferMood_neon_redundant]); they do not see white space either, so
      the mood and the style of the title are those of the topic
      ([infer_toTitleCase]).
    - Scenes: position [i] holds index [i + 1] and template [i mod 5]
      ([buildScenes_lookup]); indices are 1..n; period five; only the
      setting depends on the topic.
    - Prompt: scene [i] is line [6 + i] of the prompt, which has eight lines
      more than scenes ([buildFullPrompt_scene_line]).
    - Add-ons: the keys present are the flags set ([buildAddOns_dom]), each
      with the block of its key ([buildAddOns_lookup]); the blocks line by
      line.
    - Orchestrator: no output exactly for a blank topic ([output_None]);
      otherwise the record of the builders' results ([output_cases]), with
      between 3 and 10 scenes for any integer count
      ([output_scene_count]), which a larger count extends at the end
      ([output_scenes_prefix]), and the prompt line by line
      ([output_fullPrompt_lines]); but a count that is [NaN], which the
      count field produces for an entry such as ".5", passes the clamp and
      gives no scene at all ([output_NaN]).
    - Copy: the copied text line by line ([copyAll_lines]) and where the
      block of each scene is ([copyAll_scene_block]); the sections follow
      each other without an empty line, since [filter(Boolean)] drops the
      empty strings that the source puts between them.  The copied text is
      lossless: reading it back and calling the builders on what was read
      gives the output again ([readback_output]), so outputs with the same
      copied text are equal ([copyText_inj]).
    - Count field: [parseInt] reads back the numeral of a natural number
      ([parseInt_pretty]); a text without a leading integer is read as
      [NaN], and the output then has no scene.  The number field of the
      browser does not prevent it: the count is [NaN] exactly for the valid numbers that
      start with the point, such as ".5", and 5 for a text that is no
      number ([number_field_NaN]); every integer is the reading of a value
      of the field ([number_field_onto]); and in every state with a topic
      the document accepts such a number in the count field and then shows
      an output without a scene ([count_field_no_scenes]).
    - Form: the invariant of the reachable states ([reachable_invariant]:
      "Copied!" is shown only while a timer is set and the clipboard holds a
      generated text); the label always goes back ([label_resets]), but the
      timer of an earlier copy resets the label of a later one (the run
      [label_reset_early], and for every state [copied_cut_short] of
      [Timed]); a toggle changes one key of the add-ons and nothing else
      ([ToggleOption_addOns]).
    - Browser: every step of the browser decreases [pending], so the work
      that the copies leave behind terminates, in at most [pending] steps
      ([browser_terminates]); wherever the browser stops, in whatever order
      the writes ended and the timers fired, the label is back and the form
      untouched ([browser_settles]).
    - Timed: the timed states have one deadline per timer, in ascending
      order and none later than 1500 ms from now
      ([timed_reachable_invariant]); the machine of [Form] is the timed
      machine without its clock, run for run ([timed_run_erase],
      [timed_run_complete]) and state for state ([timed_reachable_state]),
      so that the theorems on [Form] are theorems on what happens in time; the label "Copied!"
      stays for 1500 ms when no earlier timer is set ([copied_stays]); with
      an earlier timer set it can go as soon as that timer is due, 1500 ms
      after the earlier copy ([copied_cut_short]), even in the instant in
      which it appears ([copied_flash]).
    - Memo: the value of the hook is the output of the current state in
      every state that the component reaches ([memo_coherent]), because a
      toggle gives the state a new flags object; an event that changes no
      dependency costs no call of the generator ([memo_hit]) and no event
      costs more than one ([computations_bound]).
    - View: the headings of the pane ([renderOutput_headings]); the heading
      of the add-ons is shown only with the voiceover, while the copied text
      has it with any add-on ([heading_copied_not_shown]); the blocks shown
      and the blocks copied are the same ([renderOutput_addOns]); the keys
      of the scene elements are distinct ([renderOutput_keys]).
    - Render: two states give the same element exactly when their hooks
      agree ([PromptGenerator_shows]); the bounds that the count field
      declares are the bounds of the clamp ([count_field_bounds]); the count
      field is the one control without an accessible name
      ([count_field_unlabelled]).
    - Layout, Page, App: the layout is a frame around its children
      ([RootLayout_textContent], [offers_RootLayout]); the document accepts
      exactly the events of the user, the click on the copy button only
      when there is an output and as the text of the count only what the
      number field keeps ([offers_document]); and the states reached
      through the document are the reachable states of the state machine
      ([ui_reachable]): the disabled button refuses exactly the clicks that
      [copyAll] ignores, and the number field keeps no count out.

    ** Modelling choices and bounds

    - Strings are sequences of 8-bit characters.  White space is the six
      characters 9-13 and 32; letters are the 26 of ASCII.  A character from
      128 up is left alone by the case mappings and is not white space: the
      theorems hold for every string of the model, and agree with the
      program on topics written in ASCII.  On other topics the program
      differs: it trims U+00A0 and maps letters beyond ASCII, at times to
      more than one character, so that the theorems on case and on white
      space ([infer_case_insensitive], [infer_toTitleCase],
      [toTitleCase_idem]) are claims about ASCII topics only.
    - The separator written [?] in the texts is the character of the source
      file, kept as it is.
    - A number is an integer of any size or [NaN]; fractions and infinities
      are left out, since the form parses the count with [parseInt].
      Lengths and indices are natural numbers.  [Array.from] throws for a
      length above 2^32 - 1 and [Array_from] does not; the program calls
      it behind the clamp, with a length of at most 10, so the theorems on
      [buildScenes] for any length say more than the program needs.
    - No definition needs fuel: every loop of the source is a structural
      recursion on a string or a list once the scanner's state is made a
      parameter ([split_ws_go], [split_char_go]).  What does not terminate
      by structure is the run of the browser after a copy; its measure is
      [pending], twice the writes in flight plus the timers, because a write
      that resolves arms a timer.
    - The object of add-ons is a finite map ([gmap]) over the five keys; a
      property that is not set is an absent key.
    - [parseInt] reads numerals of any length exactly; a double would round
      those above 2^53, which the clamp maps to 10 either way.
    - The browser is part of [State]: the writes to the clipboard that are
      in flight, each of which may end at any time, before or after the
      others, with success or without, the content of the clipboard and
      the number of timers that are set.  A click on the copy button runs
      [copyAll], which returns at once when there is no output (line 221);
      that the disabled button does not deliver such a click is a theorem
      of [App].  [Form] does not measure time: a timer may fire at any moment
      after it is set.  A handler runs to its end, or to its [await],
      before the next event: this is the event loop of the browser.
    - [Timed] measures time in milliseconds, as a natural number.  A timer
      is due when the clock has reached its deadline; the browser promises
      no more, so time may pass a deadline and the label has no upper
      bound on how long it stays.  The timers have the same delay, so the
      order in which they were set is the order of their deadlines, and
      the timer that fires is the first.
    - An element is its tag, its props in the order of the source and its
      children; text that JSX drops (line breaks and indentation between
      elements) is not there, a text that JSX keeps is a [Text] node, and a
      fragment adds its children to those of its parent.  A handler is a
      function from [e.target.value] to an event of [Form]; a click passes
      the empty string.  An element with [disabled] set takes no gesture.
    - The value of a number field follows the HTML standard: an optional
      minus sign, digits with an optional fraction or a fraction alone, and
      an optional exponent; any other text is replaced by the empty string.
      The [min] and [max] of the field constrain its validity and its
      spinner, not its value, so the model lets any valid number through.
    - The hook compares its dependencies as [Object.is] does: the topic and
      the count by value, the flags by the identity of their object, a
      number that grows with every call of [setOptions].  The two zeros are
      one number in the model.
    - Every event is followed by a render, also an event that sets a state
      to the value it has; the hook then returns what it holds.

    ** Not modelled

    The reconciliation of React (which elements of the page are replaced
    after a render; the element is a function of the state); the style
    sheet globals.css, of which the class names are kept as data; the
    permission model of the clipboard, of which only success and failure of
    a write are kept; the time that a handler or a render takes, so every
    event is an instant of the clock. *)

From stdpp Require Export base tactics option list sets strings pretty.
From Stdlib Require Export Ascii ZArith.

(** ** Notation *)

Declare Scope js_scope.
Delimit Scope js_scope with js.

(** A regular expression that is an alternation of literals,
    [/(storm|war|night)/], is the list of its alternatives. *)
Notation "[/ a | .. | b /]" :=
  (@cons string a .. (@cons string b (@nil string)) ..)
  (at level 0, a at level 99, b at level 99, only parsing) : js_scope.

(** The line feed and the double quote, which a literal cannot hold. *)
Definition LF : string := String (ascii_of_nat 10) "".
Definition DQ : string := String (ascii_of_nat 34) "".

(** ** Tactics *)

(** Case analysis on the eight bits of a character: a statement about one
    character is checked on its 256 values. *)
Ltac ascii_cases c := destruct c as [[] [] [] [] [] [] [] []].

(** Turns boolean connectives of the goal and the hypotheses into
    propositions. *)
Ltac bool_prop :=
  repeat first
    [ rewrite andb_true_iff in * | rewrite orb_true_iff in *
    | rewrite andb_false_iff in * | rewrite orb_false_iff in *
    | rewrite negb_true_iff in * | rewrite negb_false_iff in * ].

(** ** Hint databases *)

(** [str]: rewriting rules that normalise string expressions;
    [js]: facts about the primitives, for [eauto with js]. *)
Create HintDb js discriminated.
Create Rewrite HintDb str.

(** ** Strings *)

Section strings.
Implicit Types (s t u : string) (c : ascii).

Lemma str_app_cons c s t : String c s +:+ t = String c (s +:+ t).
Proof. reflexivity. Qed.

Lemma str_app_nil_l s : "" +:+ s = s.
Proof. reflexivity. Qed.

Lemma str_app_nil_r s : s +:+ "" = s.
Proof. induction s as [|c s IH]; [done|]. by rewrite str_app_cons, IH. Qed.

Lemma str_app_assoc s t u : (s +:+ t) +:+ u = s +:+ (t +:+ u).
Proof. induction s as [|c s IH]; [done|]. by rewrite !str_app_cons, IH. Qed.

Lemma str_app_length s t :
  String.length (s +:+ t) = String.length s + String.length t.
Proof. induction s as [|c s IH]; [done|]. rewrite str_app_cons. simpl. by rewrite IH. Qed.

Lemma str_app_eq_nil s t : s +:+ t = "" ↔ s = "" ∧ t = "".
Proof. destruct s; split; try done; by intros [??]. Qed.

Lemma str_length_zero s : String.length s = 0 ↔ s = "".
Proof. by destruct s. Qed.

End strings.

#[export] Hint Rewrite str_app_cons str_app_nil_l str_app_nil_r str_app_assoc str_app_length : str.
#[export] Hint Resolve str_app_nil_r str_app_assoc : js.

(** Induction on a string, the cases simplified ([String.append] does not
    unfold under [simpl], so its equations are rewritten). *)
Ltac str_simpl := simpl; rewrite ?str_app_cons, ?str_app_nil_l; simpl.
Ltac str_induction s :=
  let c := fresh "c" in
  let IH := fresh "IH" in
  induction s as [|c s IH]; str_simpl; intros.

(** ** Substrings

    [k ⊑ t]: the string [k] occurs in [t].  This is what a regular expression
    made of a literal decides. *)

#[export] Instance substring : SqSubsetEq string :=
  λ k t, ∃ pre post, t = pre +:+ k +:+ post.

#[export] Instance substring_preorder : PreOrder (⊑@{string}).
Proof.
  split.
  - intros s. exists "", "". by rewrite str_app_nil_r.
  - intros s t u (p1 & q1 & ->) (p2 & q2 & ->).
    exists (p2 +:+ p1), (q1 +:+ q2). by rewrite !str_app_assoc.
Qed.

Lemma substring_nil t : "" ⊑ t.
Proof. by exists "", t. Qed.

Lemma substring_cons k c t : k ⊑ t → k ⊑ String c t.
Proof. intros (pre & post & ->). by exists (String c pre), post. Qed.

Lemma substring_app_l k s t : k ⊑ t → k ⊑ s +:+ t.
Proof. intros (pre & post & ->). exists (s +:+ pre), post. by rewrite str_app_assoc. Qed.

Lemma substring_app_r k s t : k ⊑ s → k ⊑ s +:+ t.
Proof.
  intros (pre & post & ->). exists pre, (post +:+ t). by rewrite !str_app_assoc.
Qed.

#[export] Hint Resolve substring_nil substring_cons substring_app_l
  substring_app_r : js.
