(* ===== verification/JsString.v ===== *)
(** * JsString: the string primitives of the host language

    The source manipulates its topic with a handful of built-in string
    methods.  Each is modelled here as a function on [string], by structural
    recursion, so that it evaluates on concrete input:

    - [trim], from [trimStart] and [trimEnd]   ([String.prototype.trim]);
    - [split_ws]                               ([split(/\s+/)]);
    - [split_char]                             ([split(",")]);
    - [join]                                   ([Array.prototype.join]);
    - [toUpperCase], [toLowerCase], [charAt], [slice];
    - [remove_ws]                              ([replace(/\s+/g, "")]);
    - [regex_test]                             ([/(a|b|c)/.test(t)]);
    - [truthy]                                 (a string used as a condition).

    A character is an 8-bit code.  Codes below 128 are the ASCII code units
    and behave as in the host language: the white space of [trim] and of the
    class [\s] is the set 9-13 and 32, and case mapping moves the 26
    letters.  Codes from 128 on stand for anything else: they are not white
    space and have no case. *)

From S2P Require Import Prelude.
#[local] Open Scope js_scope.

(** ** Characters *)

Definition is_space (c : ascii) : bool :=
  match c with
  | "009" | "010" | "011" | "012" | "013" | " " => true
  | _ => false
  end%char.

Definition upper_char (c : ascii) : ascii :=
  let n := nat_of_ascii c in
  if (97 <=? n) && (n <=? 122) then ascii_of_nat (n - 32) else c.

Definition lower_char (c : ascii) : ascii :=
  let n := nat_of_ascii c in
  if (65 <=? n) && (n <=? 90) then ascii_of_nat (n + 32) else c.

(** ** Case mapping *)

Fixpoint map_chars (f : ascii → ascii) (s : string) : string :=
  match s with
  | "" => ""
  | String c s' => String (f c) (map_chars f s')
  end.

Definition toUpperCase : string → string := map_chars upper_char.
Definition toLowerCase : string → string := map_chars lower_char.

(** ** Trimming *)

Fixpoint trimStart (s : string) : string :=
  match s with
  | "" => ""
  | String c s' => if is_space c then trimStart s' else s
  end.

Fixpoint trimEnd (s : string) : string :=
  match s with
  | "" => ""
  | String c s' =>
      match trimEnd s' with
      | "" => if is_space c then "" else String c ""
      | r => String c r
      end
  end.

Definition trim (s : string) : string := trimEnd (trimStart s).

(** ** Indexing *)

(** [s.charAt(i)]: the character at [i] as a string, the empty string out of
    range. *)
Definition charAt (i : nat) (s : string) : string :=
  match String.get i s with
  | Some c => String c ""
  | None => ""
  end.

(** [s.slice(start)] for a start that is not negative. *)
Fixpoint slice (start : nat) (s : string) : string :=
  match start, s with
  | 0, _ => s
  | S _, "" => ""
  | S n, String _ s' => slice n s'
  end.

(** ** Splitting and joining *)

(** [split_ws_go s after_sep] reads [s] and returns the token that is open at
    its start and the tokens after it.  A maximal run of white space is one
    separator; [after_sep] says that the previous character belonged to a
    separator, so that the run goes on. *)
Fixpoint split_ws_go (s : string) (after_sep : bool) : string * list string :=
  match s with
  | "" => ("", [])
  | String c s' =>
      if is_space c then
        if after_sep then split_ws_go s' true
        else let '(w, ws) := split_ws_go s' true in ("", w :: ws)
      else let '(w, ws) := split_ws_go s' false in (String c w, ws)
  end.

(** [s.split(/\s+/)]: a string that starts or ends with white space has an
    empty first or last token, and the empty string has the one token [""]. *)
Definition split_ws (s : string) : list string :=
  let '(w, ws) := split_ws_go s false in w :: ws.

Fixpoint split_char_go (sep : ascii) (s : string) : string * list string :=
  match s with
  | "" => ("", [])
  | String c s' =>
      let '(w, ws) := split_char_go sep s' in
      if decide (c = sep) then ("", w :: ws) else (String c w, ws)
  end.

(** [s.split(sep)] for a separator of one character. *)
Definition split_char (sep : ascii) (s : string) : list string :=
  let '(w, ws) := split_char_go sep s in w :: ws.

(** [l.join(sep)]. *)
Fixpoint join (sep : string) (l : list string) : string :=
  match l with
  | [] => ""
  | [w] => w
  | w :: ws => w +:+ sep +:+ join sep ws
  end.

(** [s.replace(/\s+/g, "")]: every run of white space is deleted. *)
Fixpoint remove_ws (s : string) : string :=
  match s with
  | "" => ""
  | String c s' => if is_space c then remove_ws s' else String c (remove_ws s')
  end.

(** ** Matching *)

(** [starts_with k t]: the literal [k] matches at the start of [t]. *)
Fixpoint starts_with (k t : string) : bool :=
  match k, t with
  | "", _ => true
  | String _ _, "" => false
  | String a k', String b t' => bool_decide (a = b) && starts_with k' t'
  end.

(** The alternation matches at the start of [t] when one of its alternatives
    does. *)
Definition match_here (alts : list string) (t : string) : bool :=
  existsb (λ k, starts_with k t) alts.

(** [/(k1|...|kn)/.test(t)]: the matcher tries each position of [t] from the
    left, the end included. *)
Fixpoint regex_test (alts : list string) (t : string) : bool :=
  match_here alts t ||
  match t with
  | "" => false
  | String _ t' => regex_test alts t'
  end.

(** A string used as a condition is true unless it is empty. *)
Definition truthy (s : string) : bool :=
  match s with "" => false | _ => true end.

(** ** Predicates on the characters of a string *)

Fixpoint all_chars (p : ascii → bool) (s : string) : bool :=
  match s with
  | "" => true
  | String c s' => p c && all_chars p s'
  end.

(** [blank s]: only white space; [no_space s]: no white space at all. *)
Definition blank : string → bool := all_chars is_space.
Definition no_space : string → bool := all_chars (λ c, negb (is_space c)).

Definition starts_space (s : string) : bool :=
  match s with "" => false | String c _ => is_space c end.

Fixpoint ends_space (s : string) : bool :=
  match s with
  | "" => false
  | String c "" => is_space c
  | String _ s' => ends_space s'
  end.

(** [plain s]: the only white space of [s] is the space character, so [s]
    holds no tab and no line break. *)
Definition plain : string → bool :=
  all_chars (λ c, negb (is_space c) || bool_decide (c = " "%char)).

(** ** The primitives on concrete input *)

Example trim_ex : trim "  lone  traveler " = "lone  traveler".
Proof. reflexivity. Qed.

Example split_ws_ex : split_ws " a  b " = [""; "a"; "b"; ""].
Proof. reflexivity. Qed.

Example split_ws_empty_ex : split_ws "" = [""].
Proof. reflexivity. Qed.

Example split_char_ex :
  split_char "," "moody, dramatic, tension" = ["moody"; " dramatic"; " tension"].
Proof. reflexivity. Qed.

Example join_ex : join ", " ["a"; "b"; "c"] = "a, b, c".
Proof. reflexivity. Qed.

Example regex_test_ex :
  regex_test [/ "storm" | "war" /] "a warm day" = true
  ∧ regex_test [/ "storm" | "war" /] "a cold day" = false.
Proof. done. Qed.

Example case_ex : toUpperCase "ab-Z9" = "AB-Z9" ∧ toLowerCase "Ab-Z9" = "ab-z9".
Proof. done. Qed.

(** ** Matching: what the matcher decides *)

Section matching.
Implicit Types (k t : string) (alts : list string).

Lemma starts_with_spec k t : starts_with k t = true ↔ ∃ post, t = k +:+ post.
Proof.
  revert t. induction k as [|a k IH]; intros [|b t]; simpl.
  - naive_solver.
  - split; [by exists (String b t)|done].
  - split; [done|by intros [? ?]].
  - rewrite andb_true_iff, bool_decide_eq_true, IH. split.
    + intros [-> [post ->]]. by exists post.
    + intros [post [= -> ->]]. eauto.
Qed.

Lemma match_here_spec alts t :
  match_here alts t = true ↔ ∃ k post, k ∈ alts ∧ t = k +:+ post.
Proof.
  unfold match_here. rewrite existsb_exists. split.
  - intros (k & Hk%list_elem_of_In & [post ->]%starts_with_spec). eauto.
  - intros (k & post & Hk%list_elem_of_In & ->).
    exists k. split; [done|]. apply starts_with_spec. eauto.
Qed.

(** A match at the start of the subject is an occurrence. *)
Lemma match_here_substring alts t :
  match_here alts t = true → ∃ k, k ∈ alts ∧ k ⊑ t.
Proof.
  intros (k & post & ? & ->)%match_here_spec.
  exists k. split; [done|]. by exists "", post.
Qed.

Lemma regex_test_sound alts t :
  regex_test alts t = true → ∃ k, k ∈ alts ∧ k ⊑ t.
Proof.
  induction t as [|c t IH]; simpl; rewrite orb_true_iff.
  - intros [?|?]; [by apply match_here_substring|done].
  - intros [?|(k & ? & ?)%IH]; [by apply match_here_substring|].
    exists k. split; [done|]. by apply substring_cons.
Qed.

Lemma regex_test_complete alts k t :
  k ∈ alts → k ⊑ t → regex_test alts t = true.
Proof.
  intros Hk (pre & post & ->).
  induction pre as [|a pre IH]; rewrite ?str_app_nil_l, ?str_app_cons.
  - assert (match_here alts (k +:+ post) = true) as Hm
      by (apply match_here_spec; eauto).
    destruct (k +:+ post); simpl; by rewrite Hm.
  - simpl. rewrite orb_true_iff. by right.
Qed.

(** C7. The test of an alternation of literals succeeds exactly when one of
    the alternatives occurs somewhere in the subject. *)
Theorem regex_test_spec alts t :
  regex_test alts t = true ↔ ∃ k, k ∈ alts ∧ k ⊑ t.
Proof.
  split; [apply regex_test_sound|].
  intros (k & ? & ?). by apply (regex_test_complete alts k).
Qed.

Lemma regex_test_singleton k t : regex_test [k] t = true ↔ k ⊑ t.
Proof.
  split.
  - by intros (k' & ->%list_elem_of_singleton & ?)%regex_test_sound.
  - apply regex_test_complete. by apply list_elem_of_singleton.
Qed.

(** Two alternations that hold the same keywords among those that occur in
    the subject give the same answer. *)
Lemma regex_test_ext alts alts' t :
  (∀ k, k ⊑ t → k ∈ alts ↔ k ∈ alts') →
  regex_test alts t = regex_test alts' t.
Proof.
  intros Hk. apply eq_true_iff_eq.
  split; intros (k & ? & ?)%regex_test_sound;
    apply (regex_test_complete _ k); naive_solver.
Qed.

End matching.

(** Occurrence is decided by the matcher. *)
#[export] Instance substring_dec (k t : string) : Decision (k ⊑ t).
Proof.
  refine (cast_if (decide (regex_test [k] t = true)));
    by rewrite <- regex_test_singleton.
Defined.

(** ** Characters: case mapping and white space *)

Section chars.
Implicit Types c : ascii.

Lemma upper_char_idem c : upper_char (upper_char c) = upper_char c.
Proof. by ascii_cases c. Qed.

Lemma lower_char_idem c : lower_char (lower_char c) = lower_char c.
Proof. by ascii_cases c. Qed.

Lemma lower_upper_char c : lower_char (upper_char c) = lower_char c.
Proof. by ascii_cases c. Qed.

Lemma upper_lower_char c : upper_char (lower_char c) = upper_char c.
Proof. by ascii_cases c. Qed.

Lemma is_space_upper_char c : is_space (upper_char c) = is_space c.
Proof. by ascii_cases c. Qed.

Lemma is_space_lower_char c : is_space (lower_char c) = is_space c.
Proof. by ascii_cases c. Qed.

End chars.

#[export] Hint Rewrite upper_char_idem lower_char_idem lower_upper_char
  upper_lower_char is_space_upper_char is_space_lower_char : str.

Section case_mapping.
Implicit Types (s t k : string) (f : ascii → ascii).

Lemma map_chars_app f s t :
  map_chars f (s +:+ t) = map_chars f s +:+ map_chars f t.
Proof. str_induction s; [done|]. by rewrite IH. Qed.

Lemma map_chars_length f s : String.length (map_chars f s) = String.length s.
Proof. str_induction s; [done|]. by rewrite IH. Qed.

Lemma map_chars_compose f g s :
  map_chars f (map_chars g s) = map_chars (f ∘ g) s.
Proof. str_induction s; [done|]. by rewrite IH. Qed.

Lemma map_chars_ext f g s :
  (∀ c, f c = g c) → map_chars f s = map_chars g s.
Proof. intros Hfg. str_induction s; [done|]. by rewrite Hfg, IH. Qed.

Lemma map_chars_substring f k t : k ⊑ t → map_chars f k ⊑ map_chars f t.
Proof.
  intros (pre & post & ->). rewrite !map_chars_app.
  by exists (map_chars f pre), (map_chars f post).
Qed.

Lemma all_chars_map_chars p f s :
  (∀ c, p (f c) = p c) → all_chars p (map_chars f s) = all_chars p s.
Proof. intros Hp. str_induction s; [done|]. by rewrite Hp, IH. Qed.

Lemma all_chars_app p s t :
  all_chars p (s +:+ t) = all_chars p s && all_chars p t.
Proof. str_induction s; [done|]. by rewrite IH, andb_assoc. Qed.

Lemma toLowerCase_idem s : toLowerCase (toLowerCase s) = toLowerCase s.
Proof.
  unfold toLowerCase. rewrite map_chars_compose.
  apply map_chars_ext, lower_char_idem.
Qed.

Lemma toUpperCase_idem s : toUpperCase (toUpperCase s) = toUpperCase s.
Proof.
  unfold toUpperCase. rewrite map_chars_compose.
  apply map_chars_ext, upper_char_idem.
Qed.

Lemma toLowerCase_toUpperCase s : toLowerCase (toUpperCase s) = toLowerCase s.
Proof.
  unfold toLowerCase, toUpperCase. rewrite map_chars_compose.
  apply map_chars_ext, lower_upper_char.
Qed.

Lemma toLowerCase_app s t :
  toLowerCase (s +:+ t) = toLowerCase s +:+ toLowerCase t.
Proof. apply map_chars_app. Qed.

Lemma toUpperCase_app s t :
  toUpperCase (s +:+ t) = toUpperCase s +:+ toUpperCase t.
Proof. apply map_chars_app. Qed.

Lemma no_space_toUpperCase s : no_space (toUpperCase s) = no_space s.
Proof.
  apply all_chars_map_chars. intros c. by rewrite is_space_upper_char.
Qed.

Lemma no_space_toLowerCase s : no_space (toLowerCase s) = no_space s.
Proof.
  apply all_chars_map_chars. intros c. by rewrite is_space_lower_char.
Qed.

End case_mapping.

#[export] Hint Rewrite map_chars_app map_chars_length toLowerCase_idem
  toUpperCase_idem toLowerCase_toUpperCase toLowerCase_app toUpperCase_app
  no_space_toUpperCase no_space_toLowerCase all_chars_app : str.
