(* ===== verification/JsNumber.v ===== *)
(** * JsNumber: the numbers the source computes with

    The one number of the program is the scene count.  It is typed into a
    number field and read with [parseInt], so it is an integer or [NaN]; it
    goes through [Math.max] and [Math.min] and ends as the [length] of the
    array-like object given to [Array.from].  A number is modelled as
    [Num z], an integer of any size, or [NaN].  The infinities are left out:
    [parseInt] returns one only for a numeral of more than 308 digits, and
    between the two bounds of the clamp it behaves as a large integer does.

    - [Math_max], [Math_min]: [NaN] if an argument is [NaN];
    - [ToLength]: the conversion of [length], which takes [NaN] and the
      negative numbers to 0;
    - [Array_from n f]: [Array.from({ length: n }, (_, i) => f i)]. *)

From S2P Require Import Prelude.
#[local] Open Scope Z_scope.

Inductive number : Type :=
  | Num (z : Z)
  | NaN.

#[export] Instance number_eq_dec : EqDecision number.
Proof. solve_decision. Defined.

Definition Math_max (a b : number) : number :=
  match a, b with
  | Num x, Num y => Num (Z.max x y)
  | _, _ => NaN
  end.

Definition Math_min (a b : number) : number :=
  match a, b with
  | Num x, Num y => Num (Z.min x y)
  | _, _ => NaN
  end.

Definition ToLength (n : number) : nat :=
  match n with
  | Num z => Z.to_nat z
  | NaN => 0
  end.

Definition Array_from {A} (n : number) (f : nat → A) : list A :=
  f <$> seq 0 (ToLength n).

(** [clamp lo hi n]: [Math.min(Math.max(n, lo), hi)]. *)
Definition clamp (lo hi : Z) (n : number) : number :=
  Math_min (Math_max n (Num lo)) (Num hi).

Section numbers.
Implicit Types (z lo hi : Z) (n : number).

Lemma clamp_Num lo hi z : clamp lo hi (Num z) = Num (Z.min (Z.max z lo) hi).
Proof. done. Qed.

Lemma clamp_NaN lo hi : clamp lo hi NaN = NaN.
Proof. done. Qed.

Lemma clamp_bounds lo hi z :
  lo ≤ hi → ∃ k, clamp lo hi (Num z) = Num k ∧ lo ≤ k ≤ hi.
Proof. intros. exists (Z.min (Z.max z lo) hi). split; [done|lia]. Qed.

Lemma clamp_in_range lo hi z : lo ≤ z ≤ hi → clamp lo hi (Num z) = Num z.
Proof. intros. rewrite clamp_Num. f_equal. lia. Qed.

Lemma clamp_below lo hi z : lo ≤ hi → z ≤ lo → clamp lo hi (Num z) = Num lo.
Proof. intros. rewrite clamp_Num. f_equal. lia. Qed.

Lemma clamp_above lo hi z : lo ≤ hi → hi ≤ z → clamp lo hi (Num z) = Num hi.
Proof. intros. rewrite clamp_Num. f_equal. lia. Qed.

Lemma ToLength_clamp lo hi z :
  0 ≤ lo ≤ hi →
  (Z.to_nat lo ≤ ToLength (clamp lo hi (Num z)) ≤ Z.to_nat hi)%nat.
Proof. intros. rewrite clamp_Num. simpl. lia. Qed.

End numbers.

Section arrays.
Context {A : Type}.
Implicit Types (n : number) (f : nat → A) (i : nat).

Lemma Array_from_length n f : length (Array_from n f) = ToLength n.
Proof. unfold Array_from. by rewrite length_fmap, length_seq. Qed.

Lemma Array_from_lookup n f i :
  (i < ToLength n)%nat → Array_from n f !! i = Some (f i).
Proof.
  intros Hi. unfold Array_from. rewrite list_lookup_fmap.
  by rewrite lookup_seq_lt.
Qed.

Lemma Array_from_lookup_ge n f i :
  (ToLength n ≤ i)%nat → Array_from n f !! i = None.
Proof. intros. apply lookup_ge_None_2. by rewrite Array_from_length. Qed.

Lemma Array_from_NaN f : Array_from NaN f = [].
Proof. done. Qed.

Lemma Array_from_fmap {B} (g : A → B) n f :
  g <$> Array_from n f = Array_from n (g ∘ f).
Proof. unfold Array_from. by rewrite <- list_fmap_compose. Qed.

Lemma Array_from_ext n f f' :
  (∀ i, (i < ToLength n)%nat → f i = f' i) → Array_from n f = Array_from n f'.
Proof.
  intros Hf. unfold Array_from. apply list_fmap_ext.
  intros i x [-> ?]%lookup_seq. apply Hf. lia.
Qed.

End arrays.

#[export] Hint Rewrite clamp_Num clamp_NaN @Array_from_length : str.
