(* ===== verification/Words.v ===== *)
(** * Words: trimming, splitting at white space and joining

    The theory of [trim], [split_ws] and [join] that the normalizer rests
    on.  A _word_ is a string that is not empty and holds no white space; a
    _sentence_ is a list of words that is not empty.  The file shows that
    [trim] removes white space at the two ends and nothing else, that the
    tokens of a trimmed string form a sentence, and that splitting undoes
    joining with one space. *)

From S2P Require Import Prelude JsString.
#[local] Open Scope js_scope.

Definition word (w : string) : Prop := w ≠ "" ∧ no_space w = true.

Definition sentence (ws : list string) : Prop := ws ≠ [] ∧ Forall word ws.

(** A string is trimmed when it has no white space at its ends. *)
Definition trimmed (s : string) : Prop :=
  starts_space s = false ∧ ends_space s = false.

#[export] Instance word_dec w : Decision (word w).
Proof. unfold word. apply _. Defined.

#[export] Instance sentence_dec ws : Decision (sentence ws).
Proof. unfold sentence. apply _. Defined.

(** ** Trimming *)

Section trimming.
Implicit Types (s t : string) (c : ascii).

Lemma trimStart_starts_space s : starts_space (trimStart s) = false.
Proof. str_induction s; [done|]. by destruct (is_space c) eqn:?. Qed.

Lemma trimStart_id s : starts_space s = false → trimStart s = s.
Proof. destruct s as [|c s]; simpl; [done|]. by intros ->. Qed.

Lemma trimStart_nil s : trimStart s = "" ↔ blank s = true.
Proof.
  unfold blank. str_induction s; [done|].
  destruct (is_space c); simpl; [done|]. by split.
Qed.

Lemma trimEnd_nil s : trimEnd s = "" ↔ blank s = true.
Proof.
  unfold blank. str_induction s; [done|].
  destruct (trimEnd s) eqn:E, (is_space c); simpl; naive_solver.
Qed.

Lemma trimEnd_starts_space s :
  starts_space s = false → starts_space (trimEnd s) = false.
Proof.
  destruct s as [|c s]; simpl; [done|]. intros Hc.
  destruct (trimEnd s); simpl; by rewrite ?Hc.
Qed.

Lemma trimEnd_idem s : trimEnd (trimEnd s) = trimEnd s.
Proof.
  str_induction s; [done|].
  destruct (trimEnd s) as [|c' r] eqn:E.
  - by destruct (is_space c) eqn:Hc; simpl; rewrite ?Hc.
  - simpl in *. by rewrite IH.
Qed.

Lemma trimEnd_no_space s : no_space s = true → trimEnd s = s.
Proof.
  unfold no_space. str_induction s; [done|].
  apply andb_true_iff in H as [Hc Hs]. rewrite IH by done.
  destruct s; [|done]. by apply negb_true_iff in Hc as ->.
Qed.

(** [trimEnd] leaves a prefix alone when what follows is not blank. *)
Lemma trimEnd_app s t : trimEnd t ≠ "" → trimEnd (s +:+ t) = s +:+ trimEnd t.
Proof.
  intros Ht. str_induction s; [done|]. rewrite IH.
  destruct (s +:+ trimEnd t) eqn:E; [|done].
  by apply str_app_eq_nil in E as [_ ?].
Qed.

Lemma trim_nil s : trim s = "" ↔ blank s = true.
Proof.
  unfold trim. rewrite trimEnd_nil. unfold blank.
  str_induction s; [done|]. destruct (is_space c) eqn:Hc; simpl; [done|].
  by rewrite Hc.
Qed.

Lemma trim_idem s : trim (trim s) = trim s.
Proof.
  unfold trim. rewrite trimStart_id, trimEnd_idem; [done|].
  apply trimEnd_starts_space, trimStart_starts_space.
Qed.

Lemma trim_starts_space s : starts_space (trim s) = false.
Proof. apply trimEnd_starts_space, trimStart_starts_space. Qed.

(** What [trimStart] and [trimEnd] remove is white space. *)
Lemma trimStart_decompose s : ∃ pre, s = pre +:+ trimStart s ∧ blank pre = true.
Proof.
  str_induction s; [by exists ""|]. destruct (is_space c) eqn:Hc.
  - destruct IH as (pre & Hs & Hpre). exists (String c pre). split.
    + by rewrite str_app_cons, <- Hs.
    + unfold blank in *. simpl. by rewrite Hc.
  - by exists "".
Qed.

Lemma trimEnd_decompose s : ∃ post, s = trimEnd s +:+ post ∧ blank post = true.
Proof.
  str_induction s; [by exists ""|]. destruct IH as (post & Hs & Hpost).
  destruct (trimEnd s) as [|c' r] eqn:E.
  - rewrite str_app_nil_l in Hs. subst post. destruct (is_space c) eqn:Hc.
    + exists (String c s). split; [done|]. unfold blank in *. simpl.
      by rewrite Hc.
    + by exists s.
  - exists post. split; [|done]. by rewrite str_app_cons, <- Hs.
Qed.

Lemma trimEnd_ends_space s : ends_space (trimEnd s) = false.
Proof.
  induction s as [|c s IH]; [done|]. simpl.
  destruct (trimEnd s) as [|c' r] eqn:E; [|done].
  by destruct (is_space c) eqn:Hc.
Qed.

(** C28. [trim] removes white space at the two ends and nothing else: the string
    is its trimmed form between two blank strings, and the trimmed form
    neither starts nor ends with white space. *)
Theorem trim_spec s :
  ∃ pre post, s = pre +:+ trim s +:+ post
    ∧ blank pre = true ∧ blank post = true ∧ trimmed (trim s).
Proof.
  destruct (trimStart_decompose s) as (pre & Hs & Hpre).
  destruct (trimEnd_decompose (trimStart s)) as (post & Hs' & Hpost).
  exists pre, post. unfold trimmed. split_and!; [|done..| |].
  - unfold trim. by rewrite <- Hs', <- Hs.
  - apply trim_starts_space.
  - apply trimEnd_ends_space.
Qed.

End trimming.

(** ** Splitting at white space *)

Section splitting.
Implicit Types (s t w : string) (ws : list string) (b : bool).

Lemma word_cons_inv c w : word (String c w) → is_space c = false.
Proof.
  intros [_ Hw]. unfold no_space in Hw. simpl in Hw.
  apply andb_true_iff in Hw as [Hc _]. by apply negb_true_iff.
Qed.

Lemma word_starts_space w t : word w → starts_space (w +:+ t) = false.
Proof. destruct w as [|c w]; [by intros []|]. apply word_cons_inv. Qed.

Lemma split_ws_go_no_space w s b :
  no_space w = true → (w ≠ "" ∨ b = false) →
  split_ws_go (w +:+ s) b =
    let '(w', ws) := split_ws_go s false in (w +:+ w', ws).
Proof.
  unfold no_space. revert b. str_induction w.
  - destruct H0 as [?| ->]; [done|]. by destruct (split_ws_go s false).
  - apply andb_true_iff in H as [->%negb_true_iff Hw].
    rewrite (IH false) by auto. by destruct (split_ws_go s false).
Qed.

Lemma split_ws_go_flag s b :
  starts_space s = false → split_ws_go s b = split_ws_go s false.
Proof. destruct s as [|c s]; simpl; [done|]. by intros ->. Qed.

Lemma split_ws_word w : word w → split_ws w = [w].
Proof.
  intros [Hne Hw]. unfold split_ws.
  rewrite <- (str_app_nil_r w) at 1. rewrite split_ws_go_no_space by auto.
  simpl. by rewrite str_app_nil_r.
Qed.

Lemma split_ws_cons w s :
  word w → starts_space s = false →
  split_ws (w +:+ " " +:+ s) = w :: split_ws s.
Proof.
  intros [Hne Hw] Hs. unfold split_ws.
  rewrite split_ws_go_no_space by auto. str_simpl.
  rewrite (split_ws_go_flag s true) by done.
  destruct (split_ws_go s false). by rewrite str_app_nil_r.
Qed.

Lemma join_cons sep w w' ws :
  join sep (w :: w' :: ws) = w +:+ sep +:+ join sep (w' :: ws).
Proof. done. Qed.

Lemma join_starts_space ws : sentence ws → starts_space (join " " ws) = false.
Proof.
  intros [Hne Hws]. destruct Hws as [|w ws Hw Hws]; [done|].
  destruct ws; [|rewrite join_cons]; simpl.
  - rewrite <- (str_app_nil_r w). by apply word_starts_space.
  - by apply word_starts_space.
Qed.

Lemma join_ne_nil ws : sentence ws → join " " ws ≠ "".
Proof.
  intros [Hne Hws]. destruct Hws as [|w ws [Hw _] Hws]; [done|].
  destruct ws; [done|]. rewrite join_cons. by intros [? _]%str_app_eq_nil.
Qed.

Lemma sentence_cons w ws : word w → sentence ws → sentence (w :: ws).
Proof. intros ? [_ ?]. split; [done|]. by constructor. Qed.

Lemma sentence_cons_nil w ws : word w → Forall word ws → sentence (w :: ws).
Proof. intros ??. split; [done|]. by constructor. Qed.

Lemma sentence_singleton w : word w → sentence [w].
Proof. intros ?. split; [done|]. by apply Forall_singleton. Qed.

(** Induction on sentences: one word, or a word before a sentence. *)
Lemma sentence_ind (P : list string → Prop) :
  (∀ w, word w → P [w]) →
  (∀ w ws, word w → sentence ws → P ws → P (w :: ws)) →
  ∀ ws, sentence ws → P ws.
Proof.
  intros H1 H2 ws [Hne Hws]. induction Hws as [|w ws Hw Hws IH]; [done|].
  destruct ws as [|w' ws]; [by apply H1|].
  apply H2; [done|split; [done|done]|by apply IH].
Qed.

(** Splitting undoes joining with one space. *)
Lemma split_ws_unjoin ws : sentence ws → split_ws (join " " ws) = ws.
Proof.
  induction 1 as [w Hw|w ws Hw Hws IH] using sentence_ind.
  - by apply split_ws_word.
  - destruct ws as [|w' ws]; [by destruct Hws|]. rewrite join_cons.
    rewrite split_ws_cons, IH; auto using join_starts_space.
Qed.

(** A joined sentence has no white space at its ends. *)
Lemma trim_join ws : sentence ws → trim (join " " ws) = join " " ws.
Proof.
  intros Hws. unfold trim. rewrite trimStart_id by by apply join_starts_space.
  induction Hws as [w [_ Hw]|w ws Hw Hws IH] using sentence_ind.
  - by apply trimEnd_no_space.
  - destruct ws as [|w' ws]; [by destruct Hws|]. rewrite join_cons.
    pose proof (join_ne_nil _ Hws) as Hne.
    rewrite <- !str_app_assoc. rewrite trimEnd_app; rewrite IH; done.
Qed.

(** Words joined by single spaces are read back as they were: trimming
    finds nothing to remove and splitting finds the same words. *)
Theorem split_ws_join ws : sentence ws → split_ws (trim (join " " ws)) = ws.
Proof. intros Hws. by rewrite trim_join, split_ws_unjoin. Qed.

End splitting.

(** ** The tokens of a trimmed string *)

Section tokens.
Implicit Types (s u w : string) (ws : list string) (b : bool).

Lemma trimEnd_fixed_inv c u :
  trimEnd (String c u) = String c u →
  (u = "" ∧ is_space c = false) ∨ (u ≠ "" ∧ trimEnd u = u).
Proof.
  simpl. destruct (trimEnd u) as [|c' r] eqn:E.
  - destruct (is_space c); [done|]. intros [= <-]. by left.
  - intros [= <-]. by right.
Qed.

(** Reading a string that does not end in white space: every token after the
    first is a word, and the first is empty only if the string starts with a
    separator that is not the continuation of one. *)
Lemma split_ws_go_trimmed u b :
  trimEnd u = u → u ≠ "" →
  ∀ w ws, split_ws_go u b = (w, ws) →
  Forall word ws ∧ no_space w = true
  ∧ (w = "" → b = false ∧ starts_space u = true).
Proof.
  revert b. induction u as [|c u IH]; intros b Hu Hne w ws; [done|].
  apply trimEnd_fixed_inv in Hu as [[-> Hc]|[Hne' Hu]]; simpl.
  - rewrite Hc. intros [= <- <-]. unfold no_space. simpl. by rewrite Hc.
  - destruct (is_space c) eqn:Hc; [destruct b|].
    + intros Hgo. destruct (IH true Hu Hne' _ _ Hgo) as (? & ? & Hw).
      split_and!; [done..|]. by intros []%Hw.
    + destruct (split_ws_go u true) as [w' ws'] eqn:Hgo. intros [= <- <-].
      destruct (IH true Hu Hne' _ _ Hgo) as (? & ? & Hw).
      split_and!; [|done..]. constructor; [|done].
      split; [|done]. by intros []%Hw.
    + destruct (split_ws_go u false) as [w' ws'] eqn:Hgo. intros [= <- <-].
      destruct (IH false Hu Hne' _ _ Hgo) as (? & ? & _).
      split_and!; [done| |done]. unfold no_space in *. simpl. by rewrite Hc.
Qed.

(** The tokens of a trimmed string that is not empty form a sentence. *)
Lemma split_ws_trim s : trim s ≠ "" → sentence (split_ws (trim s)).
Proof.
  intros Hne. unfold split_ws.
  destruct (split_ws_go (trim s) false) as [w ws] eqn:Hgo.
  destruct (split_ws_go_trimmed (trim s) false) with (w := w) (ws := ws)
    as (Hws & Hw & Hnil); [apply trimEnd_idem|done..|].
  apply sentence_cons_nil; [|done]. split; [|done].
  intros [_ Hs]%Hnil. by rewrite trim_starts_space in Hs.
Qed.

Lemma split_ws_blank s : trim s = "" → split_ws (trim s) = [""].
Proof. by intros ->. Qed.

End tokens.

(** ** Plain strings *)

Section plain.
Implicit Types (s t w : string) (ws : list string).

Lemma all_chars_impl (p q : ascii → bool) s :
  (∀ c, p c = true → q c = true) → all_chars p s = true → all_chars q s = true.
Proof.
  intros Hpq. str_induction s; [done|].
  apply andb_true_iff in H as [??]. apply andb_true_iff. auto.
Qed.

Lemma no_space_plain w : no_space w = true → plain w = true.
Proof. apply all_chars_impl. by intros c ->. Qed.

Lemma plain_app s t : plain (s +:+ t) = plain s && plain t.
Proof. apply all_chars_app. Qed.

Lemma plain_join ws : Forall word ws → plain (join " " ws) = true.
Proof.
  induction 1 as [|w ws [_ Hw] Hws IH]; [done|].
  destruct ws as [|w' ws]; [by apply no_space_plain|].
  rewrite join_cons, !plain_app, IH, no_space_plain by done. done.
Qed.

End plain.

#[export] Hint Resolve sentence_cons sentence_singleton join_ne_nil
  join_starts_space no_space_plain plain_join : js.
#[export] Hint Rewrite trim_idem trimEnd_idem plain_app : str.

(** ** The lemmas at concrete inputs *)

Lemma split_ws_join_witness :
  sentence ["Neon"; "City"; "Lights"]
  ∧ split_ws (trim (join " " ["Neon"; "City"; "Lights"]))
    = ["Neon"; "City"; "Lights"].
Proof.
  assert (Hws : sentence ["Neon"; "City"; "Lights"])
    by (by apply (bool_decide_unpack _)).
  split; [exact Hws|]. exact (split_ws_join _ Hws).
Defined.

Lemma split_ws_trim_witness :
  trim "  neon   city " ≠ "" ∧ sentence (split_ws (trim "  neon   city ")).
Proof.
  assert (Hne : trim "  neon   city " ≠ "") by done.
  split; [exact Hne|]. exact (split_ws_trim _ Hne).
Defined.
