(* ===== verification/Lines.v ===== *)
(** * Lines: splitting at a character and joining

    The source assembles its texts with [join] and takes one apart with
    [split(",")].  This file relates the two: [split_char c] undoes [join]
    with the separator [c] on pieces that do not hold [c], and [join] undoes
    [split_char c] on any string.  [lines] reads a text the way a consumer of
    the assembled prompt does, line by line. *)

From S2P Require Import Prelude JsString Words.
#[local] Open Scope js_scope.

(** [free_of c s]: the character [c] does not occur in [s]. *)
Definition free_of (c : ascii) : string → bool :=
  all_chars (λ a, negb (bool_decide (a = c))).

Definition LF_char : ascii := ascii_of_nat 10.

(** The lines of a text. *)
Definition lines (s : string) : list string := split_char LF_char s.

(** [single_line s]: [s] holds no line feed. *)
Definition single_line (s : string) : Prop := free_of LF_char s = true.

#[export] Instance single_line_dec s : Decision (single_line s).
Proof. unfold single_line. apply _. Defined.

(** [interleave x ls]: [x] between any two neighbours of [ls]. *)
Fixpoint interleave (x : string) (ls : list string) : list string :=
  match ls with
  | [] => []
  | [a] => [a]
  | a :: ls' => a :: x :: interleave x ls'
  end.

Example lines_ex : lines ("a" +:+ LF +:+ LF +:+ "b c") = ["a"; ""; "b c"].
Proof. reflexivity. Qed.

Lemma LF_eq : LF = String LF_char "".
Proof. done. Qed.

Section split_char.
Implicit Types (c : ascii) (s t : string) (ls : list string).

Lemma split_char_go_free c s :
  free_of c s = true → split_char_go c s = (s, []).
Proof.
  unfold free_of. str_induction s; [done|].
  apply andb_true_iff in H as [Hc Hs]. rewrite IH by done.
  apply negb_true_iff, bool_decide_eq_false in Hc. by rewrite decide_False.
Qed.

Lemma split_char_free c s : free_of c s = true → split_char c s = [s].
Proof. intros Hs. unfold split_char. by rewrite split_char_go_free. Qed.

Lemma split_char_app c s t :
  free_of c s = true →
  split_char c (s +:+ String c t) = s :: split_char c t.
Proof.
  unfold split_char, free_of. str_induction s.
  - destruct (split_char_go c t). by rewrite decide_True.
  - apply andb_true_iff in H as [Hc Hs]. specialize (IH Hs).
    apply negb_true_iff, bool_decide_eq_false in Hc.
    destruct (split_char_go c (s +:+ String c t)) as [w ws].
    destruct (split_char_go c t) as [w' ws'].
    rewrite decide_False by done. by injection IH as -> ->.
Qed.

(** Splitting undoes joining, on pieces that do not hold the separator. *)
Lemma split_char_join c ls :
  ls ≠ [] → Forall (λ s, free_of c s = true) ls →
  split_char c (join (String c "") ls) = ls.
Proof.
  intros Hne Hls. induction Hls as [|s ls Hs Hls IH]; [done|].
  destruct ls as [|s' ls]; [by apply split_char_free|].
  rewrite join_cons, str_app_cons, str_app_nil_l, split_char_app by done.
  by rewrite IH.
Qed.

(** Joining undoes splitting, on any string. *)
Lemma join_split_char c s : join (String c "") (split_char c s) = s.
Proof.
  unfold split_char. str_induction s; [done|].
  destruct (split_char_go c s) as [w ws]. destruct (decide (c0 = c)) as [->|].
  - by rewrite join_cons, str_app_cons, !str_app_nil_l, IH.
  - destruct ws as [|w' ws]; [by simpl in *; subst|].
    rewrite join_cons in *. by rewrite str_app_cons, IH.
Qed.

(** The first piece does not hold the separator. *)
Lemma split_char_go_fst_free c s : free_of c (split_char_go c s).1 = true.
Proof.
  unfold free_of. str_induction s; [done|].
  destruct (split_char_go c s) as [w ws]. destruct (decide _); [done|].
  simpl in *. by rewrite IH, bool_decide_eq_false_2.
Qed.

Lemma split_char_head c s :
  ∃ w ws, split_char c s = w :: ws ∧ free_of c w = true.
Proof.
  unfold split_char. pose proof (split_char_go_fst_free c s) as Hw.
  destruct (split_char_go c s) as [w ws]. eauto.
Qed.

(** Splitting at a separator splits the two sides and puts the pieces one
    after the other. *)
Lemma split_char_app_sep c s t :
  split_char c (s +:+ String c t) = split_char c s ++ split_char c t.
Proof.
  unfold split_char. str_induction s.
  - destruct (split_char_go c t). by rewrite decide_True.
  - destruct (split_char_go c (s +:+ String c t)) as [w ws].
    destruct (split_char_go c s) as [w1 ws1].
    destruct (split_char_go c t) as [w2 ws2].
    injection IH as -> ->. by destruct (decide (c0 = c)).
Qed.

(** Splitting a joined text splits every piece. *)
Lemma split_char_join_bind c ls :
  ls ≠ [] → split_char c (join (String c "") ls) = ls ≫= split_char c.
Proof.
  induction ls as [|s ls IH]; intros Hne; [done|].
  destruct ls as [|s' ls]; [simpl; by rewrite app_nil_r|].
  rewrite join_cons, str_app_cons, str_app_nil_l, split_char_app_sep.
  by rewrite IH.
Qed.

End split_char.

Section joining.
Implicit Types (sep s : string) (ls xs ys zs : list string).

Lemma join_app sep xs ys :
  xs ≠ [] → ys ≠ [] →
  join sep (xs ++ ys) = join sep xs +:+ sep +:+ join sep ys.
Proof.
  intros Hxs Hys. induction xs as [|x xs IH]; [done|].
  destruct xs as [|x' xs].
  - by destruct ys.
  - change (join sep ((x :: x' :: xs) ++ ys))
      with (x +:+ sep +:+ join sep ((x' :: xs) ++ ys)).
    rewrite IH by done. by rewrite join_cons, !str_app_assoc.
Qed.

(** Joining with a doubled separator leaves an empty piece between any two
    neighbours. *)
Lemma join_twice sep ls : join (sep +:+ sep) ls = join sep (interleave "" ls).
Proof.
  induction ls as [|a ls IH]; [done|]. destruct ls as [|b ls]; [done|].
  rewrite join_cons, IH.
  change (interleave "" (a :: b :: ls)) with (a :: "" :: interleave "" (b :: ls)).
  assert (∃ l, interleave "" (b :: ls) = b :: l) as [l ->] by (destruct ls; eauto).
  by rewrite !join_cons, str_app_nil_l, !str_app_assoc.
Qed.

(** A piece that is itself a join with the same separator can be spliced
    into the list. *)
Lemma join_flatten sep xs ys zs :
  ys ≠ [] → join sep (xs ++ join sep ys :: zs) = join sep (xs ++ ys ++ zs).
Proof.
  intros Hys.
  assert (join sep (join sep ys :: zs) = join sep (ys ++ zs)) as Hnil.
  { destruct zs as [|z zs]; [by rewrite app_nil_r|].
    by rewrite join_cons, join_app. }
  destruct xs as [|x xs]; [done|].
  rewrite !(join_app _ (x :: xs)) by (done || by destruct ys).
  by rewrite Hnil.
Qed.

Lemma join_cons_ne sep x xs : x ≠ "" → join sep (x :: xs) ≠ "".
Proof.
  intros Hx. destruct xs as [|x' xs]; [done|]. rewrite join_cons.
  by intros [??]%str_app_eq_nil.
Qed.

End joining.

(** ** Strings of one line *)

Section single_line.
Implicit Types (c : ascii) (s t sep : string) (ls : list string).

Lemma free_of_app c s t : free_of c (s +:+ t) = free_of c s && free_of c t.
Proof. apply all_chars_app. Qed.

Lemma free_of_join c sep ls :
  free_of c sep = true → Forall (λ s, free_of c s = true) ls →
  free_of c (join sep ls) = true.
Proof.
  intros Hsep. induction 1 as [|s ls Hs Hls IH]; [done|].
  destruct ls as [|s' ls]; [done|].
  by rewrite join_cons, !free_of_app, Hs, Hsep, IH.
Qed.

Lemma plain_free_of_LF s : plain s = true → free_of LF_char s = true.
Proof. apply all_chars_impl. intros c. by ascii_cases c. Qed.

(** The decimal numeral of a number holds digits only. *)
Lemma pretty_N_go_all_chars (p : ascii → bool) x s :
  (∀ d, p (pretty_N_char d) = true) → all_chars p s = true →
  all_chars p (pretty_N_go x s) = true.
Proof.
  intros Hp. revert s. induction (N.lt_wf_0 x) as [x _ IH]. intros s Hs.
  destruct (decide (x = 0)%N) as [->|]; [done|].
  rewrite pretty_N_go_step by lia. apply IH; [apply N.div_lt; lia|].
  simpl. by rewrite Hp, Hs.
Qed.

Lemma pretty_nat_all_chars (p : ascii → bool) (n : nat) :
  (∀ d, p (pretty_N_char d) = true) → all_chars p (pretty n) = true.
Proof.
  intros Hp. unfold pretty, pretty_nat, pretty, pretty_N.
  case_decide; [|by apply pretty_N_go_all_chars].
  specialize (Hp 0%N). simpl in *. by rewrite Hp.
Qed.

Lemma pretty_nat_free_of_LF (n : nat) : free_of LF_char (pretty n) = true.
Proof.
  apply pretty_nat_all_chars. intros d. unfold pretty_N_char.
  by repeat case_match.
Qed.

End single_line.

#[export] Hint Rewrite free_of_app : str.
#[export] Hint Resolve plain_free_of_LF pretty_nat_free_of_LF : js.

(** ** Reading a text line by line *)

Section lines.
Implicit Types (s : string) (ls : list string).

Lemma join_lines s : join LF (lines s) = s.
Proof. rewrite LF_eq. apply join_split_char. Qed.

Lemma lines_single_line s : single_line s → lines s = [s].
Proof. apply split_char_free. Qed.

(** The lines of pieces joined by line feeds are the lines of the pieces. *)
Lemma lines_join_bind ls : ls ≠ [] → lines (join LF ls) = ls ≫= lines.
Proof. rewrite LF_eq. apply split_char_join_bind. Qed.

Lemma bind_lines_single ls : Forall single_line ls → ls ≫= lines = ls.
Proof.
  induction 1 as [|s ls Hs _ IH]; [done|].
  by rewrite bind_cons, lines_single_line, IH.
Qed.

Lemma lines_app_LF s t : lines (s +:+ LF +:+ t) = lines s ++ lines t.
Proof. apply split_char_app_sep. Qed.

(** Lines joined by line feeds are read back as they were. *)
Lemma lines_join ls :
  ls ≠ [] → Forall single_line ls → lines (join LF ls) = ls.
Proof. intros Hne Hls. rewrite LF_eq. by apply split_char_join. Qed.

(** Reading a text line by line and joining lines with line feeds undo each
    other: any text is its lines joined, and single lines that are joined
    are read back as they were. *)
Theorem lines_join_inverse s ls :
  join LF (lines s) = s
  ∧ (ls ≠ [] → Forall single_line ls → lines (join LF ls) = ls).
Proof. split; [apply join_lines|apply lines_join]. Qed.

End lines.
