(* ===== verification/Normalizer.v ===== *)
(** * Normalizer: the display form of a topic

    [toTitleCase] (src/app/components/PromptGenerator.tsx, lines 41-47) trims
    the topic, splits it at runs of white space, puts the first character of
    each token in upper case and joins the tokens with one space.  The
    callback of its [map] is [capitalize].

    The class [Normalizer] states what the other components rely on: the
    display form is empty exactly for a blank topic, it does not see white
    space at the ends of the topic, it is a fixed point of the function and
    it fits on one line.  [toTitleCase_normalizer] discharges it. *)

From S2P Require Import Prelude JsString Words.
#[local] Open Scope js_scope.

(** [(w) => w.charAt(0).toUpperCase() + w.slice(1)] *)
Definition capitalize (w : string) : string :=
  toUpperCase (charAt 0 w) +:+ slice 1 w.

Definition toTitleCase (text : string) : string :=
  join " " (capitalize <$> split_ws (trim text)).

(** The lower-case letters: the 26 from a to z. *)
Definition is_lower (c : ascii) : bool :=
  let n := nat_of_ascii c in (97 <=? n) && (n <=? 122).

(** A word is capitalized when it does not start with a lower-case
    letter. *)
Definition capitalized (w : string) : Prop :=
  match w with
  | "" => True
  | String c _ => is_lower c = false
  end.

#[export] Instance capitalized_dec w : Decision (capitalized w).
Proof. destruct w; apply _. Defined.

(** What a component that displays a normalized topic may assume of it. *)
Class Normalizer (norm : string → string) : Prop := {
  norm_nil t : norm t = "" ↔ trim t = "";
  norm_trim t : norm (trim t) = norm t;
  norm_idem t : norm (norm t) = norm t;
  norm_plain t : plain (norm t) = true;
}.

Example toTitleCase_ex :
  toTitleCase "  lone traveler   in neon city " = "Lone Traveler In Neon City".
Proof. reflexivity. Qed.

Example toTitleCase_preserved_ex : toTitleCase "City Lights" = "City Lights".
Proof. reflexivity. Qed.

Example toTitleCase_inner_case_ex : toTitleCase "mcDONALD's farm" = "McDONALD's Farm".
Proof. reflexivity. Qed.

(** ** The callback *)

Section capitalize.
Implicit Types (w : string) (ws : list string) (c : ascii).

Lemma capitalize_nil : capitalize "" = "".
Proof. done. Qed.

Lemma capitalize_cons c w : capitalize (String c w) = String (upper_char c) w.
Proof. done. Qed.

Lemma capitalize_idem w : capitalize (capitalize w) = capitalize w.
Proof.
  destruct w as [|c w]; [done|]. by rewrite !capitalize_cons, upper_char_idem.
Qed.

Lemma capitalize_word w : word w → word (capitalize w).
Proof.
  destruct w as [|c w]; intros [Hne Hw]; [done|]. rewrite capitalize_cons.
  split; [done|]. unfold no_space in *. simpl in *.
  by rewrite is_space_upper_char.
Qed.

Lemma capitalize_sentence ws : sentence ws → sentence (capitalize <$> ws).
Proof.
  intros [Hne Hws]. split; [by destruct ws|].
  apply Forall_fmap. eapply Forall_impl; [done|]. apply capitalize_word.
Qed.

Lemma capitalize_lower w : toLowerCase (capitalize w) = toLowerCase w.
Proof.
  destruct w as [|c w]; [done|]. rewrite capitalize_cons.
  unfold toLowerCase. simpl. by rewrite lower_upper_char.
Qed.

(** [toUpperCase] leaves the characters that are not lower-case letters,
    and gives none. *)
Lemma upper_char_lower c :
  is_lower (upper_char c) = false ∧ (upper_char c = c ↔ is_lower c = false).
Proof. by ascii_cases c. Qed.

(** The capitalized words are those that [capitalize] leaves as they
    are. *)
Lemma capitalized_fixed w : capitalized w ↔ capitalize w = w.
Proof.
  destruct w as [|c w]; [done|]. rewrite capitalize_cons. simpl.
  rewrite <- (proj2 (upper_char_lower c)). split; [congruence|by intros [=]].
Qed.

Lemma capitalized_fmap ws : Forall capitalized ws → capitalize <$> ws = ws.
Proof.
  induction 1 as [|w ws Hw%capitalized_fixed _ IH]; [done|].
  by rewrite fmap_cons, Hw, IH.
Qed.

Lemma capitalized_capitalize ws : Forall capitalized (capitalize <$> ws).
Proof.
  apply Forall_fmap, Forall_true. intros [|c w]; [done|].
  apply (upper_char_lower c).
Qed.

End capitalize.

(** ** The display form *)

Section title.
Implicit Types (t w : string) (ws : list string).

Lemma toTitleCase_blank t : trim t = "" → toTitleCase t = "".
Proof. unfold toTitleCase. by intros ->. Qed.

(** The tokens of a topic that is not blank and their capitalized forms are
    sentences. *)
Lemma toTitleCase_words t :
  trim t ≠ "" → sentence (capitalize <$> split_ws (trim t)).
Proof. intros Hne. by apply capitalize_sentence, split_ws_trim. Qed.

Lemma toTitleCase_ne t : trim t ≠ "" → toTitleCase t ≠ "".
Proof. intros Hne. by apply join_ne_nil, toTitleCase_words. Qed.

(** The display form of words joined by single spaces: each word is
    capitalized, nothing else changes. *)
Lemma toTitleCase_join ws :
  sentence ws → toTitleCase (join " " ws) = join " " (capitalize <$> ws).
Proof. intros Hws. unfold toTitleCase. by rewrite trim_join, split_ws_unjoin. Qed.

Lemma toTitleCase_trim t : toTitleCase (trim t) = toTitleCase t.
Proof. unfold toTitleCase. by rewrite trim_idem. Qed.

Lemma toTitleCase_plain t : plain (toTitleCase t) = true.
Proof.
  destruct (decide (trim t = "")) as [Ht|Hne]; [by rewrite toTitleCase_blank|].
  by apply plain_join, toTitleCase_words.
Qed.

End title.

(** ** The interface *)

#[export] Instance toTitleCase_normalizer : Normalizer toTitleCase.
Proof.
  split; [|apply toTitleCase_trim| |apply toTitleCase_plain]; intros t.
  - split; [|apply toTitleCase_blank]. intros Ht.
    destruct (decide (trim t = "")) as [|Hne]; [done|].
    by apply toTitleCase_ne in Hne.
  - destruct (decide (trim t = "")) as [Ht|Hne].
    + by rewrite !(toTitleCase_blank t Ht).
    + unfold toTitleCase at 2 3.
      rewrite toTitleCase_join by by apply toTitleCase_words.
      by rewrite capitalized_fmap by apply capitalized_capitalize.
Qed.

#[export] Hint Rewrite toTitleCase_trim capitalize_idem capitalize_lower : str.
#[export] Hint Resolve toTitleCase_plain toTitleCase_ne : js.

(** ** What the display form is *)

Section display.
Implicit Types (t : string) (ws : list string).

(** C27. The display form of a topic that is not blank is a sentence of
    capitalized words joined by single spaces: no word of it starts with a
    lower-case letter. *)
Theorem toTitleCase_sentence t :
  trim t ≠ "" →
  ∃ ws, sentence ws ∧ Forall capitalized ws ∧ toTitleCase t = join " " ws.
Proof.
  intros Hne. exists (capitalize <$> split_ws (trim t)).
  split_and!; [by apply toTitleCase_words|apply capitalized_capitalize|done].
Qed.

(** C26. A sentence of capitalized words joined by single spaces is left as it
    is: a topic that is in title case already is not changed. *)
Theorem toTitleCase_fixed ws :
  sentence ws → Forall capitalized ws →
  toTitleCase (join " " ws) = join " " ws.
Proof. intros Hws Hcap. by rewrite toTitleCase_join, capitalized_fmap. Qed.

(** The display form is empty exactly for a blank topic. *)
Theorem toTitleCase_nil t : toTitleCase t = "" ↔ trim t = "".
Proof. apply norm_nil. Qed.

(** C15. Normalizing twice is normalizing once. *)
Theorem toTitleCase_idem t : toTitleCase (toTitleCase t) = toTitleCase t.
Proof. apply norm_idem. Qed.

End display.

(** ** The lemmas at concrete inputs *)

Lemma toTitleCase_sentence_witness :
  trim " neon  city" ≠ ""
  ∧ ∃ ws, sentence ws ∧ Forall capitalized ws
        ∧ toTitleCase " neon  city" = join " " ws.
Proof.
  assert (Hne : trim " neon  city" ≠ "") by done.
  split; [exact Hne|]. exact (toTitleCase_sentence _ Hne).
Defined.

Lemma toTitleCase_fixed_witness :
  sentence ["City"; "Lights"] ∧ Forall capitalized ["City"; "Lights"]
  ∧ toTitleCase (join " " ["City"; "Lights"]) = join " " ["City"; "Lights"].
Proof.
  assert (Hws : sentence ["City"; "Lights"])
    by (by apply (bool_decide_unpack _)).
  assert (Hcap : Forall capitalized ["City"; "Lights"])
    by (by apply (bool_decide_unpack _)).
  split_and!; [exact Hws|exact Hcap|]. exact (toTitleCase_fixed _ Hws Hcap).
Defined.
