(* ===== verification/Classifier.v ===== *)
(** * Classifier: mood and style by ordered keyword rules

    [inferMood] and [inferStyle] (src/app/components/PromptGenerator.tsx,
    lines 49-66) put the topic in lower case and run down a chain of tests,
    each an alternation of literal keywords; the first test that succeeds
    gives the descriptor, and a fixed descriptor is returned when none does.

    The two functions are translated as the chains they are.  Beside them
    stands the specification the chains implement: a [ruleset] is an ordered
    list of rules and a fallback, [first_match] evaluates it, and [decides]
    says in terms of substrings which descriptor a rule set assigns.  The
    theorems show that the chains are [classify] of the rule sets
    [mood_rules] and [style_rules], that [first_match] computes [decides],
    and what follows for the
    keywords of the source. *)

From S2P Require Import Prelude JsString.
#[local] Open Scope js_scope.

(** ** The source *)

Definition inferMood (topic : string) : string :=
  let t := toLowerCase topic in
  if regex_test [/ "storm" | "war" | "night" | "neon" | "noir" | "revenge"
                 | "betrayal" | "loss" /] t
  then "moody, dramatic, tension"
  else if regex_test [/ "sunrise" | "spring" | "child" | "smile" | "peace"
                      | "home" | "ocean" | "breeze" /] t
  then "warm, hopeful, gentle"
  else if regex_test [/ "future" | "cyber" | "city" | "neon" | "tech"
                      | "robot" /] t
  then "cool, futuristic, surreal"
  else if regex_test [/ "journey" | "mountain" | "forest" | "desert"
                      | "wild" /] t
  then "epic, adventurous, cinematic"
  else "cinematic, emotional, immersive".

Definition inferStyle (topic : string) : string :=
  let t := toLowerCase topic in
  if regex_test [/ "noir" | "detective" | "rain" | "cigarette" | "shadow" /] t
  then "film noir, grain, hard contrast"
  else if regex_test [/ "vintage" | "retro" | "70s" | "80s" /] t
  then "vintage film, soft bloom, subtle grain"
  else if regex_test [/ "anime" | "manga" | "ghibli" /] t
  then "anime-inspired, painterly, soft light"
  else if regex_test [/ "nature" | "wild" | "ocean" | "forest" | "mountain" /] t
  then "naturalistic, sweeping, high dynamic range"
  else if regex_test [/ "space" | "cyber" | "neon" | "future" /] t
  then "neo-futuristic, neon, reflective surfaces"
  else "cinematic realism, shallow depth, widescreen".

(** ** The specification *)

Record rule := Rule { keywords : list string; descriptor : string }.

Record ruleset := Ruleset { rules : list rule; fallback : string }.

(** The first rule with a keyword in the subject decides. *)
Fixpoint first_match (rs : list rule) (default : string) (t : string) : string :=
  match rs with
  | [] => default
  | r :: rs' =>
      if regex_test (keywords r) t then descriptor r
      else first_match rs' default t
  end.

Definition classify (R : ruleset) (topic : string) : string :=
  first_match (rules R) (fallback R) (toLowerCase topic).

Definition mood_rules : ruleset :=
  Ruleset
    [ Rule [/ "storm" | "war" | "night" | "neon" | "noir" | "revenge"
            | "betrayal" | "loss" /] "moody, dramatic, tension";
      Rule [/ "sunrise" | "spring" | "child" | "smile" | "peace" | "home"
            | "ocean" | "breeze" /] "warm, hopeful, gentle";
      Rule [/ "future" | "cyber" | "city" | "neon" | "tech" | "robot" /]
           "cool, futuristic, surreal";
      Rule [/ "journey" | "mountain" | "forest" | "desert" | "wild" /]
           "epic, adventurous, cinematic" ]
    "cinematic, emotional, immersive".

Definition style_rules : ruleset :=
  Ruleset
    [ Rule [/ "noir" | "detective" | "rain" | "cigarette" | "shadow" /]
           "film noir, grain, hard contrast";
      Rule [/ "vintage" | "retro" | "70s" | "80s" /]
           "vintage film, soft bloom, subtle grain";
      Rule [/ "anime" | "manga" | "ghibli" /]
           "anime-inspired, painterly, soft light";
      Rule [/ "nature" | "wild" | "ocean" | "forest" | "mountain" /]
           "naturalistic, sweeping, high dynamic range";
      Rule [/ "space" | "cyber" | "neon" | "future" /]
           "neo-futuristic, neon, reflective surfaces" ]
    "cinematic realism, shallow depth, widescreen".

(** [mood_rules] without the keyword of its third rule that its first rule holds
    too. *)
Definition mood_lean : ruleset :=
  Ruleset
    [ Rule [/ "storm" | "war" | "night" | "neon" | "noir" | "revenge"
            | "betrayal" | "loss" /] "moody, dramatic, tension";
      Rule [/ "sunrise" | "spring" | "child" | "smile" | "peace" | "home"
            | "ocean" | "breeze" /] "warm, hopeful, gentle";
      Rule [/ "future" | "cyber" | "city" | "tech" | "robot" /]
           "cool, futuristic, surreal";
      Rule [/ "journey" | "mountain" | "forest" | "desert" | "wild" /]
           "epic, adventurous, cinematic" ]
    "cinematic, emotional, immersive".

(** [matches r t]: a keyword of [r] occurs in [t]. *)
Definition matches (r : rule) (t : string) : Prop :=
  ∃ k, k ∈ keywords r ∧ k ⊑ t.

(** [decides rs default t d]: [d] is the descriptor of the first rule of [rs]
    that matches [t], or [default] when no rule matches. *)
Inductive decides (rs : list rule) (default : string) (t : string) :
    string → Prop :=
  | decides_rule i r :
      rs !! i = Some r → matches r t →
      (∀ j r', j < i → rs !! j = Some r' → ¬ matches r' t) →
      decides rs default t (descriptor r)
  | decides_default :
      (∀ r, r ∈ rs → ¬ matches r t) → decides rs default t default.

(** Two topics are the same to a classifier when they differ in case only. *)
Definition case_equiv (s t : string) : Prop := toLowerCase s = toLowerCase t.

#[export] Instance case_equiv_equivalence : Equivalence case_equiv.
Proof.
  unfold case_equiv. split.
  - by intros s.
  - by intros s t.
  - intros s t u. congruence.
Qed.

(** A rule set is well formed when its keywords are not empty and in lower
    case: a keyword that is not could never decide. *)
Definition wf_rule (r : rule) : Prop :=
  Forall (λ k, k ≠ "" ∧ toLowerCase k = k) (keywords r).

Definition wf_ruleset (R : ruleset) : Prop := Forall wf_rule (rules R).

#[export] Instance wf_ruleset_dec R : Decision (wf_ruleset R).
Proof. unfold wf_ruleset, wf_rule. apply _. Defined.

Example inferMood_neon_city_ex :
  inferMood "lone traveler in neon city during rain" = "moody, dramatic, tension".
Proof. reflexivity. Qed.

Example inferStyle_neon_city_ex :
  inferStyle "lone traveler in neon city during rain"
  = "film noir, grain, hard contrast".
Proof. reflexivity. Qed.

Example infer_sunrise_ex :
  inferMood "sunrise over ocean" = "warm, hopeful, gentle"
  ∧ inferStyle "sunrise over ocean" = "naturalistic, sweeping, high dynamic range".
Proof. done. Qed.

Example inferMood_substring_ex :
  inferMood "A Warm Welcome" = "moody, dramatic, tension".
Proof. reflexivity. Qed.

(** ** Evaluation of a rule set *)

Section first_match.
Implicit Types (r : rule) (rs : list rule) (t d default : string).

Lemma regex_test_matches r t : regex_test (keywords r) t = true ↔ matches r t.
Proof.
  split; [apply regex_test_sound|].
  intros (k & ? & ?). by apply (regex_test_complete _ k).
Qed.

Lemma regex_test_not_matches r t :
  regex_test (keywords r) t = false ↔ ¬ matches r t.
Proof. rewrite <- regex_test_matches. by destruct (regex_test _ _). Qed.

Lemma first_match_hit r rs default t :
  matches r t → first_match (r :: rs) default t = descriptor r.
Proof. intros Hr%regex_test_matches. simpl. by rewrite Hr. Qed.

Lemma first_match_skip r rs default t :
  ¬ matches r t → first_match (r :: rs) default t = first_match rs default t.
Proof. intros Hr%regex_test_not_matches. simpl. by rewrite Hr. Qed.

Lemma decides_skip r rs default t d :
  ¬ matches r t → decides rs default t d → decides (r :: rs) default t d.
Proof.
  intros Hr [i r' Hi Hm Hlt|Hno].
  - apply (decides_rule _ _ _ (S i)); [done..|].
    intros [|j] r'' Hj; simpl; [by intros [= <-]|]. apply Hlt. lia.
  - apply decides_default. by intros r' [->|?]%elem_of_cons; [|apply Hno].
Qed.

(** [first_match] computes the descriptor that the rules decide. *)
Lemma first_match_decides rs default t :
  decides rs default t (first_match rs default t).
Proof.
  induction rs as [|r rs IH].
  - apply decides_default. by intros r ?%elem_of_nil.
  - destruct (regex_test (keywords r) t) eqn:Hr.
    + apply regex_test_matches in Hr. rewrite first_match_hit by done.
      apply (decides_rule _ _ _ 0); [done..|]. lia.
    + apply regex_test_not_matches in Hr. rewrite first_match_skip by done.
      by apply decides_skip.
Qed.

Lemma decides_inv_cons r rs default t d :
  decides (r :: rs) default t d →
  (matches r t ∧ d = descriptor r) ∨ (¬ matches r t ∧ decides rs default t d).
Proof.
  intros [[|i] r' Hi Hm Hlt|Hno].
  - left. by injection Hi as ->.
  - right. split; [apply (Hlt 0); [lia|done]|].
    apply (decides_rule _ _ _ i); [done..|].
    intros j r'' ? Hj. apply (Hlt (S j)); [lia|done].
  - right. split; [apply Hno; left|].
    apply decides_default. intros r' ?. apply Hno. by right.
Qed.

(** The rules decide one descriptor. *)
Lemma decides_first_match rs default t d :
  decides rs default t d → first_match rs default t = d.
Proof.
  induction rs as [|r rs IH].
  - intros [i r Hi|]; [by rewrite lookup_nil in Hi|done].
  - intros [[Hr ->]|[Hr Hd]]%decides_inv_cons.
    + by apply first_match_hit.
    + rewrite first_match_skip by done. by apply IH.
Qed.

Lemma first_match_range rs default t :
  first_match rs default t ∈ (descriptor <$> rs) ++ [default].
Proof.
  induction rs as [|r rs IH]; simpl; [set_solver|].
  destruct (regex_test _ _); set_solver.
Qed.

(** Evaluation and specification agree. *)
Lemma classify_iff (R : ruleset) (topic : string) d :
  classify R topic = d ↔ decides (rules R) (fallback R) (toLowerCase topic) d.
Proof.
  split; [intros <-; apply first_match_decides|apply decides_first_match].
Qed.

End first_match.

(** ** The classifiers of the source *)

Section classify.
Implicit Types (R : ruleset) (r : rule) (topic t k d : string).

(** C4. First match wins: the mood of a topic is the descriptor of the
    earliest rule one of whose keywords occurs in the topic in lower case,
    and the fallback when no keyword of any rule occurs. *)
Theorem inferMood_first_match_wins topic d :
  inferMood topic = d
  ↔ decides (rules mood_rules) (fallback mood_rules) (toLowerCase topic) d.
Proof. apply (classify_iff mood_rules). Qed.

(** C14. First match wins for the style, in the same sense. *)
Theorem inferStyle_first_match_wins topic d :
  inferStyle topic = d
  ↔ decides (rules style_rules) (fallback style_rules) (toLowerCase topic) d.
Proof. apply (classify_iff style_rules). Qed.

(** The chain of tests of [inferMood] is the evaluation of the rule set
    [mood_rules] on the topic in lower case. *)
Lemma inferMood_classify topic : inferMood topic = classify mood_rules topic.
Proof. reflexivity. Qed.

(** The chain of tests of [inferStyle] is the evaluation of the rule set
    [style_rules] on the topic in lower case. *)
Lemma inferStyle_classify topic : inferStyle topic = classify style_rules topic.
Proof. reflexivity. Qed.

#[export] Instance classify_proper R : Proper (case_equiv ==> (=)) (classify R).
Proof. intros s t Hst. unfold classify. by rewrite Hst. Qed.

#[export] Instance inferMood_proper : Proper (case_equiv ==> (=)) inferMood.
Proof. intros s t Hst. unfold inferMood. by rewrite Hst. Qed.

#[export] Instance inferStyle_proper : Proper (case_equiv ==> (=)) inferStyle.
Proof. intros s t Hst. unfold inferStyle. by rewrite Hst. Qed.

Lemma case_equiv_toUpperCase t : case_equiv (toUpperCase t) t.
Proof. apply toLowerCase_toUpperCase. Qed.

Lemma case_equiv_toLowerCase t : case_equiv (toLowerCase t) t.
Proof. apply toLowerCase_idem. Qed.

(** C30. Classification does not depend on the case of the topic. *)
Theorem infer_case_insensitive topic :
  inferMood (toUpperCase topic) = inferMood topic
  ∧ inferStyle (toUpperCase topic) = inferStyle topic.
Proof. by rewrite case_equiv_toUpperCase. Qed.

Lemma classify_first_rule R r rs k topic :
  rules R = r :: rs → k ∈ keywords r → k ⊑ toLowerCase topic →
  classify R topic = descriptor r.
Proof.
  intros HR Hk Ht. unfold classify. rewrite HR.
  apply first_match_hit. by exists k.
Qed.

Lemma first_match_matched rs default t r :
  r ∈ rs → matches r t → first_match rs default t ∈ descriptor <$> rs.
Proof.
  induction rs as [|r' rs IH]; [by intros ?%elem_of_nil|]. simpl.
  destruct (regex_test (keywords r') t) eqn:Hr'; [set_solver|].
  apply regex_test_not_matches in Hr'. set_solver.
Qed.

Lemma first_match_unmatched rs default t :
  (∀ r, r ∈ rs → ¬ matches r t) → first_match rs default t = default.
Proof. intros Hno. by apply decides_first_match, decides_default. Qed.

(** A rule set whose fallback is not the descriptor of a rule returns the
    fallback exactly when no keyword of any rule occurs. *)
Lemma classify_fallback R topic :
  fallback R ∉ descriptor <$> rules R →
  classify R topic = fallback R
  ↔ ∀ r, r ∈ rules R → ¬ matches r (toLowerCase topic).
Proof.
  intros Hfb. split; [|apply first_match_unmatched].
  intros Heq r Hr Hm. apply Hfb. rewrite <- Heq.
  by eapply first_match_matched.
Qed.

(** In a well-formed rule set a keyword, in whatever case it is typed, is
    classified by a rule. *)
Lemma classify_keyword R r k topic :
  wf_ruleset R → r ∈ rules R → k ∈ keywords r → case_equiv topic k →
  classify R topic ∈ descriptor <$> rules R.
Proof.
  intros Hwf Hr Hk Heq. unfold classify. rewrite Heq.
  eapply first_match_matched; [done|]. exists k. split; [done|].
  unfold wf_ruleset, wf_rule in Hwf. rewrite Forall_forall in Hwf.
  specialize (Hwf r Hr). rewrite Forall_forall in Hwf.
  destruct (Hwf k Hk) as [_ ->]. done.
Qed.

End classify.

(** ** The keywords of the source *)

Section keywords.
Implicit Types (topic k : string).

(** C9. A topic in which a keyword of the first mood rule occurs, in any
    case and inside any word, is moody whatever else it holds: "neon", which
    the third rule lists too, is decided by the first. *)
Theorem inferMood_first_rule topic k :
  k ∈ [/ "storm" | "war" | "night" | "neon" | "noir" | "revenge"
       | "betrayal" | "loss" /] →
  k ⊑ toLowerCase topic →
  inferMood topic = "moody, dramatic, tension".
Proof.
  intros Hk Ht.
  exact (classify_first_rule mood_rules _ _ k topic eq_refl Hk Ht).
Qed.

Lemma inferMood_first_rule_witness :
  "neon" ⊑ toLowerCase "Neon City Lights"
  ∧ inferMood "Neon City Lights" = "moody, dramatic, tension".
Proof.
  assert (Ht : "neon" ⊑ toLowerCase "Neon City Lights")
    by (by apply (bool_decide_unpack _)).
  split; [exact Ht|].
  apply (inferMood_first_rule "Neon City Lights" "neon"); [|exact Ht].
  by apply (bool_decide_unpack _).
Defined.

(** C31. The keyword "neon" of the third mood rule never decides: the mood is
    the same when that keyword is removed from the rule. *)
Theorem inferMood_neon_redundant topic :
  inferMood topic = classify mood_lean topic.
Proof.
  rewrite inferMood_classify. unfold classify. simpl.
  destruct (regex_test _ (toLowerCase topic)) eqn:H1; [done|].
  destruct (regex_test _ (toLowerCase topic)) eqn:H2 in |- *; [done|].
  rewrite (regex_test_ext _ [/ "future" | "cyber" | "city" | "tech" | "robot" /]);
    [done|].
  intros k Hk. assert (k ≠ "neon"); [|set_solver].
  intros ->. apply not_true_iff_false in H1. apply H1, (regex_test_complete _ "neon"); [set_solver|done].
Qed.

Lemma inferMood_range topic :
  inferMood topic ∈ (descriptor <$> rules mood_rules) ++ [fallback mood_rules].
Proof. rewrite inferMood_classify. apply first_match_range. Qed.

Lemma inferStyle_range topic :
  inferStyle topic ∈ (descriptor <$> rules style_rules) ++ [fallback style_rules].
Proof. rewrite inferStyle_classify. apply first_match_range. Qed.

(** The mood and the style of any topic are among the descriptors of
    the source: five moods and six styles. *)
Theorem infer_range topic :
  inferMood topic ∈ (descriptor <$> rules mood_rules) ++ [fallback mood_rules]
  ∧ inferStyle topic ∈ (descriptor <$> rules style_rules) ++ [fallback style_rules].
Proof. split; [apply inferMood_range|apply inferStyle_range]. Qed.

(** The rule sets of the source are well formed, and their fallbacks are
    descriptors of no rule. *)
Lemma mood_wf : wf_ruleset mood_rules.
Proof. by apply (bool_decide_unpack _). Qed.

Lemma style_wf : wf_ruleset style_rules.
Proof. by apply (bool_decide_unpack _). Qed.

Lemma mood_fallback_fresh : fallback mood_rules ∉ descriptor <$> rules mood_rules.
Proof. by apply (bool_decide_unpack _). Qed.

Lemma style_fallback_fresh : fallback style_rules ∉ descriptor <$> rules style_rules.
Proof. by apply (bool_decide_unpack _). Qed.

(** The fallback mood is returned exactly when no keyword of any mood
    rule occurs in the topic in lower case; likewise for the style. *)
Theorem infer_fallback topic :
  (inferMood topic = "cinematic, emotional, immersive"
   ↔ ∀ r, r ∈ rules mood_rules → ¬ matches r (toLowerCase topic))
  ∧ (inferStyle topic = "cinematic realism, shallow depth, widescreen"
     ↔ ∀ r, r ∈ rules style_rules → ¬ matches r (toLowerCase topic)).
Proof.
  rewrite inferMood_classify, inferStyle_classify. split.
  - apply (classify_fallback mood_rules), mood_fallback_fresh.
  - apply (classify_fallback style_rules), style_fallback_fresh.
Qed.

(** Every keyword of the source is live: a topic that is a keyword of
    a rule, typed in any case, is given the descriptor of a rule and not
    the fallback. *)
Theorem infer_keyword_live topic k r :
  case_equiv topic k → k ∈ keywords r →
  (r ∈ rules mood_rules → inferMood topic ∈ descriptor <$> rules mood_rules)
  ∧ (r ∈ rules style_rules → inferStyle topic ∈ descriptor <$> rules style_rules).
Proof.
  intros Heq Hk. rewrite inferMood_classify, inferStyle_classify.
  split; intros Hr.
  - by apply (classify_keyword mood_rules r k); [apply mood_wf|..].
  - by apply (classify_keyword style_rules r k); [apply style_wf|..].
Qed.

End keywords.

(** ** The theorems at concrete inputs *)

Lemma infer_keyword_live_witness :
  let r := Rule [/ "future" | "cyber" | "city" | "neon" | "tech" | "robot" /]
                "cool, futuristic, surreal" in
  case_equiv "CyBer" "cyber" ∧ "cyber" ∈ keywords r
  ∧ (r ∈ rules mood_rules
     → inferMood "CyBer" ∈ descriptor <$> rules mood_rules)
  ∧ (r ∈ rules style_rules
     → inferStyle "CyBer" ∈ descriptor <$> rules style_rules).
Proof.
  intros r. assert (Heq : case_equiv "CyBer" "cyber") by done.
  assert (Hk : "cyber" ∈ keywords r) by (by apply (bool_decide_unpack _)).
  split_and!; [exact Heq|exact Hk|..];
    apply (infer_keyword_live "CyBer" "cyber" r Heq Hk).
Defined.
