(* ===== verification/Collapse.v ===== *)
(** * Collapse: occurrences of a keyword and white space

    The design speaks of a normalized topic, trimmed, with its runs of white
    space collapsed and in lower case, on which the classifiers match; the
    source (src/app/components/PromptGenerator.tsx) hands them the trimmed
    topic (lines 199-202) and they put it in lower case themselves (lines 50
    and 59).  [collapse] is the collapsed view and [normalizedLower] the view
    of the design.

    A keyword that is a word, not empty and without white space, occurs in a
    text exactly when it occurs in one of its tokens; so it occurs in the
    text exactly when it occurs in the collapsed text.  The keywords of the
    source are words: classifying the topic as typed, its normalized view or
    its display form gives the same mood and the same style. *)

From S2P Require Import Prelude JsString Words Lines Normalizer Classifier.
#[local] Open Scope js_scope.

(** The topic with its ends trimmed and every run of white space collapsed
    to one space. *)
Definition collapse (s : string) : string := join " " (split_ws (trim s)).

(** The view of the topic on which the design matches. *)
Definition normalizedLower (s : string) : string := toLowerCase (collapse s).

(** A rule set whose keywords are words. *)
Definition spaceless (R : ruleset) : Prop :=
  Forall (λ r, Forall word (keywords r)) (rules R).

#[export] Instance spaceless_dec R : Decision (spaceless R).
Proof. unfold spaceless. apply _. Defined.

Example collapse_ex : collapse "  lone   traveler in  rain " = "lone traveler in rain".
Proof. reflexivity. Qed.

Example normalizedLower_ex : normalizedLower " Neon  CITY " = "neon city".
Proof. reflexivity. Qed.

(** ** Occurrences and tokens *)

Section tokens.
Implicit Types (k s t w : string) (ws : list string) (b : bool) (c : ascii).

(** An occurrence in [String c s] is at the start or in [s]. *)
Lemma substring_cons_inv k c s :
  k ⊑ String c s → (∃ post, String c s = k +:+ post) ∨ k ⊑ s.
Proof.
  intros ([|a pre] & post & Heq); [left; by exists post|right].
  rewrite str_app_cons in Heq. injection Heq as _ ->. by exists pre, post.
Qed.

Lemma substring_nil_inv k : k ⊑ "" → k = "".
Proof.
  intros (pre & post & Heq). symmetry in Heq.
  by apply str_app_eq_nil in Heq as [_ [? _]%str_app_eq_nil].
Qed.

(** The first token is a prefix of the text. *)
Lemma split_ws_go_prefix s : ∃ post, s = (split_ws_go s false).1 +:+ post.
Proof.
  str_induction s; [by exists ""|]. destruct (is_space c).
  - destruct (split_ws_go s true). by eexists.
  - destruct IH as [post Hs]. destruct (split_ws_go s false) as [w ws].
    exists post. simpl in *. by rewrite str_app_cons, <- Hs.
Qed.

(** Every token occurs in the text. *)
Lemma split_ws_go_substring s b w :
  w ∈ (split_ws_go s b).1 :: (split_ws_go s b).2 → w ⊑ s.
Proof.
  revert b. induction s as [|c s IH]; intros b; simpl.
  - intros ->%list_elem_of_singleton. apply substring_nil.
  - destruct (is_space c); [destruct b|].
    + intros ?%IH. by apply substring_cons.
    + specialize (IH true). destruct (split_ws_go s true) as [w0 ws0].
      intros [->|?]%elem_of_cons; [apply substring_nil|].
      by apply substring_cons, IH.
    + specialize (IH false). destruct (split_ws_go_prefix s) as [post Hs].
      destruct (split_ws_go s false) as [w0 ws0]. simpl in *.
      intros [->|Hin]%elem_of_cons.
      * exists "", post. by rewrite str_app_nil_l, str_app_cons, <- Hs.
      * apply substring_cons, IH. by right.
Qed.

Lemma split_ws_substring s w : w ∈ split_ws s → w ⊑ s.
Proof.
  unfold split_ws. intros Hw. apply (split_ws_go_substring s false).
  by destruct (split_ws_go s false).
Qed.

(** A word that occurs in the text occurs in one of its tokens. *)
Lemma substring_split_ws_go k s b :
  word k → k ⊑ s →
  ∃ w, w ∈ (split_ws_go s b).1 :: (split_ws_go s b).2 ∧ k ⊑ w.
Proof.
  intros Hk. revert b. induction s as [|c s IH]; intros b Hs.
  { apply substring_nil_inv in Hs. by destruct Hk. }
  apply substring_cons_inv in Hs as [[post ->]|Hs].
  - rewrite (split_ws_go_no_space k post b) by (destruct Hk; auto).
    destruct (split_ws_go post false) as [w ws]. exists (k +:+ w).
    split; [by left|]. exists "", w. by rewrite str_app_nil_l.
  - simpl. destruct (is_space c); [destruct b|].
    + by apply IH.
    + destruct (IH true Hs) as (w & Hw & ?).
      destruct (split_ws_go s true). exists w. split; [by right|done].
    + destruct (IH false Hs) as (w & Hw & ?).
      destruct (split_ws_go s false) as [w0 ws0]. simpl in *.
      apply elem_of_cons in Hw as [->|Hw].
      * exists (String c w0). split; [by left|by apply substring_cons].
      * exists w. split; [by right|done].
Qed.

(** A word occurs in a text exactly when it occurs in a token of it. *)
Lemma substring_tokens k s :
  word k → k ⊑ s ↔ ∃ w, w ∈ split_ws s ∧ k ⊑ w.
Proof.
  intros Hk. unfold split_ws. split.
  - intros Hs. destruct (substring_split_ws_go k s false Hk Hs) as (w & ? & ?).
    exists w. by destruct (split_ws_go s false).
  - intros (w & Hw & Hkw). etrans; [done|].
    apply (split_ws_go_substring s false). by destruct (split_ws_go s false).
Qed.

Lemma substring_join sep w ws : w ∈ ws → w ⊑ join sep ws.
Proof.
  induction ws as [|w' ws IH]; [by intros ?%elem_of_nil|].
  destruct ws as [|w'' ws].
  - by intros ->%list_elem_of_singleton.
  - rewrite join_cons. intros [->|Hw]%elem_of_cons.
    + apply substring_app_r. reflexivity.
    + by apply substring_app_l, substring_app_l, IH.
Qed.

End tokens.

(** ** Occurrences and trimming *)

Section trimming.
Implicit Types (k s t : string) (c : ascii).

Lemma trim_substring s : trim s ⊑ s.
Proof.
  destruct (trimStart_decompose s) as (pre & Hs & _).
  destruct (trimEnd_decompose (trimStart s)) as (post & Hs' & _).
  exists pre, post. unfold trim. by rewrite <- Hs', <- Hs.
Qed.

Lemma substring_trimStart k s : word k → k ⊑ s → k ⊑ trimStart s.
Proof.
  intros Hk. induction s as [|c s IH]; [done|]. simpl.
  destruct (is_space c) eqn:Hc; [|done].
  intros [[post Heq]|?]%substring_cons_inv; [|by apply IH].
  destruct k as [|a k]; [by destruct Hk|].
  rewrite str_app_cons in Heq. injection Heq as <- _.
  apply word_cons_inv in Hk. congruence.
Qed.

(** [trimEnd] leaves a prefix without white space alone. *)
Lemma trimEnd_prefix k t :
  no_space k = true → ∃ rest, trimEnd (k +:+ t) = k +:+ rest.
Proof.
  unfold no_space. str_induction k; [by eexists|].
  apply andb_true_iff in H as [Hc%negb_true_iff Hk].
  destruct (IH Hk) as [rest ->].
  destruct (k +:+ rest) eqn:E; [|exists rest; by rewrite str_app_cons, E].
  apply str_app_eq_nil in E as [-> ->]. exists "". by rewrite Hc.
Qed.

Lemma substring_trimEnd k s : word k → k ⊑ s → k ⊑ trimEnd s.
Proof.
  intros Hk. induction s as [|c s IH]; [done|].
  intros [[post ->]|Hs%IH]%substring_cons_inv.
  - destruct (trimEnd_prefix k post) as [rest ->]; [by destruct Hk|].
    exists "", rest. by rewrite str_app_nil_l.
  - simpl. destruct (trimEnd s) eqn:E; [|by apply substring_cons].
    apply substring_nil_inv in Hs. by destruct Hk.
Qed.

(** A word occurs in a text exactly when it occurs in the trimmed text. *)
Lemma substring_trim k s : word k → k ⊑ s ↔ k ⊑ trim s.
Proof.
  intros Hk. split.
  - intros Hs. by apply substring_trimEnd, substring_trimStart.
  - intros Hs. etrans; [done|apply trim_substring].
Qed.

(** A word occurs in a text exactly when it occurs in the collapsed text. *)
Lemma substring_collapse k s : word k → k ⊑ collapse s ↔ k ⊑ s.
Proof.
  intros Hk. unfold collapse. rewrite (substring_trim k s) by done.
  destruct (decide (trim s = "")) as [->|Hne]; [done|].
  pose proof (split_ws_trim s Hne) as Hws.
  rewrite (substring_tokens k (join _ _)), split_ws_unjoin by done.
  by rewrite <- substring_tokens.
Qed.

End trimming.

(** ** Case and white space *)

Section case.
Implicit Types (f : ascii → ascii) (s w : string) (ws : list string) (b : bool).

Context (f : ascii → ascii) (Hf : ∀ c, is_space (f c) = is_space c).

Lemma trimStart_map_chars s :
  trimStart (map_chars f s) = map_chars f (trimStart s).
Proof. str_induction s; [done|]. rewrite Hf. by destruct (is_space c). Qed.

Lemma trimEnd_map_chars s :
  trimEnd (map_chars f s) = map_chars f (trimEnd s).
Proof.
  str_induction s; [done|]. rewrite IH, Hf.
  destruct (trimEnd s); simpl; [by destruct (is_space c)|done].
Qed.

Lemma trim_map_chars s : trim (map_chars f s) = map_chars f (trim s).
Proof. unfold trim. by rewrite trimStart_map_chars, trimEnd_map_chars. Qed.

Lemma split_ws_go_map_chars s b :
  split_ws_go (map_chars f s) b
  = (map_chars f (split_ws_go s b).1, map_chars f <$> (split_ws_go s b).2).
Proof.
  revert b. str_induction s; [done|]. rewrite Hf.
  destruct (is_space c); [destruct b|]; rewrite IH;
    by destruct (split_ws_go s _).
Qed.

Lemma split_ws_map_chars s :
  split_ws (map_chars f s) = map_chars f <$> split_ws s.
Proof.
  unfold split_ws. rewrite split_ws_go_map_chars.
  by destruct (split_ws_go s false).
Qed.

Lemma join_map_chars sep ws :
  map_chars f (join sep ws) = join (map_chars f sep) (map_chars f <$> ws).
Proof.
  induction ws as [|w ws IH]; [done|]. destruct ws as [|w' ws]; [done|].
  by rewrite !fmap_cons, !join_cons, !map_chars_app, IH.
Qed.

End case.

(** ** Classifying the normalized topic *)

Section classify.
Implicit Types (R : ruleset) (rs : list rule) (s topic d : string).
Implicit Types (alts : list string).

Lemma toLowerCase_collapse s : toLowerCase (collapse s) = collapse (toLowerCase s).
Proof.
  unfold collapse, toLowerCase.
  by rewrite trim_map_chars, split_ws_map_chars, join_map_chars
    by apply is_space_lower_char.
Qed.

(** The display form in lower case is the normalized view of the design. *)
Lemma toLowerCase_toTitleCase s : toLowerCase (toTitleCase s) = normalizedLower s.
Proof.
  unfold toTitleCase, normalizedLower, collapse, toLowerCase.
  rewrite !join_map_chars, <- list_fmap_compose. f_equal.
  apply list_fmap_ext. intros _ w _. apply capitalize_lower.
Qed.

(** A test for words does not see the collapsing of white space. *)
Lemma regex_test_collapse alts s :
  Forall word alts → regex_test alts (collapse s) = regex_test alts s.
Proof.
  rewrite Forall_forall. intros Hw. apply eq_true_iff_eq.
  split; intros (k & Hk & Hs)%regex_test_sound;
    apply (regex_test_complete _ k); try done;
    by apply (substring_collapse k s); auto.
Qed.

Lemma first_match_collapse rs d s :
  Forall (λ r, Forall word (keywords r)) rs →
  first_match rs d (collapse s) = first_match rs d s.
Proof.
  induction 1 as [|r rs Hr _ IH]; [done|]. simpl.
  by rewrite regex_test_collapse, IH.
Qed.

Lemma classify_normalizedLower R topic :
  spaceless R →
  first_match (rules R) (fallback R) (normalizedLower topic) = classify R topic.
Proof.
  intros HR. unfold normalizedLower, classify.
  by rewrite toLowerCase_collapse, first_match_collapse.
Qed.

Lemma classify_toTitleCase R topic :
  spaceless R → classify R (toTitleCase topic) = classify R topic.
Proof.
  intros HR. rewrite <- (classify_normalizedLower R topic HR).
  unfold classify. by rewrite toLowerCase_toTitleCase.
Qed.

Lemma classify_collapse R topic :
  spaceless R → classify R (collapse topic) = classify R topic.
Proof.
  intros HR. rewrite <- (classify_normalizedLower R topic HR). done.
Qed.

Lemma mood_spaceless : spaceless mood_rules.
Proof. by apply (bool_decide_unpack _). Qed.

Lemma style_spaceless : spaceless style_rules.
Proof. by apply (bool_decide_unpack _). Qed.

(** The classifiers implement the design: the mood and the style of a topic
    are what the rules give on its normalized view, trimmed, collapsed and
    in lower case, although the source never collapses the topic. *)
Theorem infer_normalizedLower topic :
  inferMood topic
  = first_match (rules mood_rules) (fallback mood_rules) (normalizedLower topic)
  ∧ inferStyle topic
    = first_match (rules style_rules) (fallback style_rules)
        (normalizedLower topic).
Proof.
  split; symmetry;
    [ apply (classify_normalizedLower mood_rules), mood_spaceless
    | apply (classify_normalizedLower style_rules), style_spaceless ].
Qed.

(** C29. The mood and the style of the title are those of the topic: what is
    shown agrees with what was typed. *)
Theorem infer_toTitleCase topic :
  inferMood (toTitleCase topic) = inferMood topic
  ∧ inferStyle (toTitleCase topic) = inferStyle topic
  ∧ inferMood (collapse topic) = inferMood topic
  ∧ inferStyle (collapse topic) = inferStyle topic.
Proof.
  split_and!;
    [ apply (classify_toTitleCase mood_rules), mood_spaceless
    | apply (classify_toTitleCase style_rules), style_spaceless
    | apply (classify_collapse mood_rules), mood_spaceless
    | apply (classify_collapse style_rules), style_spaceless ].
Qed.

End classify.
