(* ===== verification/Scenes.v ===== *)
(** * Scenes: the scene composer

    [buildScenes] (src/app/components/PromptGenerator.tsx, lines 68-124)
    builds a catalogue of five scene templates around the display form of
    the topic and returns [sceneCount] scenes: scene number [i + 1] is the
    template at [i % 5] with the field [index] added.

    A template is a [SceneFields], the eight descriptive fields of the type
    [GeneratedOutput["scenes"]] (lines 18-28); a [Scene] is an index with
    the fields of a template, as the object spread of the source makes it.
    The catalogue is indexed with the total lookup: out of range the source
    would read [undefined] and show its fields as the word "undefined", which
    is what the inhabitant of [SceneFields] holds.  [buildScenes_fields]
    shows that the index is always in range. *)

From S2P Require Import Prelude JsString JsNumber Normalizer.
#[local] Open Scope js_scope.

Record SceneFields := {
  setting : string;
  cameraAngle : string;
  cameraMovement : string;
  actions : string;
  lighting : string;
  colors : string;
  atmosphere : string;
  importantObjects : string;
}.

Record Scene := {
  index : nat;
  fields :> SceneFields;
}.

#[export] Instance SceneFields_eq_dec : EqDecision SceneFields.
Proof. solve_decision. Defined.

#[export] Instance Scene_eq_dec : EqDecision Scene.
Proof. solve_decision. Defined.

(** What the source would read from a missing template. *)
#[export] Instance SceneFields_inhabited : Inhabited SceneFields :=
  populate {|
    setting := "undefined"; cameraAngle := "undefined";
    cameraMovement := "undefined"; actions := "undefined";
    lighting := "undefined"; colors := "undefined";
    atmosphere := "undefined"; importantObjects := "undefined" |}.

Definition templates (base : string) : list SceneFields := [
  {| setting := base +:+ " ? Exterior ? Golden Hour";
     cameraAngle := "wide establishing shot";
     cameraMovement := "slow forward dolly";
     actions := "subject enters frame with purpose";
     lighting := "soft, warm rim light, long shadows";
     colors := "amber, teal accents";
     atmosphere := "dust motes, gentle breeze";
     importantObjects := "distant landmark, path leading in" |};
  {| setting := base +:+ " ? Interior ? Quiet Space";
     cameraAngle := "medium over-the-shoulder";
     cameraMovement := "subtle handheld drift";
     actions := "hands interact with key object";
     lighting := "single source window light";
     colors := "neutral base with soft highlights";
     atmosphere := "hushed, intimate";
     importantObjects := "photograph, letter, small relic" |};
  {| setting := base +:+ " ? Mid-Action";
     cameraAngle := "tracking low angle";
     cameraMovement := "dynamic lateral slide";
     actions := "decisive movement, reveal of scale";
     lighting := "contrast with motivated practicals";
     colors := "deep blues, sharp whites";
     atmosphere := "energy, motion blur hints";
     importantObjects := "moving vehicle, doorway, horizon" |};
  {| setting := base +:+ " ? Intimate Close";
     cameraAngle := "close-up profile";
     cameraMovement := "slow arc to front";
     actions := "micro expressions shift, breath visible";
     lighting := "soft key, delicate catchlight";
     colors := "skin tones, gentle desaturation";
     atmosphere := "quiet tension, time slows";
     importantObjects := "eyes, fingertips, fabric texture" |};
  {| setting := base +:+ " ? Climax / Reveal";
     cameraAngle := "high wide tilt down";
     cameraMovement := "push-in to stillness";
     actions := "revelation held in silence";
     lighting := "cool ambient, warm highlight contrast";
     colors := "cool base with warm focal point";
     atmosphere := "air shimmers, particles rise";
     importantObjects := "central symbol, destination, sky" |} ].

Definition buildScenes (topic : string) (sceneCount : number) : list Scene :=
  let base := toTitleCase topic in
  let templates := templates base in
  Array_from sceneCount (λ i,
    {| index := i + 1; fields := templates !!! (i mod length templates) |}).

(** The fields of a scene that are literals of the catalogue: all but the
    setting. *)
Definition literals (f : SceneFields) : list string :=
  [cameraAngle f; cameraMovement f; actions f; lighting f; colors f;
   atmosphere f; importantObjects f].

Example buildScenes_ex :
  (λ s : Scene, (index s, setting s)) <$> buildScenes " neon city" (Num 3)
  = [ (1, "Neon City ? Exterior ? Golden Hour");
      (2, "Neon City ? Interior ? Quiet Space");
      (3, "Neon City ? Mid-Action") ].
Proof. reflexivity. Qed.

Example buildScenes_cycle_ex :
  cameraAngle <$> (fields <$> buildScenes "x" (Num 7))
  = [ "wide establishing shot"; "medium over-the-shoulder";
      "tracking low angle"; "close-up profile"; "high wide tilt down";
      "wide establishing shot"; "medium over-the-shoulder" ].
Proof. reflexivity. Qed.

(** ** The catalogue *)

Section catalogue.
Implicit Types (base : string) (i : nat).

Lemma templates_length base : length (templates base) = 5.
Proof. done. Qed.

(** The index [i % 5] is in range: the catalogue is never read outside. *)
Lemma templates_lookup base i :
  templates base !! (i mod 5)
  = Some (templates base !!! (i mod length (templates base))).
Proof.
  rewrite templates_length. apply list_lookup_lookup_total_lt.
  rewrite templates_length. apply Nat.mod_upper_bound. lia.
Qed.

Lemma templates_literals base base' :
  literals <$> templates base = literals <$> templates base'.
Proof. done. Qed.

Lemma templates_setting base f :
  f ∈ templates base →
  ∃ suffix, setting f = base +:+ suffix
    ∧ suffix ∈ [ " ? Exterior ? Golden Hour"; " ? Interior ? Quiet Space";
                 " ? Mid-Action"; " ? Intimate Close"; " ? Climax / Reveal" ].
Proof.
  unfold templates. rewrite !elem_of_cons, elem_of_nil.
  intros [->|[->|[->|[->|[->|[]]]]]]; simpl; eexists; split; try done;
    set_solver.
Qed.

End catalogue.

(** ** The composer *)

Section composer.
Implicit Types (topic : string) (n : number) (i : nat) (s : Scene).

(** The composer returns as many scenes as the count it is given, read as a
    length: none for [NaN] or a negative count. *)
Lemma buildScenes_length topic n : length (buildScenes topic n) = ToLength n.
Proof. apply Array_from_length. Qed.

(** C5. Scene cycling: the scene at position [i] has the index [i + 1] and
    the fields of the template at [i mod 5] of the catalogue built around
    the display form of the topic. *)
Theorem buildScenes_lookup topic n i :
  i < ToLength n →
  ∃ f, templates (toTitleCase topic) !! (i mod 5) = Some f
     ∧ buildScenes topic n !! i = Some {| index := i + 1; fields := f |}.
Proof.
  intros Hi. eexists. split; [apply templates_lookup|].
  unfold buildScenes. by rewrite Array_from_lookup.
Qed.

Lemma buildScenes_lookup_inv topic n i s :
  buildScenes topic n !! i = Some s →
  i < ToLength n ∧ index s = i + 1
  ∧ templates (toTitleCase topic) !! (i mod 5) = Some (fields s).
Proof.
  intros Hs. assert (i < ToLength n) as Hi.
  { rewrite <- (buildScenes_length topic). by eapply lookup_lt_Some. }
  unfold buildScenes in Hs. rewrite Array_from_lookup in Hs by done.
  injection Hs as <-. split_and!; [done..|apply templates_lookup].
Qed.

(** The indices of the scenes are 1, 2, ... in order. *)
Theorem buildScenes_index topic n :
  index <$> buildScenes topic n = seq 1 (ToLength n).
Proof.
  unfold buildScenes. rewrite Array_from_fmap. unfold Array_from.
  rewrite <- (fmap_S_seq 0). by apply list_fmap_ext; intros; simpl; lia.
Qed.

(** Every scene carries the fields of a template of the catalogue: the
    catalogue is never read out of range. *)
Lemma buildScenes_fields topic n :
  Forall (λ s, fields s ∈ templates (toTitleCase topic)) (buildScenes topic n).
Proof.
  apply Forall_lookup. intros i s (_ & _ & Hf)%buildScenes_lookup_inv.
  by eapply list_elem_of_lookup_2.
Qed.

(** The catalogue repeats with period five. *)
Theorem buildScenes_cycle topic n i s s' :
  buildScenes topic n !! i = Some s →
  buildScenes topic n !! (i + 5) = Some s' →
  fields s = fields s'.
Proof.
  intros (_ & _ & Hs)%buildScenes_lookup_inv (_ & _ & Hs')%buildScenes_lookup_inv.
  replace ((i + 5) mod 5) with (i mod 5) in Hs'; [congruence|].
  by rewrite <- Nat.Div0.add_mod_idemp_r, Nat.add_0_r.
Qed.

(** Only the setting of a scene depends on the topic: the other fields
    are the literals of the catalogue. *)
Theorem buildScenes_literals topic topic' n :
  (λ s, literals (fields s)) <$> buildScenes topic n
  = (λ s, literals (fields s)) <$> buildScenes topic' n.
Proof.
  unfold buildScenes. rewrite !Array_from_fmap. apply Array_from_ext.
  intros i _. unfold compose. cbn [fields]. rewrite !templates_length.
  assert (i mod 5 < 5) by (apply Nat.mod_upper_bound; lia).
  rewrite <- !(list_lookup_total_fmap literals) by by rewrite templates_length.
  by rewrite (templates_literals _ (toTitleCase topic')).
Qed.

(** The setting of every scene is the display form of the topic
    followed by one of the five suffixes of the catalogue. *)
Theorem buildScenes_setting topic n :
  Forall (λ s, ∃ suffix, setting s = toTitleCase topic +:+ suffix
      ∧ suffix ∈ [ " ? Exterior ? Golden Hour"; " ? Interior ? Quiet Space";
                   " ? Mid-Action"; " ? Intimate Close"; " ? Climax / Reveal" ])
    (buildScenes topic n).
Proof.
  eapply Forall_impl; [apply buildScenes_fields|].
  intros s Hs. by apply templates_setting.
Qed.

Lemma buildScenes_trim topic n : buildScenes (trim topic) n = buildScenes topic n.
Proof. unfold buildScenes. by rewrite toTitleCase_trim. Qed.

End composer.

(** ** The theorems at concrete inputs *)

Lemma buildScenes_lookup_witness :
  6 < ToLength (Num 7)
  ∧ ∃ f, templates (toTitleCase "a b") !! (6 mod 5) = Some f
       ∧ buildScenes "a b" (Num 7) !! 6 = Some {| index := 6 + 1; fields := f |}.
Proof.
  assert (Hi : 6 < ToLength (Num 7)) by (vm_compute; lia).
  split; [exact Hi|]. exact (buildScenes_lookup "a b" (Num 7) 6 Hi).
Defined.

Lemma buildScenes_cycle_witness :
  ∃ s s', buildScenes "x" (Num 8) !! 2 = Some s
        ∧ buildScenes "x" (Num 8) !! (2 + 5) = Some s'
        ∧ fields s = fields s'.
Proof.
  eexists _, _. split_and!; [reflexivity..|].
  by apply (buildScenes_cycle "x" (Num 8) 2).
Defined.
