(* ===== verification/Prompt.v ===== *)
(** * Prompt: the prompt assembler

    [buildFullPrompt] (src/app/components/PromptGenerator.tsx, lines
    126-146) writes one line per scene, joins the lines with a line feed and
    joins five sections with an empty line between them: a header with the
    display form of the topic, the mood and the style, a fixed guidance, the
    scene lines and fixed closing notes.  [sceneLine] is the callback that
    writes the line of a scene.

    The theorems give the assembled prompt as a consumer reads it, line by
    line: the sections are where the design puts them, whatever the topic. *)

From S2P Require Import Prelude JsString JsNumber Words Lines Normalizer Scenes.
#[local] Open Scope js_scope.

Definition sceneLine (s : Scene) : string :=
  join " " [
    "Scene " +:+ pretty (index s) +:+ ": " +:+ setting s +:+ ".";
    "Camera: " +:+ cameraAngle s +:+ "; movement: " +:+ cameraMovement s
      +:+ ".";
    "Action: " +:+ actions s +:+ ".";
    "Lighting: " +:+ lighting s +:+ ". Colors: " +:+ colors s +:+ ".";
    "Atmosphere: " +:+ atmosphere s +:+ ". Objects: " +:+ importantObjects s
      +:+ "." ].

Definition buildFullPrompt (topic mood style : string) (scenes : list Scene)
    : string :=
  let sceneLines := join LF (sceneLine <$> scenes) in
  join (LF +:+ LF) [
    toTitleCase topic +:+ " ? cinematic text-to-video prompt";
    "Mood: " +:+ mood +:+ ". Style: " +:+ style +:+ ".";
    "Keep visuals consistent. Short, clear sentences. Focus on what the camera sees.";
    sceneLines;
    "Final notes: consistent subject design, steady motion, no flicker, filmic grain, anamorphic bokeh." ].

(** A scene fits on one line when its fields do. *)
Definition scene_single_line (s : Scene) : Prop :=
  single_line (setting s) ∧ Forall single_line (literals s).

(** The lines of the scene section: one per scene, and one empty line when
    there is no scene ([[].join] is the empty string). *)
Definition scene_section (scenes : list Scene) : list string :=
  match scenes with [] => [""] | _ => sceneLine <$> scenes end.

Example sceneLine_ex :
  sceneLine <$> buildScenes "neon city" (Num 1)
  = [ "Scene 1: Neon City ? Exterior ? Golden Hour. Camera: wide establishing shot; movement: slow forward dolly. Action: subject enters frame with purpose. Lighting: soft, warm rim light, long shadows. Colors: amber, teal accents. Atmosphere: dust motes, gentle breeze. Objects: distant landmark, path leading in." ].
Proof. reflexivity. Qed.

(** ** One line per scene *)

(** Splits a goal [free_of c (a +:+ b +:+ ...) = true] into its pieces and
    closes those that are literals or hypotheses. *)
Ltac free_of_pieces :=
  rewrite ?free_of_app; repeat (apply andb_true_intro; split);
  try done; eauto with js.

Section scene_line.
Implicit Types (s : Scene) (topic : string).

Lemma sceneLine_single_line s : scene_single_line s → single_line (sceneLine s).
Proof.
  unfold scene_single_line, literals. rewrite !Forall_cons.
  intros (? & ? & ? & ? & ? & ? & ? & ? & _).
  apply free_of_join; [done|]. repeat constructor; free_of_pieces.
Qed.

Lemma templates_single_line base f :
  single_line base → f ∈ templates base →
  single_line (setting f) ∧ Forall single_line (literals f).
Proof.
  unfold templates. rewrite !elem_of_cons, elem_of_nil.
  intros Hb [->|[->|[->|[->|[->|[]]]]]]; split;
    try (by repeat constructor); unfold single_line; simpl; free_of_pieces.
Qed.

Lemma toTitleCase_free_of_LF topic : free_of LF_char (toTitleCase topic) = true.
Proof. apply plain_free_of_LF, toTitleCase_plain. Qed.

Lemma toTitleCase_single_line topic : single_line (toTitleCase topic).
Proof. apply toTitleCase_free_of_LF. Qed.

(** The scenes of the composer fit on one line each, whatever the topic. *)
Lemma buildScenes_single_line topic n :
  Forall scene_single_line (buildScenes topic n).
Proof.
  eapply Forall_impl; [apply buildScenes_fields|]. intros s Hs.
  apply (templates_single_line (toTitleCase topic));
    [apply toTitleCase_single_line|done].
Qed.

End scene_line.

#[export] Hint Resolve toTitleCase_free_of_LF toTitleCase_single_line
  sceneLine_single_line : js.

(** ** The assembled prompt, line by line *)

Section prompt.
Implicit Types (topic mood style : string) (scenes : list Scene) (s : Scene).

Lemma scene_section_join scenes :
  join LF (sceneLine <$> scenes) = join LF (scene_section scenes).
Proof. by destruct scenes. Qed.

Lemma scene_section_cons s scenes :
  scene_section (s :: scenes) = sceneLine <$> s :: scenes.
Proof. done. Qed.

Lemma scene_section_single_line scenes :
  Forall scene_single_line scenes → Forall single_line (scene_section scenes).
Proof.
  destruct scenes as [|s scenes]; [by repeat constructor|].
  rewrite scene_section_cons, Forall_fmap. intros Hsc.
  eapply Forall_impl; [done|]. apply sceneLine_single_line.
Qed.

(** The assembled prompt read line by line: the header, the mood and style
    and the guidance, each followed by an empty line, then the scene
    section, an empty line and the closing notes. *)
Lemma buildFullPrompt_sections topic mood style scenes :
  single_line mood → single_line style → Forall scene_single_line scenes →
  lines (buildFullPrompt topic mood style scenes)
  = [ toTitleCase topic +:+ " ? cinematic text-to-video prompt"; "";
      "Mood: " +:+ mood +:+ ". Style: " +:+ style +:+ "."; "";
      "Keep visuals consistent. Short, clear sentences. Focus on what the camera sees.";
      "" ]
    ++ scene_section scenes
    ++ [ "";
         "Final notes: consistent subject design, steady motion, no flicker, filmic grain, anamorphic bokeh." ].
Proof.
  intros Hm Hs Hsc. unfold buildFullPrompt, lines.
  rewrite scene_section_join, join_twice. cbn [interleave].
  change (?a :: ?b :: ?c :: ?d :: ?e :: ?f :: join ?sep ?ys :: ?zs)
    with ([a; b; c; d; e; f] ++ join sep ys :: zs).
  rewrite join_flatten by by destruct scenes.
  rewrite LF_eq. apply split_char_join; [done|].
  rewrite !Forall_app. split_and!.
  - repeat constructor; free_of_pieces.
  - by apply scene_section_single_line.
  - by repeat constructor.
Qed.

(** C32. The scene at position [i] is written on line [6 + i] of the prompt
    (counting from 0), and the prompt has eight lines more than there are
    scenes: the scene lines can be read back from the assembled text. *)
Theorem buildFullPrompt_scene_line topic mood style scenes i s :
  single_line mood → single_line style → Forall scene_single_line scenes →
  scenes !! i = Some s →
  lines (buildFullPrompt topic mood style scenes) !! (6 + i)
    = Some (sceneLine s)
  ∧ length (lines (buildFullPrompt topic mood style scenes))
    = length scenes + 8.
Proof.
  intros Hm Hs Hsc Hi. rewrite buildFullPrompt_sections by done.
  destruct scenes as [|s0 scenes]; [done|]. rewrite scene_section_cons.
  split.
  - rewrite lookup_app_r by (simpl; lia).
    replace (6 + i - length _) with i by (simpl; lia).
    rewrite lookup_app_l by (rewrite length_fmap; by eapply lookup_lt_Some).
    by rewrite list_lookup_fmap, Hi.
  - rewrite !length_app, length_fmap. simpl. lia.
Qed.

End prompt.

(** ** The theorem at a concrete input *)

Lemma buildFullPrompt_scene_line_witness :
  let scenes := buildScenes "neon city" (Num 3) in
  ∃ s, single_line "moody, dramatic, tension"
  ∧ single_line "film noir, grain, hard contrast"
  ∧ Forall scene_single_line scenes ∧ scenes !! 2 = Some s
  ∧ lines (buildFullPrompt "neon city" "moody, dramatic, tension"
             "film noir, grain, hard contrast" scenes) !! (6 + 2)
    = Some (sceneLine s).
Proof.
  intros scenes. eexists.
  assert (Hm : single_line "moody, dramatic, tension") by done.
  assert (Hs : single_line "film noir, grain, hard contrast") by done.
  assert (Hsc : Forall scene_single_line scenes)
    by apply buildScenes_single_line.
  split_and!; [exact Hm|exact Hs|exact Hsc|reflexivity|].
  exact (proj1 (buildFullPrompt_scene_line "neon city" _ _ scenes 2 _
                  Hm Hs Hsc eq_refl)).
Defined.
