(* ===== verification/AddOns.v ===== *)
(** * AddOns: the optional text blocks

    [buildAddOns] (src/app/components/PromptGenerator.tsx, lines 148-185)
    starts from an empty object and, for each of the five flags of
    [OptionalAddOns] (lines 5-11) that is set, assigns a text block to the
    property of that name.  The object is a finite map from [AddOnKey], the
    five property names of the type [GeneratedOutput["addOns"]] (lines
    30-36), to strings.  The text of each block is a definition of its own
    ([voiceoverBlock], ...), as the source writes it at the assignment.

    The theorems show the presence law (a block is present exactly when its
    flag is set), the text of each block, and which blocks depend on the
    topic. *)

From stdpp Require Import gmap.
From S2P Require Import Prelude JsString Words Lines Normalizer.
#[local] Open Scope js_scope.

Record OptionalAddOns := {
  includeVoiceover : bool;
  includeDialogue : bool;
  includeThumbnail : bool;
  includeCaptionsTags : bool;
  includeMusic : bool;
}.

Inductive AddOnKey : Type :=
  | voiceover
  | dialogue
  | thumbnail
  | captionsTags
  | music.

#[export] Instance AddOnKey_eq_dec : EqDecision AddOnKey.
Proof. solve_decision. Defined.

#[export] Instance AddOnKey_countable : Countable AddOnKey.
Proof.
  refine (inj_countable'
    (λ k, match k with
          | voiceover => 0 | dialogue => 1 | thumbnail => 2
          | captionsTags => 3 | music => 4
          end)
    (λ n, match n with
          | 0 => voiceover | 1 => dialogue | 2 => thumbnail
          | 3 => captionsTags | _ => music
          end) _).
  by intros [].
Defined.

#[export] Instance OptionalAddOns_eq_dec : EqDecision OptionalAddOns.
Proof. solve_decision. Defined.

Definition voiceoverBlock (base : string) : string :=
  join LF [
    "Voiceover (calm, intimate, present):";
    base +:+ ". I walk into the light. The world holds its breath.";
    "Between what was and what will be, I choose to move." ].

Definition dialogueBlock : string :=
  join LF [
    "Dialogue:";
    "A: " +:+ DQ +:+ "Do you hear it?" +:+ DQ;
    "B: " +:+ DQ +:+ "Only when it's quiet." +:+ DQ;
    "A: " +:+ DQ +:+ "Then listen." +:+ DQ ].

Definition thumbnailBlock (base : string) : string :=
  join LF [
    "Thumbnail prompt:";
    base +:+ " hero shot, strong silhouette, dominant focal point, shallow depth, soft bloom, high contrast, clean negative space, cinematic color grade" ].

Definition captionsTagsBlock (base : string) : string :=
  join LF [
    "Captions & tags:";
    "#cinematic #texttovideo #" +:+ toLowerCase (remove_ws base)
      +:+ " #filmlook #shortfilm" ].

Definition musicBlock : string :=
  join LF [
    "Music & sound mood:";
    "Sparse piano, warm pads, low cello; subtle field sounds (wind, fabric, breath)" ].

Definition buildAddOns (topic : string) (options : OptionalAddOns)
    : gmap AddOnKey string :=
  let base := toTitleCase topic in
  let addOns : gmap AddOnKey string := ∅ in
  let addOns :=
    if includeVoiceover options
    then <[voiceover := voiceoverBlock base]> addOns else addOns in
  let addOns :=
    if includeDialogue options
    then <[dialogue := dialogueBlock]> addOns else addOns in
  let addOns :=
    if includeThumbnail options
    then <[thumbnail := thumbnailBlock base]> addOns else addOns in
  let addOns :=
    if includeCaptionsTags options
    then <[captionsTags := captionsTagsBlock base]> addOns else addOns in
  let addOns :=
    if includeMusic options
    then <[music := musicBlock]> addOns else addOns in
  addOns.

(** ** The specification *)

(** The flag of a key, and the block the key stands for. *)
Definition flag (options : OptionalAddOns) (k : AddOnKey) : bool :=
  match k with
  | voiceover => includeVoiceover options
  | dialogue => includeDialogue options
  | thumbnail => includeThumbnail options
  | captionsTags => includeCaptionsTags options
  | music => includeMusic options
  end.

Definition block (base : string) (k : AddOnKey) : string :=
  match k with
  | voiceover => voiceoverBlock base
  | dialogue => dialogueBlock
  | thumbnail => thumbnailBlock base
  | captionsTags => captionsTagsBlock base
  | music => musicBlock
  end.

(** The heading of each block. *)
Definition heading (k : AddOnKey) : string :=
  match k with
  | voiceover => "Voiceover (calm, intimate, present):"
  | dialogue => "Dialogue:"
  | thumbnail => "Thumbnail prompt:"
  | captionsTags => "Captions & tags:"
  | music => "Music & sound mood:"
  end.

(** The lines of each block after its heading. *)
Definition body (base : string) (k : AddOnKey) : list string :=
  match k with
  | voiceover =>
      [ base +:+ ". I walk into the light. The world holds its breath.";
        "Between what was and what will be, I choose to move." ]
  | dialogue =>
      [ "A: " +:+ DQ +:+ "Do you hear it?" +:+ DQ;
        "B: " +:+ DQ +:+ "Only when it's quiet." +:+ DQ;
        "A: " +:+ DQ +:+ "Then listen." +:+ DQ ]
  | thumbnail =>
      [ base +:+ " hero shot, strong silhouette, dominant focal point, shallow depth, soft bloom, high contrast, clean negative space, cinematic color grade" ]
  | captionsTags =>
      [ "#cinematic #texttovideo #" +:+ toLowerCase (remove_ws base)
          +:+ " #filmlook #shortfilm" ]
  | music =>
      [ "Sparse piano, warm pads, low cello; subtle field sounds (wind, fabric, breath)" ]
  end.

Definition all_keys : list AddOnKey :=
  [voiceover; dialogue; thumbnail; captionsTags; music].

(** The keys whose flag is set. *)
Definition enabled (options : OptionalAddOns) : gset AddOnKey :=
  list_to_set (filter (λ k, flag options k = true) all_keys).

Definition no_addOns : OptionalAddOns :=
  {| includeVoiceover := false; includeDialogue := false;
     includeThumbnail := false; includeCaptionsTags := false;
     includeMusic := false |}.

Example buildAddOns_music_ex :
  buildAddOns "sunrise over ocean"
    {| includeVoiceover := false; includeDialogue := false;
       includeThumbnail := false; includeCaptionsTags := false;
       includeMusic := true |}
  = {[ music := "Music & sound mood:" +:+ LF +:+
        "Sparse piano, warm pads, low cello; subtle field sounds (wind, fabric, breath)" ]}.
Proof. by vm_compute. Qed.

Example captionsTagsBlock_ex :
  lines (captionsTagsBlock "Neon City")
  = ["Captions & tags:"; "#cinematic #texttovideo #neoncity #filmlook #shortfilm"].
Proof. reflexivity. Qed.

(** ** The presence law *)

Section presence.
Implicit Types (topic base : string) (options : OptionalAddOns) (k : AddOnKey).

Lemma elem_of_all_keys k : k ∈ all_keys.
Proof. unfold all_keys. destruct k; set_solver. Qed.

Lemma elem_of_enabled options k : k ∈ enabled options ↔ flag options k = true.
Proof.
  unfold enabled. rewrite elem_of_list_to_set, list_elem_of_filter.
  pose proof (elem_of_all_keys k). naive_solver.
Qed.

(** A map that holds a text under the keys whose flag is set and nowhere
    else has the enabled keys as its domain. *)
Lemma enabled_dom (m : gmap AddOnKey string) options (f : AddOnKey → string) :
  (∀ k, m !! k = if flag options k then Some (f k) else None) →
  dom m = enabled options.
Proof.
  intros Hm. apply set_eq. intros k. rewrite elem_of_dom, elem_of_enabled, Hm.
  destruct (flag options k); [by split; eauto|by split; [intros []|]].
Qed.

(** Each property of the add-on object, by the flag of its key. *)
Lemma buildAddOns_flag topic options k :
  buildAddOns topic options !! k
  = if flag options k then Some (block (toTitleCase topic) k) else None.
Proof.
  unfold buildAddOns. destruct options as [[] [] [] [] []], k; by simpl.
Qed.

Lemma elem_of_dom_buildAddOns topic options k :
  k ∈ dom (buildAddOns topic options) ↔ flag options k = true.
Proof.
  rewrite elem_of_dom, buildAddOns_flag.
  destruct (flag options k); [by split; eauto|by split; [intros []|]].
Qed.

(** C6. The presence law: the keys of the add-on object are exactly the
    keys whose flag is set. *)
Theorem buildAddOns_dom topic options :
  dom (buildAddOns topic options) = enabled options.
Proof.
  apply (enabled_dom _ _ (block (toTitleCase topic))), buildAddOns_flag.
Qed.

(** C10. The add-on object holds a text under a key exactly when the flag
    of the key is set and the text is the block of the key, built around the
    display form of the topic. *)
Theorem buildAddOns_lookup topic options k b :
  buildAddOns topic options !! k = Some b
  ↔ flag options k = true ∧ b = block (toTitleCase topic) k.
Proof. rewrite buildAddOns_flag. destruct (flag options k); naive_solver. Qed.

(** With no flag set the add-on object is empty. *)
Lemma buildAddOns_none topic : buildAddOns topic no_addOns = ∅.
Proof. done. Qed.

Lemma buildAddOns_trim topic options :
  buildAddOns (trim topic) options = buildAddOns topic options.
Proof. unfold buildAddOns. by rewrite toTitleCase_trim. Qed.

End presence.

(** ** The blocks *)

Section blocks.
Implicit Types (topic base s : string) (k : AddOnKey).

(** Every block starts with its heading and a line feed, so no block
    is empty. *)
Theorem block_heading base k :
  ∃ body, block base k = heading k +:+ LF +:+ body ∧ body ≠ "".
Proof.
  destruct k; eexists; (split; [reflexivity|]); try done;
    intros [H1 H2]%str_app_eq_nil; try done;
    by apply str_app_eq_nil in H2 as [??].
Qed.

(** The dialogue and the music do not depend on the topic. *)
Theorem block_topic_independent base base' k :
  k ∈ [dialogue; music] → block base k = block base' k.
Proof. rewrite !elem_of_cons, elem_of_nil. by intros [->|[->|[]]]. Qed.

Lemma remove_ws_no_space s : no_space (remove_ws s) = true.
Proof.
  unfold no_space. str_induction s; [done|].
  destruct (is_space c) eqn:Hc; simpl; by rewrite ?Hc.
Qed.

Lemma slug_single_line s : single_line (toLowerCase (remove_ws s)).
Proof.
  apply plain_free_of_LF, no_space_plain.
  rewrite no_space_toLowerCase. apply remove_ws_no_space.
Qed.

(** A block is its heading and its body, joined by line feeds. *)
Lemma block_join base k : block base k = join LF (heading k :: body base k).
Proof. by destruct k. Qed.

(** The lines of a block, for a display form of one line. *)
Lemma lines_block base k :
  single_line base → lines (block base k) = heading k :: body base k.
Proof.
  intros Hb. pose proof (slug_single_line base).
  rewrite block_join. unfold lines. rewrite LF_eq.
  apply split_char_join; [done|].
  destruct k; repeat constructor;
    rewrite ?free_of_app; repeat (apply andb_true_intro; split); done.
Qed.

(** The blocks line by line, for a display form of one line: the
    heading and then the body lines of the source. *)
Theorem block_lines base :
  single_line base →
  lines (voiceoverBlock base)
    = [ "Voiceover (calm, intimate, present):";
        base +:+ ". I walk into the light. The world holds its breath.";
        "Between what was and what will be, I choose to move." ]
  ∧ lines (thumbnailBlock base)
    = [ "Thumbnail prompt:";
        base +:+ " hero shot, strong silhouette, dominant focal point, shallow depth, soft bloom, high contrast, clean negative space, cinematic color grade" ]
  ∧ lines (captionsTagsBlock base)
    = [ "Captions & tags:";
        "#cinematic #texttovideo #" +:+ toLowerCase (remove_ws base)
          +:+ " #filmlook #shortfilm" ].
Proof.
  intros Hb. split_and!;
    [ apply (lines_block base voiceover Hb)
    | apply (lines_block base thumbnail Hb)
    | apply (lines_block base captionsTags Hb) ].
Qed.

(** The line of hash tags holds five tags, whatever white space the
    topic holds: the tag made from the topic is one word. *)
Theorem captionsTags_tags base :
  ∃ tags, captionsTagsBlock base = "Captions & tags:" +:+ LF +:+ tags
    ∧ split_ws tags
      = [ "#cinematic"; "#texttovideo"; "#" +:+ toLowerCase (remove_ws base);
          "#filmlook"; "#shortfilm" ].
Proof.
  eexists. split; [reflexivity|]. rewrite <- split_ws_unjoin.
  - by f_equal.
  - split; [done|]. repeat constructor; try done.
    change ("#" +:+ ?s) with (String "#" s). unfold no_space. simpl.
    fold no_space. by rewrite no_space_toLowerCase, remove_ws_no_space.
Qed.

End blocks.

(** ** The theorems at concrete inputs *)

Lemma block_topic_independent_witness :
  music ∈ [dialogue; music] ∧ block "Neon City" music = block "Sunrise" music.
Proof.
  assert (Hk : music ∈ [dialogue; music]) by (by apply (bool_decide_unpack _)).
  split; [exact Hk|]. exact (block_topic_independent _ _ _ Hk).
Defined.

Lemma block_lines_witness :
  single_line "Neon City"
  ∧ lines (thumbnailBlock "Neon City")
    = [ "Thumbnail prompt:";
        "Neon City" +:+ " hero shot, strong silhouette, dominant focal point, shallow depth, soft bloom, high contrast, clean negative space, cinematic color grade" ].
Proof.
  assert (Hb : single_line "Neon City") by done.
  split; [exact Hb|]. exact (proj1 (proj2 (block_lines "Neon City" Hb))).
Defined.
