(* ===== verification/Generator.v ===== *)
(** * Generator: the orchestrator

    [output] is the computation that the component [PromptGenerator] keeps
    in [useMemo] (src/app/components/PromptGenerator.tsx, lines 198-216): a
    function of the topic, the scene count and the add-on flags that returns
    [null] for a blank topic and the record [GeneratedOutput] (lines 13-37)
    otherwise.  The scene count is clamped to 3..10 with [Math.max] and
    [Math.min] before the scenes are built.

    The theorems give the result on each branch: when it is [None], the
    fields of the record, the number of scenes for an integer count and for
    [NaN], the shape of the summary line, and the assembled prompt of a
    result read line by line. *)

From stdpp Require Import gmap.
From S2P Require Import Prelude JsString JsNumber Words Lines Normalizer.
From S2P Require Import Classifier Scenes Prompt AddOns.
#[local] Open Scope js_scope.

Record GeneratedOutput := {
  title : string;
  oneLine : string;
  mood : string;
  style : string;
  scenes : list Scene;
  fullPrompt : string;
  addOns : gmap AddOnKey string;
}.

Definition DEFAULT_SCENE_COUNT : number := Num 5.

(** [mood.split(",")[0]] inside a template literal: the text before the first
    comma; a missing element would be shown as the word "undefined". *)
Definition first_word (mood : string) : string :=
  default "undefined" (split_char "," mood !! 0).

Definition output (topic : string) (sceneCount : number)
    (options : OptionalAddOns) : option GeneratedOutput :=
  let clean := trim topic in
  if negb (truthy clean) then None else
  let mood := inferMood clean in
  let style := inferStyle clean in
  let scenes :=
    buildScenes clean (Math_min (Math_max sceneCount (Num 3)) (Num 10)) in
  let fullPrompt := buildFullPrompt clean mood style scenes in
  let addOns := buildAddOns clean options in
  Some {|
    title := toTitleCase clean;
    oneLine := toTitleCase clean +:+ " ? a " +:+ first_word mood +:+ " journey";
    mood := mood;
    style := style;
    scenes := scenes;
    fullPrompt := fullPrompt;
    addOns := addOns |}.

Example output_blank_ex :
  output "" (Num 5) no_addOns = None ∧ output "   " (Num 5) no_addOns = None.
Proof. done. Qed.

Example output_neon_ex :
  (λ o, (title o, oneLine o, mood o, style o, length (scenes o)))
    <$> output "lone traveler in neon city during rain" (Num 5) no_addOns
  = Some ("Lone Traveler In Neon City During Rain",
          "Lone Traveler In Neon City During Rain ? a moody journey",
          "moody, dramatic, tension", "film noir, grain, hard contrast", 5).
Proof. by vm_compute. Qed.

Example output_clamp_ex :
  (λ o, length (scenes o)) <$> output "x" (Num 0) no_addOns = Some 3
  ∧ (λ o, length (scenes o)) <$> output "x" (Num 25) no_addOns = Some 10.
Proof. by vm_compute. Qed.

(** ** The summary line *)

Section first_word.
Implicit Types (m : string).

(** The first word of a descriptor is its text before the first comma. *)
Lemma first_word_prefix m :
  ∃ rest, m = first_word m +:+ rest ∧ free_of "," (first_word m) = true.
Proof.
  unfold first_word. pose proof (join_split_char "," m) as Hj.
  destruct (split_char_head "," m) as (w & ws & Hw & Hfree).
  rewrite Hw in *. simpl. destruct ws as [|w' ws].
  - exists "". by rewrite str_app_nil_r.
  - rewrite join_cons in Hj. eauto.
Qed.

Lemma first_word_moods :
  first_word <$> (descriptor <$> rules mood_rules) ++ [fallback mood_rules]
  = ["moody"; "warm"; "cool"; "epic"; "cinematic"].
Proof. reflexivity. Qed.

Lemma first_word_inferMood topic :
  first_word (inferMood topic) ∈ ["moody"; "warm"; "cool"; "epic"; "cinematic"].
Proof.
  rewrite <- first_word_moods. apply list_elem_of_fmap_2, inferMood_range.
Qed.

End first_word.

(** ** The result *)

(** Opens a hypothesis [H : output topic n options = Some out]: the topic is
    not blank and [out] is the record that the function builds. *)
Ltac output_fields H :=
  unfold output in H;
  destruct (truthy (trim _)) eqn:?Ht in H; [|discriminate H];
  simpl in H; injection H as <-;
  cbn [title oneLine mood style scenes fullPrompt addOns].

Section output.
Implicit Types (topic : string) (n : number) (z : Z).
Implicit Types (options : OptionalAddOns) (out : GeneratedOutput).

Lemma truthy_true s : truthy s = true ↔ s ≠ "".
Proof. by destruct s. Qed.

(** There is an output exactly for the topics that are not blank. *)
Lemma output_cases topic n options :
  (blank topic = true ∧ output topic n options = None)
  ∨ (blank topic = false ∧ ∃ out, output topic n options = Some out).
Proof.
  unfold output. destruct (blank topic) eqn:Hb.
  - left. apply trim_nil in Hb. by rewrite Hb.
  - right. split; [done|]. destruct (trim topic) eqn:E; [|by eexists].
    apply trim_nil in E. congruence.
Qed.

Lemma buildFullPrompt_trim topic m s sc :
  buildFullPrompt (trim topic) m s sc = buildFullPrompt topic m s sc.
Proof. unfold buildFullPrompt. by rewrite toTitleCase_trim. Qed.

(** C3. The empty-input law: the result is [None] exactly when the topic is
    blank, whatever the scene count and the flags. *)
Theorem output_None topic n options :
  output topic n options = None ↔ blank topic = true.
Proof.
  rewrite <- trim_nil. unfold output. by destruct (trim topic).
Qed.

(** C2. The scene count is clamped: for any integer count the result has
    [min (max count 3) 10] scenes, so between 3 and 10. *)
Theorem output_scene_count topic z options out :
  output topic (Num z) options = Some out →
  length (scenes out) = Z.to_nat (Z.min (Z.max z 3) 10)
  ∧ 3 ≤ length (scenes out) ≤ 10.
Proof.
  intros Hout. output_fields Hout. rewrite buildScenes_length. simpl. lia.
Qed.

(** The summary line is the title, the separator and the first word of
    the mood, which is one of five words. *)
Theorem output_oneLine topic n options out :
  output topic n options = Some out →
  ∃ w, w ∈ ["moody"; "warm"; "cool"; "epic"; "cinematic"]
     ∧ oneLine out = title out +:+ " ? a " +:+ w +:+ " journey"
     ∧ ∃ rest, mood out = w +:+ rest.
Proof.
  intros Hout. output_fields Hout.
  exists (first_word (inferMood (trim topic))). split_and!; [|done|].
  - apply first_word_inferMood.
  - destruct (first_word_prefix (inferMood (trim topic))) as (rest & ? & _).
    eauto.
Qed.

(** The title of a result is the display form of the topic: it is not
    empty, fits on one line and is a fixed point of the normalizer. *)
Theorem output_title topic n options out :
  output topic n options = Some out →
  title out = toTitleCase topic
  ∧ title out ≠ "" ∧ plain (title out) = true
  ∧ toTitleCase (title out) = title out.
Proof.
  intros Hout. output_fields Hout. split_and!.
  - apply norm_trim.
  - rewrite norm_nil, trim_idem. by apply truthy_true.
  - apply norm_plain.
  - apply norm_idem.
Qed.

(** The add-on object of a result holds exactly the blocks whose flags
    are set, each built around the title. *)
Theorem output_addOns topic n options out :
  output topic n options = Some out →
  dom (addOns out) = enabled options
  ∧ ∀ k, addOns out !! k
       = if flag options k then Some (block (title out) k) else None.
Proof.
  intros Hout. output_fields Hout.
  split; [eapply enabled_dom|]; apply buildAddOns_flag.
Qed.

Lemma infer_single_line topic :
  single_line (inferMood topic) ∧ single_line (inferStyle topic).
Proof.
  pose proof (inferMood_range topic) as Hm.
  pose proof (inferStyle_range topic) as Hs. split.
  - revert Hm. generalize (inferMood topic). apply Forall_forall.
    by apply (bool_decide_unpack _).
  - revert Hs. generalize (inferStyle topic). apply Forall_forall.
    by apply (bool_decide_unpack _).
Qed.

(** C8. The prompt of a result read line by line, for any integer count:
    the header with the title, the mood and style and the guidance, each
    followed by an empty line, one line per scene, an empty line and the
    closing notes; eight lines more than there are scenes. *)
Theorem output_fullPrompt_lines topic z options out :
  output topic (Num z) options = Some out →
  lines (fullPrompt out)
  = [ title out +:+ " ? cinematic text-to-video prompt"; "";
      "Mood: " +:+ mood out +:+ ". Style: " +:+ style out +:+ "."; "";
      "Keep visuals consistent. Short, clear sentences. Focus on what the camera sees.";
      "" ]
    ++ (sceneLine <$> scenes out)
    ++ [ "";
         "Final notes: consistent subject design, steady motion, no flicker, filmic grain, anamorphic bokeh." ]
  ∧ length (lines (fullPrompt out)) = length (scenes out) + 8.
Proof.
  intros Hout. output_fields Hout.
  destruct (infer_single_line (trim topic)) as [Hm Hs].
  rewrite buildFullPrompt_sections by (done || apply buildScenes_single_line).
  destruct (buildScenes _ _) as [|s sc] eqn:E.
  - apply (f_equal length) in E. rewrite buildScenes_length in E.
    simpl in E. lia.
  - rewrite scene_section_cons. split; [done|].
    rewrite !length_app, length_fmap. simpl. lia.
Qed.

(** C13. A scene count that is not a number is not clamped: the result has no
    scene at all, and its prompt has an empty line where the scenes should
    be. *)
Theorem output_NaN topic options out :
  output topic NaN options = Some out →
  scenes out = []
  ∧ lines (fullPrompt out)
    = [ title out +:+ " ? cinematic text-to-video prompt"; "";
        "Mood: " +:+ mood out +:+ ". Style: " +:+ style out +:+ "."; "";
        "Keep visuals consistent. Short, clear sentences. Focus on what the camera sees.";
        ""; ""; "";
        "Final notes: consistent subject design, steady motion, no flicker, filmic grain, anamorphic bokeh." ].
Proof.
  intros Hout. output_fields Hout. split; [done|].
  destruct (infer_single_line (trim topic)) as [Hm Hs].
  by rewrite buildFullPrompt_sections.
Qed.


(** White space around the topic does not change the result. *)
Lemma output_trim topic n options :
  output (trim topic) n options = output topic n options.
Proof. unfold output. by rewrite trim_idem. Qed.

End output.

(** ** The theorems at concrete inputs *)

Lemma output_scene_count_witness :
  ∃ out, output "city lights" (Num 25) no_addOns = Some out
       ∧ length (scenes out) = Z.to_nat (Z.min (Z.max 25 3) 10)
       ∧ 3 ≤ length (scenes out) ≤ 10.
Proof.
  eexists. split; [reflexivity|].
  by apply (output_scene_count "city lights" 25 no_addOns).
Defined.

Lemma output_NaN_witness :
  ∃ out, output "city lights" NaN no_addOns = Some out ∧ scenes out = [].
Proof.
  eexists. split; [reflexivity|].
  by apply (output_NaN "city lights" no_addOns).
Defined.

Lemma output_oneLine_witness :
  ∃ out, output "sunrise over ocean" (Num 3) no_addOns = Some out
       ∧ ∃ w, w ∈ ["moody"; "warm"; "cool"; "epic"; "cinematic"]
            ∧ oneLine out = title out +:+ " ? a " +:+ w +:+ " journey"
            ∧ ∃ rest, mood out = w +:+ rest.
Proof.
  eexists. split; [reflexivity|].
  by apply (output_oneLine "sunrise over ocean" (Num 3) no_addOns).
Defined.

Lemma output_title_witness :
  ∃ out, output "  city   lights " (Num 3) no_addOns = Some out
       ∧ title out = toTitleCase "  city   lights "
       ∧ title out ≠ "" ∧ plain (title out) = true
       ∧ toTitleCase (title out) = title out.
Proof.
  eexists. split; [reflexivity|].
  by apply (output_title "  city   lights " (Num 3) no_addOns).
Defined.

Lemma output_addOns_witness :
  let options := {| includeVoiceover := true; includeDialogue := false;
                    includeThumbnail := false; includeCaptionsTags := true;
                    includeMusic := false |} in
  ∃ out, output "city lights" (Num 3) options = Some out
       ∧ dom (addOns out) = enabled options
       ∧ ∀ k, addOns out !! k
            = if flag options k then Some (block (title out) k) else None.
Proof.
  intros options. eexists. split; [reflexivity|].
  by apply (output_addOns "city lights" (Num 3) options).
Defined.

Lemma output_fullPrompt_lines_witness :
  ∃ out, output "city lights" (Num 4) no_addOns = Some out
       ∧ length (lines (fullPrompt out)) = length (scenes out) + 8.
Proof.
  eexists. split; [reflexivity|].
  by apply (output_fullPrompt_lines "city lights" 4 no_addOns).
Defined.

