(* ===== verification/Spec.v ===== *)
(** * Spec: the design of the generator and its refinement

    The design describes the generator as an orchestrator over a normalized
    topic: no output when the normalized topic is empty; otherwise the
    title-cased topic, the mood and the style that ordered rules give on the
    normalized topic, one scene per position 1..N taken from the catalogue at
    [(i - 1) mod 5] for the count N clamped to 3..10, the prompt as lines in
    a fixed order, and one add-on block per flag that is set.

    [generate] is that description, written without the functions of the
    source (src/app/components/PromptGenerator.tsx) where the design has
    words of its own: [normalizedLower] for the matching, [first_match] over
    the rule sets for the classifiers, a sequence of positions for the
    scenes, a list of lines for the prompt and a map built from the list of
    the enabled keys for the add-ons.  The catalogue, the blocks and the line
    of a scene are data, and shared with the source.

    [output_refines_generate] is the refinement: on every topic, every flag
    and every integer count the [useMemo] callback of the source computes
    what the design describes. *)

From stdpp Require Import gmap.
From S2P Require Import Prelude JsString JsNumber Words Lines Normalizer.
From S2P Require Import Classifier Collapse Scenes Prompt AddOns Generator.
#[local] Open Scope js_scope.

(** The count clamped to the closed range 3..10. *)
Definition clamp_count (z : Z) : nat := Z.to_nat (Z.min (Z.max z 3) 10).

(** The scene at the 1-based position [i]. *)
Definition scene_instance (titled : string) (i : nat) : Scene :=
  {| index := i; fields := templates titled !!! ((i - 1) mod 5) |}.

(** The lines of the prompt, in their fixed order. *)
Definition prompt_lines (titled mood style : string) (scenes : list Scene)
    : list string :=
  [ titled +:+ " ? cinematic text-to-video prompt"; "";
    "Mood: " +:+ mood +:+ ". Style: " +:+ style +:+ "."; "";
    "Keep visuals consistent. Short, clear sentences. Focus on what the camera sees.";
    "" ]
  ++ (sceneLine <$> scenes)
  ++ [ "";
       "Final notes: consistent subject design, steady motion, no flicker, filmic grain, anamorphic bokeh." ].

(** The add-on map: the block of every key whose flag is set. *)
Definition addOn_map (titled : string) (options : OptionalAddOns)
    : gmap AddOnKey string :=
  list_to_map
    ((λ k, (k, block titled k)) <$> filter (λ k, flag options k = true) all_keys).

(** The orchestrator of the design. *)
Definition generate (topic : string) (sceneCountRequest : Z)
    (options : OptionalAddOns) : option GeneratedOutput :=
  let lower := normalizedLower topic in
  if decide (lower = "") then None else
  let titled := toTitleCase topic in
  let mood := first_match (rules mood_rules) (fallback mood_rules) lower in
  let style := first_match (rules style_rules) (fallback style_rules) lower in
  let scenes :=
    scene_instance titled <$> seq 1 (clamp_count sceneCountRequest) in
  Some {|
    title := titled;
    oneLine := titled +:+ " ? a " +:+ first_word mood +:+ " journey";
    mood := mood;
    style := style;
    scenes := scenes;
    fullPrompt := join LF (prompt_lines titled mood style scenes);
    addOns := addOn_map titled options |}.

Example generate_ex :
  (λ o, (title o, mood o, style o, length (scenes o), dom (addOns o)))
    <$> generate "sunrise over ocean" 3
          {| includeVoiceover := false; includeDialogue := false;
             includeThumbnail := false; includeCaptionsTags := false;
             includeMusic := true |}
  = Some ("Sunrise Over Ocean", "warm, hopeful, gentle",
          "naturalistic, sweeping, high dynamic range", 3, {[ music ]}).
Proof. by vm_compute. Qed.

(** ** The parts *)

Section parts.
Implicit Types (topic titled m s : string) (n : number).
Implicit Types (options : OptionalAddOns).

Lemma normalizedLower_nil topic : normalizedLower topic = "" ↔ trim topic = "".
Proof.
  rewrite <- toLowerCase_toTitleCase, <- (norm_nil (norm := toTitleCase)).
  unfold toLowerCase. by destruct (toTitleCase topic).
Qed.

Lemma normalizedLower_trim topic :
  normalizedLower (trim topic) = normalizedLower topic.
Proof. unfold normalizedLower, collapse. by rewrite trim_idem. Qed.

(** The scenes of the source are the scenes at the positions 1..N. *)
Lemma buildScenes_scene_instance topic n :
  buildScenes topic n
  = scene_instance (toTitleCase topic) <$> seq 1 (ToLength n).
Proof.
  unfold buildScenes, Array_from. rewrite <- fmap_S_seq, <- list_fmap_compose.
  apply list_fmap_ext. intros _ i _. unfold scene_instance, compose.
  rewrite templates_length. f_equal; [lia|]. do 2 f_equal. lia.
Qed.

(** The prompt of the source is its lines joined by line feeds. *)
Lemma buildFullPrompt_prompt_lines topic m s scenes :
  scenes ≠ [] →
  buildFullPrompt topic m s scenes
  = join LF (prompt_lines (toTitleCase topic) m s scenes).
Proof.
  intros Hne. unfold buildFullPrompt, prompt_lines.
  rewrite join_twice. cbn [interleave app].
  change (?a :: ?b :: ?c :: ?d :: ?e :: ?f :: join ?sep ?ys :: ?zs)
    with ([a; b; c; d; e; f] ++ join sep ys :: zs).
  by rewrite join_flatten by by destruct scenes.
Qed.

(** The add-on object of the source is the map of the enabled keys. *)
Lemma buildAddOns_addOn_map topic options :
  buildAddOns topic options = addOn_map (toTitleCase topic) options.
Proof. unfold buildAddOns, addOn_map. by destruct options as [[] [] [] [] []]. Qed.

End parts.

(** ** The refinement *)

Section refinement.
Implicit Types (topic : string) (z : Z) (options : OptionalAddOns).

(** C1. The source implements the design: for every topic, every integer count
    and every choice of flags, the output of the source is the output that
    the design describes. *)
Theorem output_refines_generate topic z options :
  output topic (Num z) options = generate topic z options.
Proof.
  unfold output, generate.
  destruct (decide (normalizedLower topic = "")) as [Hn|Hn];
    rewrite normalizedLower_nil in Hn.
  - by rewrite Hn.
  - rewrite (proj2 (truthy_true _) Hn). cbn [negb].
    change (inferMood ?t) with (classify mood_rules t).
    change (inferStyle ?t) with (classify style_rules t).
    rewrite <- !classify_normalizedLower
      by (apply mood_spaceless || apply style_spaceless).
    rewrite normalizedLower_trim, norm_trim, buildAddOns_trim.
    rewrite buildAddOns_addOn_map, buildScenes_trim.
    rewrite buildScenes_scene_instance, buildFullPrompt_trim.
    rewrite buildFullPrompt_prompt_lines; [done|].
    intros E%(f_equal length). rewrite length_fmap, length_seq in E.
    simpl in E. lia.
Qed.

End refinement.
