(* ===== verification/Export.v ===== *)
(** * Export: the text of the copy action

    [copyAll] (src/app/components/PromptGenerator.tsx, lines 220-259) does
    nothing without an output; with one, it builds a text from the fields of
    the output and writes it to the clipboard.  This file models the text:
    [sceneBlock] is the callback that writes a scene as a list of fields,
    [sceneText] and [addOnText] are the two joined parts, [copyText] is the
    whole, and [copyAll] is the text handed to the clipboard, if any.  The
    change of the form's state after the write is in [Form].

    Both [addOnText] and [copyText] pass an array through [filter(Boolean)],
    which drops what is undefined or empty ([filter_Boolean]).  The theorems
    say what is left: in particular the empty strings that the source puts
    between the sections do not survive, so the sections of the copied text
    follow each other without an empty line. *)

From stdpp Require Import gmap.
From S2P Require Import Prelude JsString JsNumber Words Lines Normalizer.
From S2P Require Import Classifier Scenes Prompt AddOns Generator.
#[local] Open Scope js_scope.

(** [xs.filter(Boolean)] on an array of strings, some undefined: the strings
    that are defined and not empty, in order. *)
Definition filter_Boolean (xs : list (option string)) : list string :=
  omap (λ x, x ≫= λ s, if truthy s then Some s else None) xs.

(** The callback of [output.scenes.map] in [copyAll]. *)
Definition sceneBlock (s : Scene) : string :=
  "Scene " +:+ pretty (index s) +:+ ":" +:+ LF
  +:+ "- Setting: " +:+ setting s +:+ LF
  +:+ "- Camera angle: " +:+ cameraAngle s +:+ LF
  +:+ "- Camera movement: " +:+ cameraMovement s +:+ LF
  +:+ "- Character actions: " +:+ actions s +:+ LF
  +:+ "- Lighting: " +:+ lighting s +:+ LF
  +:+ "- Colors: " +:+ colors s +:+ LF
  +:+ "- Atmosphere: " +:+ atmosphere s +:+ LF
  +:+ "- Important objects: " +:+ importantObjects s.

Definition sceneText (output : GeneratedOutput) : string :=
  join (LF +:+ LF) (sceneBlock <$> scenes output).

Definition addOnText (output : GeneratedOutput) : string :=
  join (LF +:+ LF)
    (filter_Boolean [ addOns output !! voiceover; addOns output !! dialogue;
                      addOns output !! thumbnail;
                      addOns output !! captionsTags; addOns output !! music ]).

(** The constant [text] of [copyAll]. *)
Definition copyText (output : GeneratedOutput) : string :=
  let sceneText := sceneText output in
  let addOnText := addOnText output in
  join LF (filter_Boolean [
    Some "1) Video Concept";
    Some ("Title: " +:+ title output);
    Some ("One-line: " +:+ oneLine output);
    Some ("Mood & emotion: " +:+ mood output);
    Some ("Style: " +:+ style output);
    Some "";
    Some "2) Scene Breakdown";
    Some sceneText;
    Some "";
    Some "3) Full Text-to-Video Prompt";
    Some (fullPrompt output);
    Some (if truthy addOnText
          then LF +:+ LF +:+ "4) Optional Add-ons" +:+ LF +:+ addOnText
          else "") ]).

(** [copyAll]: the text written to the clipboard, none when there is no
    output ([if (!output) return]). *)
Definition copyAll (output : option GeneratedOutput) : option string :=
  match output with
  | None => None
  | Some output => Some (copyText output)
  end.

(** ** The specification *)

(** The lines of the block of a scene: the heading with the index and one
    line per field, in the order of the source. *)
Definition scene_lines (s : Scene) : list string :=
  [ "Scene " +:+ pretty (index s) +:+ ":";
    "- Setting: " +:+ setting s;
    "- Camera angle: " +:+ cameraAngle s;
    "- Camera movement: " +:+ cameraMovement s;
    "- Character actions: " +:+ actions s;
    "- Lighting: " +:+ lighting s;
    "- Colors: " +:+ colors s;
    "- Atmosphere: " +:+ atmosphere s;
    "- Important objects: " +:+ importantObjects s ].

(** The lines of the first section. *)
Definition concept_lines (output : GeneratedOutput) : list string :=
  [ "1) Video Concept";
    "Title: " +:+ title output;
    "One-line: " +:+ oneLine output;
    "Mood & emotion: " +:+ mood output;
    "Style: " +:+ style output ].

(** The lines of the scene breakdown: the lines of each scene, an empty
    line between two scenes. *)
Fixpoint breakdown_lines (scenes : list Scene) : list string :=
  match scenes with
  | [] => []
  | [s] => scene_lines s
  | s :: scenes' => scene_lines s ++ "" :: breakdown_lines scenes'
  end.

(** The blocks of the keys whose flag is set, in the order of the source. *)
Definition enabled_blocks (base : string) (options : OptionalAddOns)
    : list string :=
  block base <$> filter (λ k, flag options k = true) all_keys.

(** The last element of the copied text: the section of add-ons. *)
Definition addOn_section (base : string) (options : OptionalAddOns) : string :=
  match enabled_blocks base options with
  | [] => ""
  | blocks =>
      LF +:+ LF +:+ LF +:+ "4) Optional Add-ons" +:+ LF
      +:+ join (LF +:+ LF) blocks
  end.

(** The lines of the section of add-ons: two empty lines, the heading and
    the blocks with an empty line between two of them. *)
Definition addOn_lines (base : string) (options : OptionalAddOns)
    : list string :=
  match enabled_blocks base options with
  | [] => []
  | blocks =>
      [""; ""; "4) Optional Add-ons"] ++ (interleave "" blocks ≫= lines)
  end.

Example filter_Boolean_ex :
  filter_Boolean [Some "a"; None; Some ""; Some "b"] = ["a"; "b"].
Proof. reflexivity. Qed.

Example copyAll_lines_ex :
  take 7 ∘ lines <$> copyAll (output "neon city" (Num 3) no_addOns)
  = Some [ "1) Video Concept"; "Title: Neon City";
           "One-line: Neon City ? a moody journey";
           "Mood & emotion: moody, dramatic, tension";
           "Style: neo-futuristic, neon, reflective surfaces";
           "2) Scene Breakdown"; "Scene 1:" ].
Proof. by vm_compute. Qed.

Example copyAll_blank_ex : copyAll (output "   " (Num 3) no_addOns) = None.
Proof. reflexivity. Qed.

(** ** Filtering *)

Section filter.
Implicit Types (s : string) (xs ys : list (option string)).

Lemma filter_Boolean_Some s xs :
  s ≠ "" → filter_Boolean (Some s :: xs) = s :: filter_Boolean xs.
Proof. by destruct s. Qed.

Lemma filter_Boolean_empty xs : filter_Boolean (Some "" :: xs) = filter_Boolean xs.
Proof. done. Qed.

Lemma filter_Boolean_None xs : filter_Boolean (None :: xs) = filter_Boolean xs.
Proof. done. Qed.

Lemma filter_Boolean_app xs ys :
  filter_Boolean (xs ++ ys) = filter_Boolean xs ++ filter_Boolean ys.
Proof. apply omap_app. Qed.

(** What is kept is what is defined and not empty. *)
Lemma elem_of_filter_Boolean s xs :
  s ∈ filter_Boolean xs ↔ Some s ∈ xs ∧ s ≠ "".
Proof.
  unfold filter_Boolean. rewrite list_elem_of_omap. split.
  - intros ([[|c s']|] & Hx & Hs); simplify_eq/=. done.
  - intros [Hx Hs]. exists (Some s). split; [done|]. by destruct s.
Qed.

Lemma filter_Boolean_fmap_Some (ss : list string) :
  filter_Boolean (Some <$> ss) = filter (λ s, s ≠ "") ss.
Proof.
  induction ss as [|[|c s] ss IH]; [done|..].
  - by rewrite fmap_cons, filter_Boolean_empty, filter_cons_False by naive_solver.
  - by rewrite fmap_cons, filter_Boolean_Some, filter_cons_True, IH.
Qed.

End filter.

(** ** The scene breakdown *)

Section scene_text.
Implicit Types (s : Scene) (out : GeneratedOutput).

Lemma sceneBlock_ne s : sceneBlock s ≠ "".
Proof. done. Qed.

Lemma sceneBlock_join s : sceneBlock s = join LF (scene_lines s).
Proof. unfold sceneBlock, scene_lines. cbn [join]. by rewrite !str_app_assoc. Qed.

Lemma scene_lines_single_line s :
  scene_single_line s → Forall single_line (scene_lines s).
Proof.
  unfold scene_single_line, literals. rewrite !Forall_cons.
  intros (? & ? & ? & ? & ? & ? & ? & ? & _).
  repeat constructor; unfold single_line; free_of_pieces.
Qed.

(** The block of a scene whose fields fit on one line has nine lines. *)
Lemma sceneBlock_lines s :
  scene_single_line s → lines (sceneBlock s) = scene_lines s.
Proof.
  intros Hs. rewrite sceneBlock_join.
  by apply lines_join, scene_lines_single_line.
Qed.

Lemma sceneText_ne out : scenes out ≠ [] → sceneText out ≠ "".
Proof.
  unfold sceneText. destruct (scenes out) as [|s ss]; [done|]. intros _.
  rewrite fmap_cons. apply join_cons_ne, sceneBlock_ne.
Qed.

(** The lines of the scene breakdown: the blocks of the scenes with one
    empty line between two of them. *)
Lemma sceneText_lines out :
  scenes out ≠ [] →
  lines (sceneText out) = interleave "" (sceneBlock <$> scenes out) ≫= lines.
Proof.
  intros Hne. unfold sceneText. rewrite join_twice.
  apply lines_join_bind. by destruct (scenes out) as [|? [|??]].
Qed.

End scene_text.

(** ** The add-ons *)

Section addOn_text.
Implicit Types (topic base : string) (options : OptionalAddOns).

Lemma block_ne base k : block base k ≠ "".
Proof. by destruct k. Qed.

Lemma enabled_blocks_ne base options :
  Forall (λ b, b ≠ "") (enabled_blocks base options).
Proof. apply Forall_fmap, Forall_true. intros k. apply block_ne. Qed.

(** Reading the five properties of the built object in the order of the
    source and dropping what is not there gives the blocks of the flags that
    are set. *)
Lemma filter_Boolean_buildAddOns topic options :
  filter_Boolean ((buildAddOns topic options !!.) <$> all_keys)
  = enabled_blocks (toTitleCase topic) options.
Proof.
  unfold all_keys. rewrite !fmap_cons, !buildAddOns_flag.
  by destruct options as [[] [] [] [] []].
Qed.

Lemma truthy_join_enabled_blocks base options :
  truthy (join (LF +:+ LF) (enabled_blocks base options))
  = bool_decide (enabled_blocks base options ≠ []).
Proof.
  pose proof (enabled_blocks_ne base options) as Hne.
  destruct (enabled_blocks base options) as [|b bs]; [done|].
  apply Forall_cons in Hne as [Hb _].
  rewrite bool_decide_eq_true_2 by done.
  by apply truthy_true, join_cons_ne.
Qed.

End addOn_text.

(** ** The copied text *)

Section copy_text.
Implicit Types (topic : string) (z : Z) (options : OptionalAddOns).
Implicit Types (out : GeneratedOutput) (ss : list Scene).

Lemma breakdown_lines_cons s s' ss :
  breakdown_lines (s :: s' :: ss)
  = scene_lines s ++ "" :: breakdown_lines (s' :: ss).
Proof. done. Qed.

Lemma interleave_cons (x a b : string) ls :
  interleave x (a :: b :: ls) = a :: x :: interleave x (b :: ls).
Proof. done. Qed.

Lemma breakdown_lines_spec ss :
  Forall scene_single_line ss →
  interleave "" (sceneBlock <$> ss) ≫= lines = breakdown_lines ss.
Proof.
  induction 1 as [|s ss Hs Hss IH]; [done|].
  destruct ss as [|s' ss].
  - simpl. by rewrite app_nil_r, sceneBlock_lines.
  - rewrite !fmap_cons, interleave_cons, !bind_cons, breakdown_lines_cons.
    rewrite <- IH, sceneBlock_lines by done. by rewrite !fmap_cons.
Qed.

(** What [filter(Boolean)] leaves of the array of [copyAll] when there is a
    scene and a prompt: the two empty strings are dropped, and so is the
    last element when there is no add-on. *)
Lemma copyText_sections out :
  scenes out ≠ [] → fullPrompt out ≠ "" →
  copyText out
  = join LF (concept_lines out
             ++ [ "2) Scene Breakdown"; sceneText out;
                  "3) Full Text-to-Video Prompt"; fullPrompt out ])
    +:+ (if truthy (addOnText out)
         then LF +:+ LF +:+ LF +:+ "4) Optional Add-ons" +:+ LF
              +:+ addOnText out
         else "").
Proof.
  intros Hs%sceneText_ne Hp. unfold copyText, concept_lines. cbn zeta.
  repeat first [rewrite filter_Boolean_Some by done
               |rewrite filter_Boolean_empty].
  destruct (truthy (addOnText out)).
  - rewrite filter_Boolean_Some by by apply truthy_true.
    change (filter_Boolean []) with (@nil string). cbn [app].
    change [?a; ?b; ?c; ?d; ?e; ?f; ?g; ?h; ?i; ?j]
      with ([a; b; c; d; e; f; g; h; i] ++ [j]).
    by rewrite join_app by done.
  - rewrite filter_Boolean_empty. by rewrite str_app_nil_r.
Qed.

Lemma lines_LF_cons s : lines (LF +:+ s) = "" :: lines s.
Proof. apply (lines_app_LF "" s). Qed.

(** The lines that the section of add-ons appends to a text. *)
Lemma lines_addOn_section base options s :
  lines (s +:+ addOn_section base options)
  = lines s ++ addOn_lines base options.
Proof.
  unfold addOn_section, addOn_lines.
  destruct (enabled_blocks base options) as [|b bs] eqn:E.
  - by rewrite str_app_nil_r, app_nil_r.
  - rewrite lines_app_LF, !lines_LF_cons, lines_app_LF, join_twice.
    rewrite lines_join_bind by by destruct bs. done.
Qed.

Lemma buildFullPrompt_ne topic m s ss : buildFullPrompt topic m s ss ≠ "".
Proof.
  unfold buildFullPrompt. apply join_cons_ne.
  by intros [_ ?]%str_app_eq_nil.
Qed.

(** The add-ons of a result, read in the order of the source. *)
Lemma output_addOnText topic n options out :
  output topic n options = Some out →
  addOnText out = join (LF +:+ LF) (enabled_blocks (title out) options).
Proof.
  intros Hout. output_fields Hout. unfold addOnText. cbn [addOns]. f_equal.
  exact (filter_Boolean_buildAddOns (trim topic) options).
Qed.

(** The first section of a result holds five single lines. *)
Lemma output_concept_lines topic n options out :
  output topic n options = Some out → Forall single_line (concept_lines out).
Proof.
  intros Hout. output_fields Hout. unfold concept_lines.
  cbn [title oneLine mood style].
  destruct (infer_single_line (trim topic)) as [Hm Hs].
  assert (single_line (first_word (inferMood (trim topic)))) as Hw.
  { pose proof (first_word_inferMood (trim topic)) as Hw. revert Hw.
    generalize (first_word (inferMood (trim topic))). apply Forall_forall.
    by apply (bool_decide_unpack _). }
  repeat constructor; unfold single_line; free_of_pieces.
Qed.

(** The section of add-ons of the copied text of a result. *)
Lemma output_copyText topic z options out :
  output topic (Num z) options = Some out →
  copyText out
  = join LF (concept_lines out
             ++ [ "2) Scene Breakdown"; sceneText out;
                  "3) Full Text-to-Video Prompt"; fullPrompt out ])
    +:+ addOn_section (title out) options.
Proof.
  intros Hout. pose proof (output_addOnText _ _ _ _ Hout) as Ha.
  rewrite copyText_sections, Ha, truthy_join_enabled_blocks.
  - unfold addOn_section.
    by destruct (enabled_blocks (title out) options).
  - output_fields Hout. intros E%(f_equal length).
    rewrite buildScenes_length in E. simpl in E. lia.
  - output_fields Hout. apply buildFullPrompt_ne.
Qed.

(** The copied text of a result line by line. *)
Lemma output_copyText_lines topic z options out :
  output topic (Num z) options = Some out →
  lines (copyText out)
  = concept_lines out
    ++ "2) Scene Breakdown" :: breakdown_lines (scenes out)
    ++ "3) Full Text-to-Video Prompt" :: lines (fullPrompt out)
    ++ addOn_lines (title out) options.
Proof.
  intros Hout. rewrite (output_copyText _ _ _ _ Hout), lines_addOn_section.
  rewrite lines_join_bind by done.
  rewrite bind_app, bind_lines_single by by eapply output_concept_lines.
  do 3 rewrite bind_cons. rewrite bind_singleton, <- !app_assoc.
  rewrite sceneText_lines, breakdown_lines_spec; [done|..];
    output_fields Hout; [apply buildScenes_single_line|].
  intros E%(f_equal length). rewrite buildScenes_length in E. simpl in E. lia.
Qed.

Lemma scene_lines_length s : length (scene_lines s) = 9.
Proof. done. Qed.

(** Line [j] of the block of the scene at position [i] is line [10 * i + j]
    of the breakdown. *)
Lemma breakdown_lines_lookup ss i s j :
  ss !! i = Some s → j < 9 →
  breakdown_lines ss !! (10 * i + j) = scene_lines s !! j.
Proof.
  revert i. induction ss as [|s0 ss IH]; intros i Hi Hj; [done|].
  destruct ss as [|s1 ss].
  - destruct i as [|i]; [|done]. injection Hi as ->. by rewrite Nat.mul_0_r.
  - rewrite breakdown_lines_cons. destruct i as [|i].
    + injection Hi as ->. rewrite Nat.mul_0_r.
      by rewrite lookup_app_l by (rewrite scene_lines_length; lia).
    + rewrite lookup_app_r by (rewrite scene_lines_length; lia).
      rewrite scene_lines_length.
      replace (_ - 9) with (S (10 * i + j)) by lia. by apply IH.
Qed.

End copy_text.

(** ** The copy action *)

Section copyAll.
Implicit Types (topic : string) (z : Z) (n : number).
Implicit Types (options : OptionalAddOns) (out : GeneratedOutput).

(** The copy action does nothing exactly when the topic is blank. *)
Theorem copyAll_None topic n options :
  copyAll (output topic n options) = None ↔ blank topic = true.
Proof.
  rewrite <- trim_nil. unfold copyAll, output. by destruct (trim topic).
Qed.

(** The text that is copied, for any integer count: the first section,
    the heading and the text of the scene breakdown, the heading of the
    prompt and the prompt, joined by single line feeds, and then the section
    of add-ons, which holds the blocks of the flags that are set in the
    order voiceover, dialogue, thumbnail, captions, music after two empty
    lines and a heading, and is empty when no flag is set. *)
Theorem copyAll_text topic z options :
  copyAll (output topic (Num z) options)
  = (λ out,
      join LF (concept_lines out
               ++ [ "2) Scene Breakdown"; sceneText out;
                    "3) Full Text-to-Video Prompt"; fullPrompt out ])
      +:+ addOn_section (title out) options) <$> output topic (Num z) options.
Proof.
  destruct (output topic (Num z) options) as [out|] eqn:Hout; [|done].
  simpl. f_equal. by eapply output_copyText.
Qed.

(** C19. The copied text line by line, for any integer count.  The heading of
    the scene breakdown follows the line of the style, and the heading of
    the prompt follows the last line of the last scene: the sections are
    not separated by empty lines. *)
Theorem copyAll_lines topic z options :
  lines <$> copyAll (output topic (Num z) options)
  = (λ out,
      concept_lines out
      ++ "2) Scene Breakdown" :: breakdown_lines (scenes out)
      ++ "3) Full Text-to-Video Prompt" :: lines (fullPrompt out)
      ++ addOn_lines (title out) options) <$> output topic (Num z) options.
Proof.
  destruct (output topic (Num z) options) as [out|] eqn:Hout; [|done].
  simpl. f_equal. by eapply output_copyText_lines.
Qed.

(** The block of the scene at position [i] starts on line [6 + 10 * i] of
    the copied text (counting from 0) and holds nine lines. *)
Theorem copyAll_scene_block topic z options out i s j :
  output topic (Num z) options = Some out →
  scenes out !! i = Some s → j < 9 →
  ∃ text, copyAll (Some out) = Some text
        ∧ lines text !! (6 + 10 * i + j) = scene_lines s !! j.
Proof.
  intros Hout Hi Hj. eexists. split; [done|].
  rewrite (output_copyText_lines _ _ _ _ Hout).
  pose proof (breakdown_lines_lookup _ i s j Hi Hj) as Hb.
  destruct (lookup_lt_is_Some_2 (scene_lines s) j) as [x Hx];
    [by rewrite scene_lines_length|].
  rewrite Hx in Hb |- *.
  rewrite lookup_app_r by (simpl; lia). rewrite lookup_cons_ne_0 by (simpl; lia).
  replace (Nat.pred _) with (10 * i + j) by (simpl; lia).
  by apply lookup_app_l_Some.
Qed.

End copyAll.

(** ** The theorem at a concrete input *)

Lemma copyAll_scene_block_witness :
  ∃ out s, output "neon city" (Num 3) no_addOns = Some out
  ∧ scenes out !! 1 = Some s ∧ 1 < 9
  ∧ ∃ text, copyAll (Some out) = Some text
          ∧ lines text !! (6 + 10 * 1 + 1) = scene_lines s !! 1.
Proof.
  eexists _, _.
  assert (Hj : 1 < 9) by lia.
  split_and!; [reflexivity|reflexivity|exact Hj|].
  exact (copyAll_scene_block "neon city" 3 no_addOns _ 1 _ 1 eq_refl eq_refl Hj).
Defined.
