(* ===== verification/Readback.v ===== *)
(** * Readback: the copied text determines the output

    The text that [copyAll] writes to the clipboard
    (src/app/components/PromptGenerator.tsx, lines 239-254) is what leaves
    the application: whoever pastes it has nothing else.  This file shows
    that nothing is lost on the way.  [read_copy] reads a text line by line
    the way a consumer of the copy format would: the title, the one-line
    summary, the mood and the style after their labels, the number of
    scenes from the place of the heading of the prompt, and the add-ons from
    the headings of the blocks after the prompt.  [rebuild] calls the
    functions of the source on what was read.

    The theorem [readback_output] is the round trip: for every output of the
    generator with an integer count, reading its copied text and rebuilding
    gives the output again.  So two outputs with the same copied text are
    equal ([copyText_inj]). *)

From stdpp Require Import gmap.
From S2P Require Import Prelude JsString JsNumber Words Lines Normalizer.
From S2P Require Import Classifier Scenes Prompt AddOns Generator Export.
#[local] Open Scope js_scope.

(** ** The reader *)

(** The rest of [s] after the prefix [p], if [s] starts with [p]. *)
Fixpoint strip_prefix (p s : string) : option string :=
  match p, s with
  | "", _ => Some s
  | String a p', String b s' =>
      if Ascii.eqb a b then strip_prefix p' s' else None
  | String _ _, "" => None
  end.

(** The last character of a string. *)
Fixpoint last_char (s : string) : option ascii :=
  match s with
  | "" => None
  | String c "" => Some c
  | String _ s' => last_char s'
  end.

(** What a text says of an output. *)
Record Reading := {
  read_title : string;
  read_oneLine : string;
  read_mood : string;
  read_style : string;
  read_count : nat;
  read_keys : list AddOnKey;
}.

Definition prompt_heading : string := "3) Full Text-to-Video Prompt".

Definition read_lines (ls : list string) : option Reading :=
  t ← ls !! 1 ≫= strip_prefix "Title: ";
  o ← ls !! 2 ≫= strip_prefix "One-line: ";
  m ← ls !! 3 ≫= strip_prefix "Mood & emotion: ";
  s ← ls !! 4 ≫= strip_prefix "Style: ";
  i ← fst <$> list_find (λ l, l = prompt_heading) ls;
  let count := (i - 5) / 10 in
  let rest := drop (i + count + 9) ls in
  Some {| read_title := t; read_oneLine := o; read_mood := m; read_style := s;
          read_count := count;
          read_keys := filter (λ k, heading k ∈ rest) all_keys |}.

Definition read_copy (text : string) : option Reading :=
  read_lines (lines text).

(** The flags of a list of keys. *)
Definition options_of (keys : list AddOnKey) : OptionalAddOns :=
  {| includeVoiceover := bool_decide (voiceover ∈ keys);
     includeDialogue := bool_decide (dialogue ∈ keys);
     includeThumbnail := bool_decide (thumbnail ∈ keys);
     includeCaptionsTags := bool_decide (captionsTags ∈ keys);
     includeMusic := bool_decide (music ∈ keys) |}.

(** The output of a reading: the functions of the source, called on the
    title in place of the topic. *)
Definition rebuild (r : Reading) : GeneratedOutput :=
  let scenes := buildScenes (read_title r) (Num (Z.of_nat (read_count r))) in
  {| title := read_title r;
     oneLine := read_oneLine r;
     mood := read_mood r;
     style := read_style r;
     scenes := scenes;
     fullPrompt :=
       buildFullPrompt (read_title r) (read_mood r) (read_style r) scenes;
     addOns := buildAddOns (read_title r) (options_of (read_keys r)) |}.

Example read_copy_ex :
  (λ r, (read_title r, read_mood r, read_count r, read_keys r))
    <$> (copyAll (output "lone  traveler in neon city" (Num 4)
                    {| includeVoiceover := true; includeDialogue := false;
                       includeThumbnail := false; includeCaptionsTags := true;
                       includeMusic := false |})
         ≫= read_copy)
  = Some ("Lone Traveler In Neon City", "moody, dramatic, tension", 4,
          [voiceover; captionsTags]).
Proof. by vm_compute. Qed.

Example read_copy_garbage_ex : read_copy "hello" = None.
Proof. reflexivity. Qed.

(** ** Strings *)

Section strings.
Implicit Types (p s t : string) (c : ascii).

Lemma strip_prefix_app p s : strip_prefix p (p +:+ s) = Some s.
Proof.
  induction p as [|c p IH]; [by destruct s|].
  rewrite str_app_cons. simpl. by rewrite Ascii.eqb_refl.
Qed.

Lemma last_char_app s t : t ≠ "" → last_char (s +:+ t) = last_char t.
Proof.
  intros Ht. induction s as [|c s IH]; [done|]. rewrite str_app_cons.
  simpl. rewrite IH. destruct (s +:+ t) eqn:E; [|done].
  by apply str_app_eq_nil in E as [_ ?].
Qed.

End strings.

(** Closes a goal with a hypothesis [H : a = b] where the first characters
    of [a] and [b] are literals that differ. *)
Ltac head_discr H := rewrite ?str_app_cons in H; discriminate H.

(** The same for last characters, where [a] ends in a literal. *)
Ltac last_discr H :=
  apply (f_equal last_char) in H; rewrite !last_char_app in H by done;
  vm_compute in H; discriminate H.

(** ** The add-ons can be told apart *)

Section blocks.
Implicit Types (base l : string) (k : AddOnKey) (options : OptionalAddOns).
Implicit Types (xs : list string).

Lemma heading_inj k k' : heading k = heading k' → k = k'.
Proof. by destruct k, k'. Qed.

(** No line of a body is the heading of a block: the lines that start with
    the title end in a character that no heading ends in, the others start
    with a character that no heading starts with. *)
Lemma heading_not_body base k k' : heading k ∉ body base k'.
Proof.
  destruct k'; cbn [body]; rewrite ?elem_of_cons, elem_of_nil;
    intros H; destruct_or!; try done; destruct k;
    first [head_discr H|last_discr H].
Qed.

Lemma heading_lines_block base k k' :
  single_line base → heading k ∈ lines (block base k') ↔ k = k'.
Proof.
  intros Hb. rewrite lines_block, elem_of_cons by done. split.
  - intros [?%heading_inj|?%heading_not_body]; done.
  - intros ->. by left.
Qed.

(** The lines of blocks that are joined by empty lines. *)
Lemma elem_of_interleave_lines l xs :
  l ≠ "" → l ∈ interleave "" xs ≫= lines ↔ ∃ x, x ∈ xs ∧ l ∈ lines x.
Proof.
  intros Hl. induction xs as [|x xs IH]; [set_solver|].
  destruct xs as [|x' xs].
  - simpl. rewrite app_nil_r. set_solver.
  - change (interleave "" (x :: x' :: xs))
      with (x :: "" :: interleave "" (x' :: xs)).
    rewrite !bind_cons, !elem_of_app, IH.
    change (lines "") with [""]. set_solver.
Qed.

(** The heading of a block is a line of the section of add-ons exactly
    when the flag of the block is set. *)
Lemma heading_addOn_lines base options k :
  single_line base →
  heading k ∈ addOn_lines base options ↔ flag options k = true.
Proof.
  intros Hb. unfold addOn_lines.
  assert (heading k ∈ interleave "" (enabled_blocks base options) ≫= lines
          ↔ flag options k = true) as <-.
  { rewrite elem_of_interleave_lines by by destruct k.
    unfold enabled_blocks. setoid_rewrite list_elem_of_fmap.
    setoid_rewrite list_elem_of_filter. split.
    - intros (? & (k' & -> & Hk' & _) & ->%heading_lines_block); done.
    - intros Hk. exists (block base k). split.
      + exists k. auto using elem_of_all_keys.
      + by apply heading_lines_block. }
  destruct (enabled_blocks base options) as [|b bs]; [done|].
  rewrite !elem_of_app, !elem_of_cons, elem_of_nil.
  split; [|by auto]. intros [H|?]; [|done]. destruct_or!; by destruct k.
Qed.

(** A set of flags is the flags of the keys that it sets. *)
Lemma options_of_enabled options :
  options_of (filter (λ k, flag options k = true) all_keys) = options.
Proof. by destruct options as [[] [] [] [] []]. Qed.

End blocks.

(** ** The place of the heading of the prompt *)

Section breakdown.
Implicit Types (s : Scene) (ss : list Scene) (out : GeneratedOutput).

Lemma breakdown_lines_length ss :
  length (breakdown_lines ss) = 10 * length ss - 1.
Proof.
  induction ss as [|s ss IH]; [done|]. destruct ss as [|s' ss]; [done|].
  rewrite breakdown_lines_cons, length_app, scene_lines_length.
  simpl length in *. lia.
Qed.

Lemma scene_lines_heading s : Forall (λ l, l ≠ prompt_heading) (scene_lines s).
Proof. repeat constructor; intros H; head_discr H. Qed.

(** No line of the scene breakdown is the heading of the prompt. *)
Lemma breakdown_lines_heading ss :
  Forall (λ l, l ≠ prompt_heading) (breakdown_lines ss).
Proof.
  induction ss as [|s ss IH]; [done|]. destruct ss as [|s' ss].
  - apply scene_lines_heading.
  - rewrite breakdown_lines_cons. apply Forall_app. split.
    + apply scene_lines_heading.
    + by constructor.
Qed.

Lemma concept_lines_heading out :
  Forall (λ l, l ≠ prompt_heading) (concept_lines out).
Proof. repeat constructor; intros H; head_discr H. Qed.

(** The heading of the prompt is first found after the first section and
    the scene breakdown. *)
Lemma list_find_prompt_heading out rest :
  scenes out ≠ [] →
  list_find (λ l, l = prompt_heading)
    (concept_lines out ++ "2) Scene Breakdown" :: breakdown_lines (scenes out)
     ++ prompt_heading :: rest)
  = Some (10 * length (scenes out) + 5, prompt_heading).
Proof.
  intros Hne. apply list_find_Some.
  assert (length (concept_lines out ++ "2) Scene Breakdown"
                    :: breakdown_lines (scenes out))
          = 10 * length (scenes out) + 5) as Hlen.
  { rewrite length_app. simpl. rewrite breakdown_lines_length.
    destruct (scenes out); [done|]. simpl. lia. }
  rewrite app_comm_cons, app_assoc. split_and!; [|done|].
  - by rewrite lookup_app_r, Hlen, Nat.sub_diag by lia.
  - intros j l Hj Hlt. rewrite lookup_app_l in Hj by lia.
    revert l Hj. apply Forall_lookup, Forall_app. split.
    + apply concept_lines_heading.
    + constructor; [done|]. apply breakdown_lines_heading.
Qed.

End breakdown.

(** ** The round trip *)

Section readback.
Implicit Types (topic : string) (z : Z) (n : number).
Implicit Types (options : OptionalAddOns) (out : GeneratedOutput).

Lemma output_scenes_ne topic z options out :
  output topic (Num z) options = Some out → scenes out ≠ [].
Proof.
  intros Hout. output_fields Hout. intros E%(f_equal length).
  rewrite buildScenes_length in E. simpl in E. lia.
Qed.

Lemma output_prompt_length topic z options out :
  output topic (Num z) options = Some out →
  length (lines (fullPrompt out)) = length (scenes out) + 8.
Proof.
  intros Hout. pose proof (output_scenes_ne _ _ _ _ Hout) as Hne.
  output_fields Hout. destruct (infer_single_line (trim topic)) as [Hm Hs].
  rewrite buildFullPrompt_sections by auto using buildScenes_single_line.
  destruct (buildScenes _ _) as [|s ss]; [done|].
  rewrite scene_section_cons, !length_app, length_fmap. simpl. lia.
Qed.

Lemma output_title_single_line topic n options out :
  output topic n options = Some out → single_line (title out).
Proof. intros Hout. output_fields Hout. apply toTitleCase_single_line. Qed.

(** What the copied text of an output reads as. *)
Lemma read_copy_output topic z options out :
  output topic (Num z) options = Some out →
  read_copy (copyText out)
  = Some {| read_title := title out; read_oneLine := oneLine out;
            read_mood := mood out; read_style := style out;
            read_count := length (scenes out);
            read_keys := filter (λ k, flag options k = true) all_keys |}.
Proof.
  intros Hout. unfold read_copy, read_lines.
  rewrite (output_copyText_lines _ _ _ _ Hout).
  rewrite !lookup_app_l by (simpl; lia). cbn [concept_lines lookup list_lookup].
  cbn [mbind option_bind]. rewrite !strip_prefix_app. cbn [mbind option_bind].
  rewrite list_find_prompt_heading by by eapply output_scenes_ne.
  cbn [fmap option_fmap option_map fst mbind option_bind].
  replace ((10 * length (scenes out) + 5 - 5) / 10) with (length (scenes out))
    by (rewrite Nat.add_sub, Nat.mul_comm, Nat.div_mul; lia).
  do 2 f_equal. rewrite app_comm_cons, app_assoc, app_comm_cons, app_assoc.
  rewrite drop_app_length'.
  - apply list_filter_iff. intros k. apply heading_addOn_lines.
    by eapply output_title_single_line.
  - pose proof (output_scenes_ne _ _ _ _ Hout).
    rewrite !length_app. simpl.
    rewrite breakdown_lines_length, (output_prompt_length _ _ _ _ Hout).
    destruct (scenes out); [done|]. simpl. lia.
Qed.

(** The functions of the source give on the title what they give on the
    topic. *)
Lemma buildScenes_title topic n :
  buildScenes (toTitleCase topic) (Num (Z.of_nat (ToLength n)))
  = buildScenes topic n.
Proof.
  unfold buildScenes, Array_from. rewrite norm_idem. simpl.
  by rewrite Nat2Z.id.
Qed.

Lemma buildFullPrompt_title topic m s ss :
  buildFullPrompt (toTitleCase topic) m s ss = buildFullPrompt topic m s ss.
Proof. unfold buildFullPrompt. by rewrite norm_idem. Qed.

Lemma buildAddOns_title topic options :
  buildAddOns (toTitleCase topic) options = buildAddOns topic options.
Proof. unfold buildAddOns. by rewrite norm_idem. Qed.

(** The functions of the source, called on what the text says, give the
    output. *)
Lemma rebuild_output topic n options out :
  output topic n options = Some out →
  rebuild {| read_title := title out; read_oneLine := oneLine out;
             read_mood := mood out; read_style := style out;
             read_count := length (scenes out);
             read_keys := filter (λ k, flag options k = true) all_keys |}
  = out.
Proof.
  intros Hout. unfold rebuild. cbn [read_title read_oneLine read_mood
    read_style read_count read_keys]. rewrite options_of_enabled.
  output_fields Hout. rewrite buildScenes_length, buildScenes_title.
  by rewrite buildFullPrompt_title, buildAddOns_title.
Qed.

(** C11. The copied text is lossless: reading the copied text of an output of
    the generator and calling the functions of the source on what was read
    gives the output again, field by field, for any topic, any integer
    count and any flags. *)
Theorem readback_output topic z options out :
  output topic (Num z) options = Some out →
  rebuild <$> read_copy (copyText out) = Some out.
Proof.
  intros Hout. rewrite (read_copy_output _ _ _ _ Hout). simpl.
  by rewrite (rebuild_output _ _ _ _ Hout).
Qed.

(** Two outputs of the generator with the same copied text are equal. *)
Theorem copyText_inj topic z options out topic' z' options' out' :
  output topic (Num z) options = Some out →
  output topic' (Num z') options' = Some out' →
  copyText out = copyText out' → out = out'.
Proof.
  intros Hout Hout' E.
  pose proof (read_copy_output _ _ _ _ Hout) as Hr.
  rewrite E, (read_copy_output _ _ _ _ Hout') in Hr.
  rewrite <- (rebuild_output _ _ _ _ Hout), <- (rebuild_output _ _ _ _ Hout').
  congruence.
Qed.

End readback.

(** ** The theorems at concrete inputs *)

Lemma readback_output_witness :
  ∃ out, output "sunrise over ocean" (Num 3)
           {| includeVoiceover := false; includeDialogue := false;
              includeThumbnail := false; includeCaptionsTags := false;
              includeMusic := true |} = Some out
       ∧ rebuild <$> read_copy (copyText out) = Some out.
Proof.
  eexists. split; [reflexivity|].
  exact (readback_output "sunrise over ocean" 3 _ _ eq_refl).
Defined.

Lemma copyText_inj_witness :
  ∃ out out', output "neon city" (Num 3) no_addOns = Some out
  ∧ output "  neon   city " (Num 1) no_addOns = Some out'
  ∧ copyText out = copyText out' ∧ out = out'.
Proof.
  eexists _, _. split_and!; [reflexivity|reflexivity|by vm_compute|].
  refine (copyText_inj "neon city" 3 no_addOns _ "  neon   city " 1 no_addOns _
            eq_refl eq_refl _).
  by vm_compute.
Defined.
