(* ===== verification/ParseInt.v ===== *)
(** * ParseInt: reading the scene count

    The count field hands its text to [parseInt(value || "5", 10)]
    (src/app/components/PromptGenerator.tsx, line 290).  [parseInt] skips
    leading white space, reads a sign and then the longest run of decimal
    digits, and answers [NaN] when there is no digit; what follows the
    digits is ignored.  [or_else] is the operator [||] on strings.

    The theorems: [parseInt] reads back the decimal numeral of a natural
    number, whatever follows it, and it answers [NaN] exactly when no digit
    follows the sign. *)

From S2P Require Import Prelude JsString JsNumber Words Lines.
#[local] Open Scope js_scope.

Definition is_digit (c : ascii) : bool :=
  (48 <=? nat_of_ascii c) && (nat_of_ascii c <=? 57).

Definition digit_value (c : ascii) : Z := Z.of_nat (nat_of_ascii c) - 48.

(** The longest prefix of digits. *)
Fixpoint take_digits (s : string) : list ascii :=
  match s with
  | "" => []
  | String c s' => if is_digit c then c :: take_digits s' else []
  end.

(** The number that a run of digits denotes, most significant digit
    first. *)
Definition digits_value (ds : list ascii) : Z :=
  fold_left (λ acc d, 10 * acc + digit_value d)%Z ds 0%Z.

(** The sign and the text after it, leading white space skipped. *)
Definition read_sign (s : string) : Z * string :=
  match trimStart s with
  | String "-" s' => ((-1)%Z, s')
  | String "+" s' => (1%Z, s')
  | s' => (1%Z, s')
  end.

(** [parseInt(s, 10)]. *)
Definition parseInt (s : string) : number :=
  let '(sign, s) := read_sign s in
  match take_digits s with
  | [] => NaN
  | ds => Num (sign * digits_value ds)
  end.

(** [a || b] on strings. *)
Definition or_else (a b : string) : string := if truthy a then a else b.

(** [starts_digit s]: the first character of [s] is a digit. *)
Definition starts_digit (s : string) : bool :=
  match s with
  | "" => false
  | String c _ => is_digit c
  end.

Example parseInt_ex :
  parseInt "7" = Num 7 ∧ parseInt " 12px" = Num 12 ∧ parseInt "-3" = Num (-3)
  ∧ parseInt "2.9" = Num 2 ∧ parseInt "1e3" = Num 1
  ∧ parseInt ".5" = NaN ∧ parseInt "" = NaN ∧ parseInt "-" = NaN.
Proof. by vm_compute. Qed.

Example or_else_ex : or_else "" "5" = "5" ∧ or_else "0" "5" = "0".
Proof. done. Qed.

(** ** Digits *)

Section digits.
Implicit Types (c : ascii) (s t : string) (ds : list ascii) (x : N).

Lemma is_digit_pretty_N_char x : is_digit (pretty_N_char x) = true.
Proof. unfold pretty_N_char. by repeat case_match. Qed.

Lemma digit_value_pretty_N_char x :
  (x < 10)%N → digit_value (pretty_N_char x) = Z.of_N x.
Proof.
  intros Hx.
  do 10 (destruct x as [|x _] using N.peano_ind; [reflexivity|]). lia.
Qed.

Lemma is_digit_not_space c : is_digit c = true → is_space c = false.
Proof. by ascii_cases c. Qed.

Lemma is_digit_not_sign c s :
  is_digit c = true →
  match String c s with
  | String "-" s' => ((-1)%Z, s')
  | String "+" s' => (1%Z, s')
  | s' => (1%Z, s')
  end = (1%Z, String c s).
Proof. by ascii_cases c. Qed.

(** A numeral has no sign and no white space to skip. *)
Lemma read_sign_digit c s : is_digit c = true → read_sign (String c s) = (1%Z, String c s).
Proof.
  intros Hc. unfold read_sign. simpl.
  rewrite (is_digit_not_space c Hc). by apply is_digit_not_sign.
Qed.

Lemma take_digits_app s t :
  all_chars is_digit s = true →
  take_digits (s +:+ t) = String.list_ascii_of_string s ++ take_digits t.
Proof.
  str_induction s; [done|]. apply andb_true_iff in H as [Hc Hs].
  by rewrite Hc, IH.
Qed.

Lemma digits_value_snoc ds c :
  digits_value (ds ++ [c]) = (10 * digits_value ds + digit_value c)%Z.
Proof. unfold digits_value. by rewrite fold_left_app. Qed.

End digits.

(** ** Numerals *)

Section numeral.
Implicit Types (s t : string) (x : N) (n : nat).

Lemma list_ascii_of_string_app s t :
  String.list_ascii_of_string (s +:+ t)
  = String.list_ascii_of_string s ++ String.list_ascii_of_string t.
Proof. str_induction s; [done|]. by rewrite IH. Qed.

(** The digits are written in front of the accumulator. *)
Lemma numeral_accumulator x s : pretty_N_go x "" +:+ s = pretty_N_go x s.
Proof.
  revert s. induction (N.lt_wf_0 x) as [x _ IH]. intros s.
  destruct (decide (x = 0)%N) as [->|]; [done|].
  assert (x `div` 10 < x)%N as Hlt by (apply N.div_lt; lia).
  rewrite !(pretty_N_go_step x) by lia.
  rewrite <- (IH _ Hlt (String _ s)), <- (IH _ Hlt (String _ "")).
  by rewrite str_app_assoc.
Qed.

Lemma pretty_N_go_value x :
  digits_value (String.list_ascii_of_string (pretty_N_go x "")) = Z.of_N x.
Proof.
  induction (N.lt_wf_0 x) as [x _ IH].
  destruct (decide (x = 0)%N) as [->|]; [done|].
  rewrite pretty_N_go_step, <- (numeral_accumulator _ (String _ "")) by lia.
  rewrite list_ascii_of_string_app.
  change (String.list_ascii_of_string (String ?c "")) with [c].
  rewrite digits_value_snoc.
  rewrite IH by (apply N.div_lt; lia).
  rewrite digit_value_pretty_N_char by (apply N.mod_lt; lia).
  pose proof (N.div_mod x 10). lia.
Qed.

(** The numeral of a natural number: digits only, at least one, with the
    value of the number. *)
Lemma pretty_nat_numeral n :
  all_chars is_digit (pretty n) = true
  ∧ starts_digit (pretty n) = true
  ∧ digits_value (String.list_ascii_of_string (pretty n)) = Z.of_nat n.
Proof.
  assert (all_chars is_digit (pretty n) = true) as Hd
    by apply pretty_nat_all_chars, is_digit_pretty_N_char.
  assert (digits_value (String.list_ascii_of_string (pretty n)) = Z.of_nat n)
    as Hv.
  { unfold pretty, pretty_nat, pretty, pretty_N.
    case_decide as Hn; [by replace n with 0 by lia|].
    rewrite pretty_N_go_value. lia. }
  split_and!; [done| |done].
  destruct (pretty n) as [|c s] eqn:E; simpl in *.
  - unfold pretty, pretty_nat, pretty, pretty_N in E.
    case_decide; [done|]. assert (n ≠ 0) by lia.
    change (digits_value []) with 0%Z in Hv. lia.
  - by apply andb_true_iff in Hd as [? _].
Qed.

End numeral.

(** ** What [parseInt] answers *)

Section parseInt.
Implicit Types (s t : string) (n : nat).

(** The digits of a numeral that is followed by something else than a
    digit. *)
Lemma take_digits_pretty n t :
  starts_digit t = false →
  take_digits (pretty n +:+ t) = String.list_ascii_of_string (pretty n)
  ∧ take_digits (pretty n +:+ t) ≠ []
  ∧ digits_value (take_digits (pretty n +:+ t)) = Z.of_nat n.
Proof.
  intros Ht. destruct (pretty_nat_numeral n) as (Hd & Hs & Hv).
  assert (take_digits t = []) as Ht' by (destruct t; simpl in *; by rewrite ?Ht).
  rewrite take_digits_app, Ht', app_nil_r by done. split_and!; [done| |done].
  by destruct (pretty n).
Qed.

Lemma parseInt_minus_pretty n t :
  starts_digit t = false →
  parseInt ("-" +:+ pretty n +:+ t) = Num (- Z.of_nat n).
Proof.
  intros Ht. destruct (take_digits_pretty n t Ht) as (_ & Hne & Hv).
  rewrite str_app_cons, str_app_nil_l. unfold parseInt, read_sign. simpl.
  destruct (take_digits _); [done|]. rewrite Hv. f_equal; lia.
Qed.

(** [parseInt] reads back the decimal numeral of a natural number, whatever
    follows it, as long as that is not another digit: "7", "7px" and "7.5"
    are all read as 7. *)
Theorem parseInt_pretty n t :
  starts_digit t = false → parseInt (pretty n +:+ t) = Num (Z.of_nat n).
Proof.
  intros Ht. destruct (take_digits_pretty n t Ht) as (_ & Hne & Hv).
  destruct (pretty_nat_numeral n) as (_ & Hs & _).
  unfold parseInt. destruct (pretty n) as [|c s] eqn:E; [done|].
  rewrite str_app_cons, read_sign_digit by done.
  rewrite <- str_app_cons. destruct (take_digits _); [done|].
  rewrite Hv. f_equal. lia.
Qed.

(** [parseInt] answers [NaN] exactly when no digit follows the white space
    and the sign. *)
Theorem parseInt_NaN s :
  parseInt s = NaN ↔ starts_digit (read_sign s).2 = false.
Proof.
  unfold parseInt. destruct (read_sign s) as [sign [|c r]]; [done|]. simpl.
  by destruct (is_digit c).
Qed.

End parseInt.

(** ** The theorem at a concrete input *)

Lemma parseInt_pretty_witness :
  starts_digit ".5" = false ∧ parseInt (pretty 7 +:+ ".5") = Num 7.
Proof.
  assert (Ht : starts_digit ".5" = false) by done.
  split; [exact Ht|]. exact (parseInt_pretty 7 ".5" Ht).
Defined.
