(* ===== verification/NumberField.v ===== *)
(** * NumberField: what a number field hands to its handler

    The field of the scene count is an [input] of type [number]
    (src/app/components/PromptGenerator.tsx, lines 284-291).  The browser
    sanitizes the value of such a field: the value is the text of the field
    when that text is a valid floating-point number, and the empty string
    otherwise.  A valid floating-point number is an optional minus sign,
    then digits, or digits with a fraction, or a fraction alone (a point
    and digits), then an optional exponent.  So the handler of the field,
    which calls [parseInt(e.target.value || "5", 10)], is never given
    "abc", but it is given ".5", and "1e3".

    [valid_float] decides the grammar and [sanitize] is the value of the
    field for a text.  The theorems say what [parseInt] makes of the values
    of a number field: [NaN] exactly for the valid numbers that start with
    the point ([number_field_NaN]); and every count, any integer and [NaN],
    is the reading of some value of the field ([number_field_onto]), so the
    field keeps no count out of the state. *)

From S2P Require Import Prelude JsString JsNumber ParseInt.
#[local] Open Scope js_scope.

(** [is_char a s]: the first character of [s] is [a]. *)
Definition is_char (a : ascii) (s : string) : bool :=
  match s with
  | "" => false
  | String c _ => Ascii.eqb c a
  end.

Definition rest (s : string) : string :=
  match s with
  | "" => ""
  | String _ r => r
  end.

(** The text after the longest prefix of digits. *)
Fixpoint drop_digits (s : string) : string :=
  match s with
  | "" => ""
  | String c r => if is_digit c then drop_digits r else s
  end.

(** The text without its minus sign. *)
Definition unsigned (s : string) : string :=
  if is_char "-" s then rest s else s.

(** Nothing, or [e] or [E], an optional sign and digits to the end. *)
Definition valid_exponent (s : string) : bool :=
  match s with
  | "" => true
  | String c r =>
      (Ascii.eqb c "e" || Ascii.eqb c "E")
      && (let r := if is_char "-" r || is_char "+" r then rest r else r in
          starts_digit r && String.eqb (drop_digits r) "")
  end.

(** A point, digits, and an exponent. *)
Definition valid_fraction (s : string) : bool :=
  is_char "." s && starts_digit (rest s)
  && valid_exponent (drop_digits (rest s)).

(** The valid floating-point numbers of HTML. *)
Definition valid_float (s : string) : bool :=
  let s := unsigned s in
  if starts_digit s
  then
    let r := drop_digits s in
    if is_char "." r then valid_fraction r else valid_exponent r
  else valid_fraction s.

(** The value of a number field whose text is [text]. *)
Definition sanitize (text : string) : string :=
  if valid_float text then text else "".

(** The decimal numeral of an integer. *)
Definition numeral (z : Z) : string :=
  if (z <? 0)%Z then "-" +:+ pretty (Z.to_nat (- z)) else pretty (Z.to_nat z).

Example valid_float_ex :
  valid_float <$> ["3"; "-3"; "2.5"; ".5"; "-.5"; "1e3"; "1E+3"; "1.5e-3"]
  = [true; true; true; true; true; true; true; true]
  ∧ valid_float <$> [""; "-"; "."; "1."; "e3"; "+3"; " 3"; "3 "; "1e"; "0x10";
                     "1.5.2"; "abc"]
    = [false; false; false; false; false; false; false; false; false; false;
       false; false].
Proof. by vm_compute. Qed.

Example sanitize_ex :
  parseInt (or_else (sanitize "abc") "5") = Num 5
  ∧ parseInt (or_else (sanitize "7") "5") = Num 7
  ∧ parseInt (or_else (sanitize "1e3") "5") = Num 1
  ∧ parseInt (or_else (sanitize ".5") "5") = NaN.
Proof. by vm_compute. Qed.

(** ** The first character *)

Section first.
Implicit Types (c : ascii) (s r v : string) (z : Z) (n : number).

Lemma is_digit_not_minus c : is_digit c = true → Ascii.eqb c "-" = false.
Proof. by ascii_cases c. Qed.

Lemma starts_digit_unsigned s : starts_digit s = true → unsigned s = s.
Proof.
  destruct s as [|c s]; [done|]. intros Hc%is_digit_not_minus.
  unfold unsigned. simpl. by rewrite Hc.
Qed.

Lemma drop_digits_all s : all_chars is_digit s = true → drop_digits s = "".
Proof. str_induction s; [done|]. apply andb_true_iff in H as [-> Hs]. auto. Qed.

Lemma valid_float_ne : valid_float "" = false.
Proof. done. Qed.

(** A valid number starts with the minus sign, a digit or the point. *)
Lemma valid_float_first c r :
  valid_float (String c r) = true → c = "-"%char ∨ is_digit c = true ∨ c = "."%char.
Proof.
  unfold valid_float, unsigned. simpl.
  destruct (Ascii.eqb_spec c "-") as [->|_]; [by left|]. simpl.
  destruct (is_digit c); [by auto|]. unfold valid_fraction. simpl.
  destruct (Ascii.eqb_spec c ".") as [->|_]; [by auto|done].
Qed.

(** What [parseInt] skips of a valid number is its minus sign. *)
Lemma read_sign_valid_float v :
  valid_float v = true →
  read_sign v = ((if is_char "-" v then -1 else 1)%Z, unsigned v).
Proof.
  destruct v as [|c r]; [done|].
  intros [->|[Hc| ->]]%valid_float_first; [done| |done].
  rewrite read_sign_digit by done. unfold unsigned. simpl.
  by rewrite is_digit_not_minus.
Qed.

Lemma or_else_ne s t : s ≠ "" → or_else s t = s.
Proof. by destruct s. Qed.

End first.

(** ** What the handler is given, and what it reads *)

Section number_field.
Implicit Types (s v text : string) (z : Z) (n : number).

(** The values of a number field are the empty string and the valid
    numbers. *)
Lemma sanitize_spec text :
  sanitize text = "" ∨ sanitize text = text ∧ valid_float text = true.
Proof. unfold sanitize. destruct (valid_float text); auto. Qed.

Lemma sanitize_idem text : sanitize (sanitize text) = sanitize text.
Proof. unfold sanitize. by destruct (valid_float text) eqn:E; rewrite ?E. Qed.

(** The numeral of an integer is a valid number that [parseInt] reads
    back. *)
Lemma numeral_spec z :
  numeral z ≠ "" ∧ valid_float (numeral z) = true ∧ parseInt (numeral z) = Num z.
Proof.
  unfold numeral. destruct (Z.ltb_spec z 0) as [Hz|Hz].
  - destruct (pretty_nat_numeral (Z.to_nat (- z))) as (Hd & Hs & _).
    rewrite str_app_cons, str_app_nil_l. split_and!; [done| |].
    + unfold valid_float, unsigned. simpl. by rewrite Hs, drop_digits_all.
    + rewrite <- (str_app_nil_r (pretty _)).
      change (String "-" ?s) with ("-" +:+ s).
      rewrite parseInt_minus_pretty by done. f_equal. lia.
  - destruct (pretty_nat_numeral (Z.to_nat z)) as (Hd & Hs & _).
    split_and!.
    + by destruct (pretty (Z.to_nat z)).
    + unfold valid_float. by rewrite starts_digit_unsigned, Hs, drop_digits_all.
    + rewrite <- (str_app_nil_r (pretty _)), parseInt_pretty by done.
      f_equal. lia.
Qed.

(** A valid number that starts with the point is kept by the field and read
    as [NaN]. *)
Lemma sanitize_point text :
  valid_float text = true → starts_digit (unsigned text) = false →
  sanitize text = text ∧ parseInt (or_else text "5") = NaN.
Proof.
  intros Hv Hs. unfold sanitize. rewrite Hv. split; [done|].
  rewrite or_else_ne by (intros ->; done).
  by rewrite parseInt_NaN, read_sign_valid_float.
Qed.

(** A text that is no number is read as 5. *)
Lemma sanitize_invalid text :
  valid_float text = false → parseInt (or_else (sanitize text) "5") = Num 5.
Proof. unfold sanitize. by intros ->. Qed.

(** C35. The count that the handler stores is [NaN] exactly when the text of the
    field is a valid number that starts with the point, after its sign if it
    has one: ".5", "-.5", ".5e3".  A text that is no number gives 5, since
    the field hands the empty string to the handler. *)
Theorem number_field_NaN text :
  (parseInt (or_else (sanitize text) "5") = NaN
   ↔ valid_float text = true ∧ starts_digit (unsigned text) = false)
  ∧ (valid_float text = false →
     parseInt (or_else (sanitize text) "5") = Num 5).
Proof.
  split; [|apply sanitize_invalid]. split.
  - destruct (valid_float text) eqn:Hv;
      [|by rewrite sanitize_invalid]. intros Hp. split; [done|].
    unfold sanitize in Hp. rewrite Hv, or_else_ne in Hp by (intros ->; done).
    by rewrite parseInt_NaN, read_sign_valid_float in Hp.
  - intros [Hv Hs]. by destruct (sanitize_point text Hv Hs) as [-> ?].
Qed.

(** The field keeps no count out of the state: every integer and [NaN] is
    what the handler reads from some value of the field. *)
Theorem number_field_onto n :
  ∃ text, sanitize text = text ∧ parseInt (or_else text "5") = n.
Proof.
  destruct n as [z|].
  - destruct (numeral_spec z) as (Hne & Hv & Hp). exists (numeral z).
    unfold sanitize. by rewrite Hv, or_else_ne.
  - by exists ".5".
Qed.

End number_field.
