(* ===== verification/Form.v ===== *)
(** * Form: the state of the component and its handlers

    The component [PromptGenerator] (src/app/components/PromptGenerator.tsx)
    keeps four pieces of state: the topic, the scene count, the add-on flags
    (lines 188-196) and the flag [copied] (line 218).  Its handlers change
    them: the topic field (line 276), the count field, which parses its text
    with [parseInt] (line 290), the check boxes through [updateOption]
    (lines 261-263, 296-300) and the copy button through [copyAll]
    (lines 220-259, 305).

    [State] holds the four pieces of state and, as the part of the browser
    that [copyAll] talks to, the clipboard writes in flight, the content of
    the clipboard and the number of timers that are set.  [step] is the
    transition function: one case per event, [None] when the event cannot
    happen.  [copyAll] awaits the write before it sets [copied] and arms the
    timer, so the click, the end of the write and the timer are three events,
    and any change of the form may come between them.  The writes in flight
    end in any order: the event names the write by its position among them.

    The theorems: an invariant of the reachable states (the label "Copied!"
    is shown only while a timer is set and the clipboard holds a text that
    was generated from a topic that is not blank); what the handlers do; and
    the states that the design excludes but the form reaches. *)

From stdpp Require Import gmap.
From S2P Require Import Prelude JsString JsNumber Words Lines Normalizer.
From S2P Require Import Classifier Scenes Prompt AddOns Generator Export.
From S2P Require Import ParseInt.
#[local] Open Scope js_scope.

(** ** The state *)

Record State := {
  topic : string;
  sceneCount : number;
  options : OptionalAddOns;
  copied : bool;
  (** the browser *)
  writes : list string;
  clipboard : option string;
  timers : nat;
}.

(** The initial values of the [useState] hooks. *)
Definition initial : State :=
  {| topic := ""; sceneCount := DEFAULT_SCENE_COUNT; options := no_addOns;
     copied := false; writes := []; clipboard := None; timers := 0 |}.

Definition setTopic (value : string) (σ : State) : State :=
  {| topic := value; sceneCount := sceneCount σ; options := options σ;
     copied := copied σ; writes := writes σ; clipboard := clipboard σ;
     timers := timers σ |}.

Definition setSceneCount (value : number) (σ : State) : State :=
  {| topic := topic σ; sceneCount := value; options := options σ;
     copied := copied σ; writes := writes σ; clipboard := clipboard σ;
     timers := timers σ |}.

Definition setOptions (f : OptionalAddOns → OptionalAddOns) (σ : State)
    : State :=
  {| topic := topic σ; sceneCount := sceneCount σ; options := f (options σ);
     copied := copied σ; writes := writes σ; clipboard := clipboard σ;
     timers := timers σ |}.

Definition setCopied (value : bool) (σ : State) : State :=
  {| topic := topic σ; sceneCount := sceneCount σ; options := options σ;
     copied := value; writes := writes σ; clipboard := clipboard σ;
     timers := timers σ |}.

(** [(prev) => ({ ...prev, [key]: !prev[key] })]; the key [k] stands for the
    flag that [flag] reads. *)
Definition updateOption (key : AddOnKey) (prev : OptionalAddOns)
    : OptionalAddOns :=
  {| includeVoiceover :=
       if decide (key = voiceover) then negb (includeVoiceover prev)
       else includeVoiceover prev;
     includeDialogue :=
       if decide (key = dialogue) then negb (includeDialogue prev)
       else includeDialogue prev;
     includeThumbnail :=
       if decide (key = thumbnail) then negb (includeThumbnail prev)
       else includeThumbnail prev;
     includeCaptionsTags :=
       if decide (key = captionsTags) then negb (includeCaptionsTags prev)
       else includeCaptionsTags prev;
     includeMusic :=
       if decide (key = music) then negb (includeMusic prev)
       else includeMusic prev |}.

(** The memoized output of the current state. *)
Definition current_output (σ : State) : option GeneratedOutput :=
  output (topic σ) (sceneCount σ) (options σ).

(** The copy button: [disabled={!output}] and its label. *)
Definition disabled (σ : State) : bool :=
  bool_decide (current_output σ = None).

Definition label (σ : State) : string :=
  if copied σ then "Copied!" else "Copy Full Prompt".

(** ** The events *)

Inductive Event :=
  | ChangeTopic (value : string)
  | ChangeSceneCount (value : string)
  | ToggleOption (key : AddOnKey)
  | ClickCopy
  | WriteResolved (i : nat)
  | WriteRejected (i : nat)
  | TimerFired.

(** The browser side of the state. *)
Definition start_write (text : string) (σ : State) : State :=
  {| topic := topic σ; sceneCount := sceneCount σ; options := options σ;
     copied := copied σ; writes := writes σ ++ [text];
     clipboard := clipboard σ; timers := timers σ |}.

Definition end_write (content : option string) (rest : list string)
    (armed : nat) (σ : State) : State :=
  {| topic := topic σ; sceneCount := sceneCount σ; options := options σ;
     copied := copied σ; writes := rest; clipboard := content;
     timers := armed |}.

Definition step (e : Event) (σ : State) : option State :=
  match e with
  | ChangeTopic value => Some (setTopic value σ)
  | ChangeSceneCount value =>
      Some (setSceneCount (parseInt (or_else value "5")) σ)
  | ToggleOption key => Some (setOptions (updateOption key) σ)
  | ClickCopy =>
      (* up to the [await] *)
      match copyAll (current_output σ) with
      | None => Some σ
      | Some text => Some (start_write text σ)
      end
  | WriteResolved i =>
      (* after the [await]: [setCopied(true)] and [setTimeout] *)
      match writes σ !! i with
      | None => None
      | Some text =>
          Some (setCopied true
                  (end_write (Some text) (delete i (writes σ))
                     (S (timers σ)) σ))
      end
  | WriteRejected i =>
      (* the [await] throws: the rest of [copyAll] does not run *)
      match writes σ !! i with
      | None => None
      | Some _ =>
          Some (end_write (clipboard σ) (delete i (writes σ)) (timers σ) σ)
      end
  | TimerFired =>
      (* [() => setCopied(false)] *)
      match timers σ with
      | 0 => None
      | S n => Some (setCopied false (end_write (clipboard σ) (writes σ) n σ))
      end
  end.

(** A run of events, from the left. *)
Fixpoint run (es : list Event) (σ : State) : option State :=
  match es with
  | [] => Some σ
  | e :: es' => step e σ ≫= run es'
  end.

Inductive reachable : State → Prop :=
  | reachable_initial : reachable initial
  | reachable_step σ e σ' :
      reachable σ → step e σ = Some σ' → reachable σ'.

(** ** The specification *)

(** A text that [copyAll] builds from a result of the generator. *)
Definition generated (text : string) : Prop :=
  ∃ t n o out, output t n o = Some out ∧ text = copyText out.

(** The invariant of the reachable states. *)
Record invariant (σ : State) : Prop := {
  inv_copied_timer : copied σ = true → 0 < timers σ;
  inv_copied_clipboard : copied σ = true → is_Some (clipboard σ);
  inv_writes : Forall generated (writes σ);
  inv_clipboard text : clipboard σ = Some text → generated text;
}.

(** The part of the state that the user sets. *)
Definition form (σ : State) : string * number * OptionalAddOns :=
  (topic σ, sceneCount σ, options σ).

(** What happens when the user stops: the writes in flight complete, then
    every timer fires. *)
Definition settle (σ : State) : list Event :=
  replicate (length (writes σ)) (WriteResolved 0)
  ++ replicate (timers σ + length (writes σ)) TimerFired.

Example run_copy_ex :
  (λ σ, (label σ, disabled σ, timers σ, length (writes σ)))
    <$> run [ChangeTopic "neon city"; ClickCopy; WriteResolved 0] initial
  = Some ("Copied!", false, 1, 0).
Proof. by vm_compute. Qed.

(** Two copies whose writes end in the other order: the clipboard holds
    the text of the copy that was started first. *)
Example run_any_order_ex :
  let copies :=
    [ChangeTopic "neon city"; ClickCopy; ChangeTopic "old house"; ClickCopy] in
  (λ σ, (label σ, timers σ, length (writes σ)))
    <$> run (copies ++ [WriteResolved 1; WriteResolved 0]) initial
  = Some ("Copied!", 2, 0)
  ∧ clipboard <$> run (copies ++ [WriteResolved 1; WriteResolved 0]) initial
    = clipboard <$> run [ChangeTopic "neon city"; ClickCopy; WriteResolved 0]
                      initial.
Proof. by vm_compute. Qed.

Example run_blank_ex :
  run [ChangeTopic "  "; ClickCopy] initial = Some (setTopic "  " initial)
  ∧ run [WriteResolved 0] initial = None ∧ run [TimerFired] initial = None.
Proof. by vm_compute. Qed.

(** ** The options *)

Section options.
Implicit Types (k key : AddOnKey) (o prev : OptionalAddOns).

Lemma OptionalAddOns_eq o o' : (∀ k, flag o k = flag o' k) → o = o'.
Proof.
  intros H. destruct o, o'.
  pose proof (H voiceover). pose proof (H dialogue). pose proof (H thumbnail).
  pose proof (H captionsTags). pose proof (H music). by simplify_eq/=.
Qed.

(** A toggle negates the flag of its key and leaves the other flags. *)
Lemma updateOption_flag key prev k :
  flag (updateOption key prev) k
  = if decide (key = k) then negb (flag prev k) else flag prev k.
Proof. by destruct key, k. Qed.

(** Two toggles of a key restore the flags, and toggles commute. *)
Theorem updateOption_involutive key key' prev :
  updateOption key (updateOption key prev) = prev
  ∧ updateOption key (updateOption key' prev)
    = updateOption key' (updateOption key prev).
Proof.
  split; apply OptionalAddOns_eq; intros k; rewrite !updateOption_flag;
    repeat case_decide; by rewrite ?negb_involutive.
Qed.

End options.

(** ** The handlers *)

Section handlers.
Implicit Types (σ : State) (e : Event) (es : list Event) (k key : AddOnKey).

Lemma run_app es es' σ : run (es ++ es') σ = run es σ ≫= run es'.
Proof.
  revert σ. induction es as [|e es IH]; intros σ; [done|]. simpl.
  destruct (step e σ) as [σ'|]; [apply IH|done].
Qed.

(** The reachable states are the ends of the runs from the initial state. *)
Lemma reachable_run σ : reachable σ ↔ ∃ es, run es initial = Some σ.
Proof.
  split.
  - induction 1 as [|σ e σ' _ [es Hes] Hstep]; [by exists []|].
    exists (es ++ [e]). rewrite run_app, Hes. simpl. by rewrite Hstep.
  - intros [es Hes]. revert σ Hes.
    induction es as [|e es IH] using rev_ind; intros σ.
    + intros [= <-]. constructor.
    + rewrite run_app. destruct (run es initial) as [σ0|] eqn:E; [|done].
      simpl. destruct (step e σ0) as [σ1|] eqn:Hstep; [|done].
      intros [= <-]. eapply reachable_step; [by apply IH|done].
Qed.

(** What a step does to the timers and to [copied]: the end of a write
    sets a timer and [copied], a timer that fires is gone and resets
    [copied], and no other event touches either. *)
Lemma step_timers e σ σ' :
  step e σ = Some σ' →
  timers σ' = match e with
              | WriteResolved _ => S (timers σ)
              | TimerFired => pred (timers σ)
              | _ => timers σ
              end.
Proof. destruct e; simpl; intros; repeat case_match; by simplify_eq/=. Qed.

Lemma step_copied e σ σ' :
  step e σ = Some σ' →
  copied σ' = match e with
              | WriteResolved _ => true
              | TimerFired => false
              | _ => copied σ
              end.
Proof. destruct e; simpl; intros; repeat case_match; by simplify_eq/=. Qed.

Lemma disabled_blank σ : disabled σ = true ↔ blank (topic σ) = true.
Proof.
  unfold disabled, current_output. rewrite bool_decide_eq_true, <- trim_nil.
  unfold output. by destruct (trim (topic σ)).
Qed.

(** A click on the copy button starts a write of the text of the current
    output, and does nothing at all when the topic is blank. *)
Theorem ClickCopy_spec σ :
  step ClickCopy σ
  = Some (match current_output σ with
          | None => σ
          | Some out => start_write (copyText out) σ
          end)
  ∧ (blank (topic σ) = true → step ClickCopy σ = Some σ).
Proof.
  split; [simpl; by destruct (current_output σ)|].
  intros Hb%disabled_blank. unfold disabled in Hb.
  apply bool_decide_eq_true in Hb. simpl. by rewrite Hb.
Qed.

(** A toggle changes the flag of its key only: the add-on object of the new
    output gains or loses the key, and the rest of the output is the same. *)
Theorem ToggleOption_addOns key σ σ' out out' :
  step (ToggleOption key) σ = Some σ' →
  current_output σ = Some out → current_output σ' = Some out' →
  (∀ k, k ∈ dom (addOns out')
        ↔ if decide (key = k) then k ∉ dom (addOns out)
          else k ∈ dom (addOns out))
  ∧ title out' = title out ∧ scenes out' = scenes out
  ∧ fullPrompt out' = fullPrompt out.
Proof.
  intros [= <-] Hout Hout'. unfold current_output in *.
  cbn [sceneCount setOptions topic options] in *.
  output_fields Hout. output_fields Hout'. split; [|done]. intros k.
  case_decide; rewrite !elem_of_dom_buildAddOns, updateOption_flag;
    case_decide; try done; destruct (flag (options σ) k); naive_solver.
Qed.

End handlers.

(** ** The invariant *)

Section invariant.
Implicit Types (σ : State) (e : Event) (es : list Event) (text : string).

Lemma invariant_initial : invariant initial.
Proof. by split. Qed.

Lemma copyAll_generated σ text :
  copyAll (current_output σ) = Some text → generated text.
Proof.
  unfold current_output, copyAll.
  destruct (output _ _ _) as [out|] eqn:Hout; intros [= <-].
  by exists (topic σ), (sceneCount σ), (options σ), out.
Qed.

Lemma step_invariant e σ σ' : invariant σ → step e σ = Some σ' → invariant σ'.
Proof.
  intros [Ht Hc Hw Hcl] Hstep. destruct e; simpl in Hstep.
  - by injection Hstep as <-.
  - by injection Hstep as <-.
  - by injection Hstep as <-.
  - destruct (copyAll _) as [text|] eqn:Hcopy; injection Hstep as <-; [|done].
    split; [done..| |done]. simpl. apply Forall_app. split; [done|].
    apply Forall_singleton. by eapply copyAll_generated.
  - destruct (writes σ !! i) as [text|] eqn:E; [|done]. injection Hstep as <-.
    pose proof (Forall_lookup_1 _ _ _ _ Hw E) as Hg.
    split; simpl; [lia|by eauto|by apply Forall_delete|by intros ? [= <-]].
  - destruct (writes σ !! i) as [text|] eqn:E; [|done]. injection Hstep as <-.
    split; [done..|by apply Forall_delete|done].
  - destruct (timers σ) as [|n] eqn:E; [done|]. injection Hstep as <-.
    by split.
Qed.

(** C16. Every reachable state satisfies the invariant: the label "Copied!" is
    shown only while a timer is set and the clipboard holds a text, and
    every text in the clipboard or on its way to it was built by [copyAll]
    from a result of the generator, so from a topic that is not blank. *)
Theorem reachable_invariant σ : reachable σ → invariant σ.
Proof.
  induction 1 as [|σ e σ' _ IH Hstep]; [apply invariant_initial|].
  by eapply step_invariant.
Qed.

End invariant.

(** ** The label goes back *)

Section settle.
Implicit Types (σ : State) (n : nat).

Lemma run_writes σ :
  ∃ σ', run (replicate (length (writes σ)) (WriteResolved 0)) σ = Some σ'
      ∧ writes σ' = [] ∧ timers σ' = timers σ + length (writes σ)
      ∧ form σ' = form σ
      ∧ (copied σ' = true → copied σ = true ∨ 0 < length (writes σ)).
Proof.
  remember (writes σ) as ws eqn:E. revert σ E.
  induction ws as [|text rest IH]; intros σ E.
  - exists σ. split_and!; try done; try lia. by left.
  - simpl. rewrite <- E. simpl.
    destruct (IH (setCopied true (end_write (Some text) rest (S (timers σ)) σ))
                eq_refl) as (σ' & Hrun & Hw & Ht & Hf & _).
    exists σ'. split_and!; try done; simpl in *; try lia.
Qed.

Lemma run_timers σ :
  ∃ σ', run (replicate (timers σ) TimerFired) σ = Some σ'
      ∧ timers σ' = 0 ∧ writes σ' = writes σ ∧ form σ' = form σ
      ∧ (copied σ' = true → timers σ = 0 ∧ copied σ = true).
Proof.
  remember (timers σ) as n eqn:E. revert σ E.
  induction n as [|n IH]; intros σ E.
  - by exists σ.
  - simpl. rewrite <- E. simpl.
    destruct (IH (setCopied false (end_write (clipboard σ) (writes σ) n σ))
                eq_refl) as (σ' & Hrun & Ht & Hw & Hf & Hc).
    exists σ'. split_and!; try done. by intros [_ ?]%Hc.
Qed.

(** From any state that satisfies the invariant, so from any reachable
    state, once the writes in flight have completed and the timers have
    fired, the label is "Copy Full Prompt" again and the form is as the user
    left it. *)
Theorem label_resets σ :
  invariant σ →
  ∃ σ', run (settle σ) σ = Some σ'
      ∧ label σ' = "Copy Full Prompt" ∧ timers σ' = 0 ∧ writes σ' = []
      ∧ form σ' = form σ.
Proof.
  intros [Hinv _ _ _]. unfold settle. rewrite run_app.
  destruct (run_writes σ) as (σ1 & -> & Hw1 & Ht1 & Hf1 & Hc1). simpl.
  destruct (run_timers σ1) as (σ2 & Hrun & Ht2 & Hw2 & Hf2 & Hc2).
  rewrite Ht1 in Hrun. exists σ2. rewrite Hrun.
  split_and!; [done| |done|congruence|congruence].
  unfold label. destruct (copied σ2); [|done].
  destruct Hc2 as [Ht Hc]; [done|]. destruct (Hc1 Hc) as [?%Hinv|?]; lia.
Qed.

End settle.

(** ** States that the design excludes *)

Section excluded.

(** The count field accepts a text that is not an integer: after the user
    types ".5" the scene count is [NaN], the copy button is enabled and the
    output has no scene. *)
Example reachable_no_scenes :
  ∃ σ out, reachable σ ∧ sceneCount σ = NaN ∧ disabled σ = false
         ∧ current_output σ = Some out ∧ scenes out = [].
Proof.
  exists (setSceneCount NaN (setTopic "neon city" initial)). eexists. split.
  - apply reachable_run.
    by exists [ChangeTopic "neon city"; ChangeSceneCount ".5"].
  - by vm_compute.
Qed.

(** The timer of an earlier copy resets the label of a later one: after two
    copies and one timer the label is "Copy Full Prompt" although the timer
    of the second copy has not fired. *)
Example label_reset_early :
  ∃ σ, run [ ChangeTopic "neon city"; ClickCopy; WriteResolved 0;
             ClickCopy; WriteResolved 0; TimerFired ] initial = Some σ
     ∧ label σ = "Copy Full Prompt" ∧ timers σ = 1.
Proof. eexists. split; [by vm_compute|]. done. Qed.

End excluded.

(** ** The theorems at concrete inputs *)

Lemma reachable_invariant_witness :
  ∃ σ, run [ChangeTopic "neon city"; ClickCopy; WriteResolved 0] initial = Some σ
     ∧ reachable σ ∧ invariant σ.
Proof.
  eexists. split; [reflexivity|].
  assert (Hr : reachable
            (setCopied true
               (end_write (Some (copyText _)) [] 1
                  (setTopic "neon city" initial))))
    by (apply reachable_run;
        by exists [ChangeTopic "neon city"; ClickCopy; WriteResolved 0]).
  split; [exact Hr|exact (reachable_invariant _ Hr)].
Defined.

Lemma label_resets_witness :
  invariant (setTopic "neon city" initial)
  ∧ ∃ σ', run (settle (setTopic "neon city" initial))
              (setTopic "neon city" initial) = Some σ'
        ∧ label σ' = "Copy Full Prompt" ∧ timers σ' = 0 ∧ writes σ' = []
        ∧ form σ' = form (setTopic "neon city" initial).
Proof.
  assert (Hi : invariant (setTopic "neon city" initial)) by (by split).
  split; [exact Hi|]. exact (label_resets _ Hi).
Defined.

Lemma ToggleOption_addOns_witness :
  ∃ σ' out out', step (ToggleOption music) (setTopic "neon city" initial) = Some σ'
  ∧ current_output (setTopic "neon city" initial) = Some out
  ∧ current_output σ' = Some out'
  ∧ fullPrompt out' = fullPrompt out.
Proof.
  eexists _, _, _. split_and!; [reflexivity..|].
  exact (proj2 (proj2 (proj2
    (ToggleOption_addOns music (setTopic "neon city" initial) _ _ _
       eq_refl eq_refl eq_refl)))).
Defined.
