(* ===== verification/Browser.v ===== *)
(** * Browser: the work that a copy leaves behind

    [copyAll] (src/app/components/PromptGenerator.tsx, lines 220-259) hands
    two pieces of work to the browser: the clipboard write that it awaits
    (line 256) and the timer that resets the label (line 258).  The events
    [WriteResolved i], [WriteRejected i] and [TimerFired] of [Form] are the
    browser doing that work; the other events are the user's.

    [browser_step] is a step of the browser alone.  [pending] counts the
    work that is left: a write in flight counts twice, since it may arm a
    timer when it resolves.  The theorems: every step of the browser
    decreases [pending], so the work of the browser terminates, in at most
    [pending] steps; the browser stops exactly in the states without a write
    in flight and without a timer; and wherever it stops, the label is
    "Copy Full Prompt" again and the form is as the user left it. *)

From stdpp Require Import gmap relations.
From S2P Require Import Prelude JsString JsNumber AddOns Generator Export.
From S2P Require Import Form.
#[local] Open Scope js_scope.

(** The events that the user causes; the others are the browser's. *)
Definition user (e : Event) : bool :=
  match e with
  | ChangeTopic _ | ChangeSceneCount _ | ToggleOption _ | ClickCopy => true
  | WriteResolved _ | WriteRejected _ | TimerFired => false
  end.

(** One step of the browser. *)
Definition browser_step (σ σ' : State) : Prop :=
  ∃ e, user e = false ∧ step e σ = Some σ'.

(** The work that is left to the browser. *)
Definition pending (σ : State) : nat := 2 * length (writes σ) + timers σ.

(** Nothing is left. *)
Definition quiescent (σ : State) : Prop := writes σ = [] ∧ timers σ = 0.

#[export] Instance quiescent_dec σ : Decision (quiescent σ).
Proof. unfold quiescent. apply _. Defined.

Example pending_ex :
  pending <$> run [ChangeTopic "neon city"; ClickCopy; ClickCopy] initial
  = Some 4
  ∧ pending <$> run [ChangeTopic "neon city"; ClickCopy; ClickCopy;
                     WriteResolved 1; WriteRejected 0; TimerFired] initial
    = Some 0.
Proof. by vm_compute. Qed.

(** ** The steps of the browser *)

Section browser.
Implicit Types (σ : State) (e : Event) (n : nat).

(** What a step of the browser is: the end of one of the writes in flight,
    with or without success, or a timer. *)
Lemma browser_step_inv σ σ' :
  browser_step σ σ' ↔
    (∃ i text, writes σ !! i = Some text
       ∧ (σ' = setCopied true
                 (end_write (Some text) (delete i (writes σ))
                    (S (timers σ)) σ)
          ∨ σ' = end_write (clipboard σ) (delete i (writes σ)) (timers σ) σ))
    ∨ (∃ n, timers σ = S n
         ∧ σ' = setCopied false (end_write (clipboard σ) (writes σ) n σ)).
Proof.
  split.
  - intros ([] & Hu & Hstep); try done; simpl in Hstep.
    + destruct (writes σ !! i) as [text|] eqn:E; [|done].
      injection Hstep as <-. left. eauto.
    + destruct (writes σ !! i) as [text|] eqn:E; [|done].
      injection Hstep as <-. left. eauto.
    + destruct (timers σ) as [|n]; [done|]. injection Hstep as <-. eauto.
  - intros [(i & text & Hw & [->| ->])|(n & Ht & ->)].
    + exists (WriteResolved i). simpl. by rewrite Hw.
    + exists (WriteRejected i). simpl. by rewrite Hw.
    + exists TimerFired. simpl. by rewrite Ht.
Qed.

(** A write that ends is no longer in flight. *)
Lemma length_delete_write σ i text :
  writes σ !! i = Some text →
  S (length (delete i (writes σ))) = length (writes σ).
Proof.
  intros Hw. rewrite length_delete by done.
  apply lookup_lt_Some in Hw. lia.
Qed.

(** Every step of the browser decreases the work that is left. *)
Lemma browser_step_pending σ σ' : browser_step σ σ' → pending σ' < pending σ.
Proof.
  unfold pending.
  intros [(i & text & Hw%length_delete_write & [->| ->])|(n & Ht & ->)]
    %browser_step_inv; simpl; rewrite ?Ht; lia.
Qed.

(** The browser does not touch the form. *)
Lemma browser_step_form σ σ' : browser_step σ σ' → form σ' = form σ.
Proof.
  by intros [(i & text & Hw & [->| ->])|(n & Ht & ->)]%browser_step_inv.
Qed.

Lemma browser_step_invariant σ σ' :
  invariant σ → browser_step σ σ' → invariant σ'.
Proof. intros Hi (e & _ & Hstep). by eapply step_invariant. Qed.

(** The browser stops exactly when nothing is left. *)
Lemma nf_quiescent σ : nf browser_step σ ↔ quiescent σ.
Proof.
  unfold nf, red, quiescent. setoid_rewrite browser_step_inv. split.
  - intros Hnf. destruct (writes σ) as [|text rest] eqn:Hw.
    + split; [done|]. destruct (timers σ) as [|n] eqn:Ht; [done|].
      destruct Hnf. eauto.
    + destruct Hnf. eexists. left. by exists 0, text; eauto.
  - intros [Hw Ht] [σ' [(i & ? & Hi & _)|(? & ? & _)]]; [|congruence].
    by rewrite Hw in Hi.
Qed.

Lemma rtc_browser_step σ σ' :
  rtc browser_step σ σ' →
  form σ' = form σ ∧ pending σ' ≤ pending σ ∧ (invariant σ → invariant σ').
Proof.
  induction 1 as [σ|σ σ1 σ' Hstep _ (IHf & IHp & IHi)]; [done|].
  pose proof (browser_step_pending _ _ Hstep).
  rewrite IHf, (browser_step_form _ _ Hstep).
  split_and!; [done|lia|]. intros Hi. eauto using browser_step_invariant.
Qed.

Lemma browser_sn σ : sn browser_step σ.
Proof.
  remember (pending σ) as n eqn:Hn. revert σ Hn.
  induction n as [n IH] using lt_wf_ind. intros σ ->.
  constructor. intros σ' Hstep%browser_step_pending. by eapply IH.
Qed.

Lemma nsteps_pending n σ σ' :
  nsteps browser_step n σ σ' → n + pending σ' ≤ pending σ.
Proof.
  induction 1 as [σ|n σ σ1 σ' Hstep%browser_step_pending _ IH]; simpl; lia.
Qed.

(** The browser always has a way to stop. *)
Lemma browser_wn σ : wn browser_step σ.
Proof.
  induction (browser_sn σ) as [σ _ IH].
  destruct (decide (quiescent σ)) as [Hq|Hq].
  - exists σ. split; [done|by apply nf_quiescent].
  - assert (∃ σ1, browser_step σ σ1) as [σ1 Hstep].
    { setoid_rewrite browser_step_inv. unfold quiescent in Hq.
      destruct (writes σ) as [|text rest] eqn:Hw;
        [|eexists; left; by exists 0, text; eauto].
      destruct (timers σ) as [|n] eqn:Ht; [by destruct Hq|by eauto 10]. }
    destruct (IH σ1 Hstep) as (σ' & Hrtc & Hnf). exists σ'.
    split; [by eapply rtc_l|done].
Qed.

(** C17. The work of the browser terminates: from any state there is no infinite
    sequence of ends of writes and of timers, however many copies were
    started; every sequence has at most [pending] steps; and there is a
    sequence that ends in a state where the browser has nothing to do. *)
Theorem browser_terminates σ :
  sn browser_step σ
  ∧ (∀ n σ', nsteps browser_step n σ σ' → n ≤ pending σ)
  ∧ ∃ σ', rtc browser_step σ σ' ∧ quiescent σ'.
Proof.
  split_and!; [apply browser_sn| |].
  - intros n σ' H%nsteps_pending. lia.
  - destruct (browser_wn σ) as (σ' & Hrtc & Hnf%nf_quiescent). eauto.
Qed.

(** C18. Wherever the browser stops, from a state that satisfies the invariant
    of the reachable states, the label is "Copy Full Prompt" again, nothing
    is left to do, and the form is as the user left it: the order in which
    the writes end and the timers fire does not matter. *)
Theorem browser_settles σ σ' :
  invariant σ → rtc browser_step σ σ' → nf browser_step σ' →
  label σ' = "Copy Full Prompt" ∧ quiescent σ' ∧ form σ' = form σ.
Proof.
  intros Hi (Hf & _ & Hi')%rtc_browser_step [Hw Ht]%nf_quiescent.
  split_and!; [|done..]. unfold label.
  destruct (copied σ') eqn:Hc; [|done].
  apply Hi' in Hi as [Hinv _ _ _]. apply Hinv in Hc. lia.
Qed.

End browser.

(** ** The theorems at concrete inputs *)

Lemma browser_settles_witness :
  let σ := end_write None [] 1 initial in
  invariant σ ∧ rtc browser_step σ initial ∧ nf browser_step initial
  ∧ label initial = "Copy Full Prompt" ∧ quiescent initial
  ∧ form initial = form σ.
Proof.
  intros σ.
  assert (Hi : invariant σ) by (by split).
  assert (Hr : rtc browser_step σ initial).
  { apply rtc_once. by exists TimerFired. }
  assert (Hn : nf browser_step initial) by (by apply nf_quiescent).
  split_and!; [exact Hi|exact Hr|exact Hn|..];
    apply (browser_settles σ initial Hi Hr Hn).
Defined.
