(* ===== verification/Timed.v ===== *)
(** * Timed: the copy action with a clock

    [copyAll] ends with [setTimeout(() => setCopied(false), 1500)]
    (src/app/components/PromptGenerator.tsx, line 258).  [Form] counts the
    timers that are set and lets any of them fire at any moment.  Here the
    browser has a clock: [now] in milliseconds, and for every timer that is
    set its deadline, the time at which it was set plus [delay].  A timer
    fires when its deadline has passed, never before, and the timers fire
    in the order of their deadlines; the browser may be late, so time may
    pass a deadline.

    [timed_step] is the step of [Form] with the clock beside it.  An action
    is an event at the current time ([At]) or the passing of time ([Wait]).

    The theorems: the invariant of the timed states (one deadline per timer
    of [Form], in ascending order, none later than [delay] from now); the
    machine of [Form] is the timed machine without its clock, with the same
    runs and the same reachable states ([timed_reachable_state]), so
    nothing that [Form] proves is about a run that time forbids; and the
    bound that the clock gives:
    the label "Copied!" of a copy stays for [delay] milliseconds when no
    earlier timer is set ([copied_stays]), while with an earlier timer set
    the label can go as soon as that timer is due ([copied_cut_short]),
    even in the instant in which it appears ([copied_flash]). *)

From stdpp Require Import gmap sorting.
From S2P Require Import Prelude JsString JsNumber AddOns Generator Export Form.
#[local] Open Scope js_scope.

(** ** The timed state *)

(** The second argument of [setTimeout]. *)
Definition delay : nat := 1500.

Record Timed := {
  state : State;
  now : nat;
  deadlines : list nat;
}.

Definition start : Timed := {| state := initial; now := 0; deadlines := [] |}.

Inductive Action :=
  | At (e : Event)
  | Wait (ms : nat).

(** The first timer is due. *)
Definition due (τ : Timed) : bool :=
  match deadlines τ with
  | [] => false
  | d :: _ => bool_decide (d ≤ now τ)
  end.

(** The deadlines after an event: the end of a write sets a timer, a timer
    that fires is the first one. *)
Definition reschedule (e : Event) (τ : Timed) : list nat :=
  match e with
  | WriteResolved _ => deadlines τ ++ [now τ + delay]
  | TimerFired => tail (deadlines τ)
  | _ => deadlines τ
  end.

(** An event has its time: a timer fires when it is due, every other event
    may come at any time. *)
Definition enabled (e : Event) (τ : Timed) : bool :=
  match e with
  | TimerFired => due τ
  | _ => true
  end.

Definition timed_step (a : Action) (τ : Timed) : option Timed :=
  match a with
  | Wait ms =>
      Some {| state := state τ; now := now τ + ms; deadlines := deadlines τ |}
  | At e =>
      if enabled e τ
      then (λ σ', {| state := σ'; now := now τ;
                     deadlines := reschedule e τ |}) <$> step e (state τ)
      else None
  end.

Fixpoint timed_run (acts : list Action) (τ : Timed) : option Timed :=
  match acts with
  | [] => Some τ
  | a :: acts' => timed_step a τ ≫= timed_run acts'
  end.

Inductive timed_reachable : Timed → Prop :=
  | timed_reachable_start : timed_reachable start
  | timed_reachable_step τ a τ' :
      timed_reachable τ → timed_step a τ = Some τ' → timed_reachable τ'.

(** ** The specification *)

(** The events of an action: the passing of time is no event of [Form]. *)
Definition erase (a : Action) : list Event :=
  match a with
  | At e => [e]
  | Wait _ => []
  end.

(** The invariant of the timed states. *)
Record timed_invariant (τ : Timed) : Prop := {
  tinv_timers : timers (state τ) = length (deadlines τ);
  tinv_sorted : StronglySorted le (deadlines τ);
  tinv_bound : Forall (λ d, d ≤ now τ + delay) (deadlines τ);
}.

(** The label "Copied!" is safe until [t]: it is shown, no timer is due
    before [t], and a timer that is set from now on is not due before [t]
    either. *)
Record safe_until (t : nat) (τ : Timed) : Prop := {
  safe_copied : copied (state τ) = true;
  safe_deadlines : Forall (λ d, t ≤ d) (deadlines τ);
  safe_now : t ≤ now τ + delay;
}.

Example timed_run_ex :
  (λ τ, (label (state τ), now τ, deadlines τ))
    <$> timed_run [At (ChangeTopic "neon city"); Wait 200; At ClickCopy;
                   Wait 5; At (WriteResolved 0); Wait 1499] start
  = Some ("Copied!", 1704, [1705])
  ∧ timed_run [At (ChangeTopic "neon city"); Wait 200; At ClickCopy;
               Wait 5; At (WriteResolved 0); Wait 1499; At TimerFired] start
    = None
  ∧ (λ τ, (label (state τ), now τ, deadlines τ))
      <$> timed_run [At (ChangeTopic "neon city"); Wait 200; At ClickCopy;
                     Wait 5; At (WriteResolved 0); Wait 1502; At TimerFired] start
    = Some ("Copy Full Prompt", 1707, []).
Proof. by vm_compute. Qed.

(** ** The steps *)

Section steps.
Implicit Types (τ : Timed) (σ : State) (e : Event) (es : list Event).
Implicit Types (a : Action) (acts : list Action) (t d ms : nat).

Lemma timed_step_At e τ τ' :
  timed_step (At e) τ = Some τ'
  ↔ enabled e τ = true ∧ step e (state τ) = Some (state τ')
    ∧ now τ' = now τ ∧ deadlines τ' = reschedule e τ.
Proof.
  simpl. destruct (enabled e τ); [|naive_solver].
  destruct (step e (state τ)) as [σ'|]; simpl; [|naive_solver]. split.
  - by intros [= <-].
  - intros (_ & [= ->] & Hn & Hd). destruct τ'; simpl in *. by subst.
Qed.

Lemma timed_step_Wait ms τ τ' :
  timed_step (Wait ms) τ = Some τ'
  ↔ state τ' = state τ ∧ now τ' = now τ + ms ∧ deadlines τ' = deadlines τ.
Proof.
  simpl. split; [by intros [= <-]|].
  intros (Hs & Hn & Hd). destruct τ'; simpl in *. by subst.
Qed.

(** Time does not go back. *)
Lemma timed_step_now a τ τ' : timed_step a τ = Some τ' → now τ ≤ now τ'.
Proof.
  destruct a as [e|ms].
  - intros (_ & _ & -> & _)%timed_step_At. done.
  - intros (_ & -> & _)%timed_step_Wait. lia.
Qed.

Lemma timed_run_cons a acts τ τ' :
  timed_run (a :: acts) τ = Some τ'
  ↔ ∃ τ1, timed_step a τ = Some τ1 ∧ timed_run acts τ1 = Some τ'.
Proof. simpl. destruct (timed_step a τ); naive_solver. Qed.

Lemma timed_run_now acts τ τ' : timed_run acts τ = Some τ' → now τ ≤ now τ'.
Proof.
  revert τ. induction acts as [|a acts IH]; intros τ; [by intros [= <-]|].
  intros (τ1 & Hstep%timed_step_now & Hrun%IH)%timed_run_cons. lia.
Qed.

Lemma timed_reachable_run acts τ τ' :
  timed_reachable τ → timed_run acts τ = Some τ' → timed_reachable τ'.
Proof.
  revert τ. induction acts as [|a acts IH]; intros τ Hτ; [by intros [= <-]|].
  intros (τ1 & Hstep & Hrun)%timed_run_cons.
  eapply IH; [|done]. by eapply timed_reachable_step.
Qed.

End steps.

(** ** The invariant *)

Section invariant.
Implicit Types (τ : Timed) (σ : State) (e : Event) (es : list Event).
Implicit Types (a : Action) (acts : list Action) (t d ms : nat).

Lemma timed_invariant_start : timed_invariant start.
Proof. by split; constructor. Qed.

(** Setting a timer keeps the order of the deadlines: the new deadline is
    the latest. *)
Lemma reschedule_WriteResolved i τ :
  timed_invariant τ →
  StronglySorted le (reschedule (WriteResolved i) τ)
  ∧ Forall (λ d, d ≤ now τ + delay) (reschedule (WriteResolved i) τ).
Proof.
  intros [_ Hs Hb]. simpl. split.
  - apply StronglySorted_app_2; [|done|by repeat constructor].
    intros d d' Hd ->%list_elem_of_singleton.
    by eapply Forall_forall in Hb.
  - apply Forall_app. split; [done|]. by repeat constructor.
Qed.

(** A timer that fires is the first one, and the rest stays in order. *)
Lemma reschedule_TimerFired τ :
  timed_invariant τ →
  StronglySorted le (reschedule TimerFired τ)
  ∧ Forall (λ d, d ≤ now τ + delay) (reschedule TimerFired τ)
  ∧ length (reschedule TimerFired τ) = pred (timers (state τ)).
Proof.
  intros [Ht Hs Hb]. simpl. rewrite Ht.
  destruct (deadlines τ) as [|d ds]; [done|]. simpl.
  apply StronglySorted_inv in Hs as [Hs _].
  by apply Forall_cons in Hb as [_ Hb].
Qed.

Lemma timed_step_invariant a τ τ' :
  timed_invariant τ → timed_step a τ = Some τ' → timed_invariant τ'.
Proof.
  intros Hinv. pose proof Hinv as [Ht Hs Hb]. destruct a as [e|ms].
  - intros (_ & Hstep%step_timers & Hn & Hd)%timed_step_At.
    pose proof (λ i, reschedule_WriteResolved i τ Hinv) as Hwr.
    destruct (reschedule_TimerFired τ Hinv) as (Hs2 & Hb2 & Hl2).
    split; rewrite ?Hn, Hd; [|destruct e; try done; apply Hwr..].
    rewrite Hstep. destruct e; try done.
    simpl. rewrite length_app. simpl. lia.
  - intros (Hst & Hn & Hd)%timed_step_Wait.
    split; rewrite ?Hst, ?Hn, Hd; [done..|].
    eapply Forall_impl; [done|]. simpl. lia.
Qed.

Lemma timed_run_invariant acts τ τ' :
  timed_invariant τ → timed_run acts τ = Some τ' → timed_invariant τ'.
Proof.
  revert τ. induction acts as [|a acts IH]; intros τ Hτ; [by intros [= <-]|].
  intros (τ1 & Hstep & Hrun)%timed_run_cons.
  eapply IH; [|done]. by eapply timed_step_invariant.
Qed.

(** The timed states have one deadline for every timer of [Form], in
    ascending order, and none is later than [delay] from now. *)
Theorem timed_reachable_invariant τ : timed_reachable τ → timed_invariant τ.
Proof.
  induction 1; eauto using timed_invariant_start, timed_step_invariant.
Qed.

End invariant.

(** ** The machine of [Form] is the timed machine without its clock *)

Section abstraction.
Implicit Types (τ : Timed) (σ : State) (e : Event) (es : list Event).
Implicit Types (a : Action) (acts : list Action) (t d ms : nat).

Lemma timed_step_erase a τ τ' :
  timed_step a τ = Some τ' → run (erase a) (state τ) = Some (state τ').
Proof.
  destruct a as [e|ms].
  - intros (_ & Hstep & _)%timed_step_At. simpl. by rewrite Hstep.
  - intros (-> & _)%timed_step_Wait. done.
Qed.

(** Every timed run is a run of [Form]. *)
Lemma timed_run_erase acts τ τ' :
  timed_run acts τ = Some τ' →
  run (acts ≫= erase) (state τ) = Some (state τ').
Proof.
  revert τ. induction acts as [|a acts IH]; intros τ; [by intros [= <-]|].
  intros (τ1 & Hstep%timed_step_erase & Hrun%IH)%timed_run_cons.
  rewrite bind_cons, run_app, Hstep. done.
Qed.

(** After [delay] every timer that is set is due. *)
Lemma enabled_Wait_delay e τ σ' :
  timed_invariant τ → step e (state τ) = Some σ' →
  enabled e {| state := state τ; now := now τ + delay;
               deadlines := deadlines τ |} = true.
Proof.
  intros [Ht _ Hb] Hstep. destruct e; try done.
  unfold enabled, due. simpl in *. rewrite Ht in Hstep.
  destruct (deadlines τ) as [|d ds]; [done|].
  apply Forall_cons in Hb as [Hd _]. by apply bool_decide_eq_true.
Qed.

(** Every step of [Form] is a step of the timed machine, after a wait. *)
Lemma timed_step_complete e τ σ' :
  timed_invariant τ → step e (state τ) = Some σ' →
  ∃ τ', timed_run [Wait delay; At e] τ = Some τ' ∧ state τ' = σ'.
Proof.
  intros Hinv Hstep. cbn [timed_run timed_step mbind option_bind].
  rewrite (enabled_Wait_delay e τ σ') by done. simpl. rewrite Hstep. simpl.
  by eexists.
Qed.

(** Every run of [Form] is a timed run without its waits. *)
Lemma timed_run_complete es τ σ' :
  timed_invariant τ → run es (state τ) = Some σ' →
  ∃ acts τ', acts ≫= erase = es ∧ timed_run acts τ = Some τ' ∧ state τ' = σ'.
Proof.
  revert τ. induction es as [|e es IH]; intros τ Hinv.
  - intros [= <-]. by exists [], τ.
  - simpl. destruct (step e (state τ)) as [σ1|] eqn:Hstep; [|done]. simpl.
    destruct (timed_step_complete e τ σ1) as (τ1 & Hrun1 & <-); [done..|].
    intros (acts & τ' & <- & Hrun & <-)%IH;
      [|by eapply timed_run_invariant].
    exists (Wait delay :: At e :: acts), τ'. split_and!; [done| |done].
    change (timed_run ([Wait delay; At e] ++ acts) τ = Some τ').
    apply timed_run_cons in Hrun1 as (τ0 & Hw & Hrun1).
    apply timed_run_cons. exists τ0. split; [done|].
    apply timed_run_cons in Hrun1 as (τ2 & He & [= <-]).
    apply timed_run_cons. by exists τ2.
Qed.

(** The reachable states of [Form] are the timed states without their
    clock. *)
Theorem timed_reachable_state σ :
  reachable σ ↔ ∃ τ, timed_reachable τ ∧ state τ = σ.
Proof.
  rewrite reachable_run. split.
  - intros [es Hrun].
    destruct (timed_run_complete es start σ) as (acts & τ & _ & Hτ & <-);
      [apply timed_invariant_start|done|].
    exists τ. split; [|done]. eapply timed_reachable_run; [constructor|done].
  - intros (τ & Hτ & <-). apply reachable_run.
    induction Hτ as [|τ a τ' _ IH Hstep%timed_step_erase]; [constructor|].
    destruct a as [e|ms]; simpl in Hstep.
    + destruct (step e (state τ)) as [σ1|] eqn:He; [|done].
      injection Hstep as <-. by eapply reachable_step.
    + by injection Hstep as <-.
Qed.

End abstraction.

(** ** How long the label stays *)

Section label.
Implicit Types (τ : Timed) (σ : State) (e : Event) (es : list Event).
Implicit Types (a : Action) (acts : list Action) (t d ms : nat).

(** A timer that is due ends the safety of the label. *)
Lemma safe_until_due t τ : safe_until t τ → due τ = true → t ≤ now τ.
Proof.
  intros [_ Hd _]. unfold due. destruct (deadlines τ) as [|d ds]; [done|].
  intros Hdue%bool_decide_eq_true. apply Forall_cons in Hd as [Hd _]. lia.
Qed.

Lemma safe_until_step t a τ τ' :
  safe_until t τ → timed_step a τ = Some τ' → now τ' < t → safe_until t τ'.
Proof.
  intros Hsafe. pose proof Hsafe as [Hc Hd Hn]. destruct a as [e|ms].
  - intros (He & Hstep%step_copied & Hnow & Hds)%timed_step_At Ht.
    split; rewrite ?Hstep, ?Hds, ?Hnow; [| |done].
    + destruct e; try done.
      apply (safe_until_due t) in He; [lia|done].
    + destruct e; simpl; try done.
      * apply Forall_app. split; [done|]. by repeat constructor.
      * apply (safe_until_due t) in He; [lia|done].
  - intros (Hst & Hnow & Hds)%timed_step_Wait Ht.
    split; rewrite ?Hst, ?Hds, ?Hnow; [done..|lia].
Qed.

(** The label is safe as long as the clock has not reached [t]. *)
Lemma safe_until_run t acts τ τ' :
  safe_until t τ → timed_run acts τ = Some τ' → now τ' < t → safe_until t τ'.
Proof.
  revert τ. induction acts as [|a acts IH]; intros τ Hsafe;
    [by intros [= <-]|].
  intros (τ1 & Hstep & Hrun)%timed_run_cons Ht.
  eapply IH; [|done..]. eapply safe_until_step; [done..|].
  apply timed_run_now in Hrun. lia.
Qed.

(** C23. The label "Copied!" of a copy stays for [delay] milliseconds, whatever
    the user and the browser do in between, when no timer of an earlier
    copy is due before the timer of this one. *)
Theorem copied_stays τ i τ1 acts τ2 :
  Forall (λ d, now τ + delay ≤ d) (deadlines τ) →
  timed_step (At (WriteResolved i)) τ = Some τ1 →
  timed_run acts τ1 = Some τ2 →
  now τ2 < now τ1 + delay →
  label (state τ2) = "Copied!".
Proof.
  intros Hd (_ & Hc%step_copied & Hn & Hds)%timed_step_At Hrun Ht.
  assert (safe_until (now τ1 + delay) τ1) as Hsafe.
  { split; rewrite ?Hds, ?Hn; [done| |done].
    apply Forall_app. split; [done|]. by repeat constructor. }
  destruct (safe_until_run _ _ _ _ Hsafe Hrun Ht) as [Hc2 _ _].
  unfold label. by rewrite Hc2.
Qed.

(** C24. With a timer of an earlier copy set, the label "Copied!" does not stay
    for [delay]: whenever a write ends while a timer with the deadline [d]
    is the first, that timer can fire as soon as the clock has reached [d],
    [delay] after the end of the earlier write and not of this one.  It
    takes the label away, and the timer that this copy has set is still to
    come. *)
Theorem copied_cut_short τ i τ1 d ds :
  timed_invariant τ → deadlines τ = d :: ds →
  timed_step (At (WriteResolved i)) τ = Some τ1 →
  ∃ τ2, timed_run [Wait (d - now τ); At TimerFired] τ1 = Some τ2
      ∧ label (state τ1) = "Copied!"
      ∧ label (state τ2) = "Copy Full Prompt"
      ∧ now τ2 = now τ `max` d ∧ now τ2 ≤ now τ + delay
      ∧ deadlines τ2 = ds ++ [now τ + delay].
Proof.
  intros [Ht _ Hb] Hd (_ & Hstep & Hn & Hds)%timed_step_At.
  pose proof (step_copied _ _ _ Hstep) as Hc.
  pose proof (step_timers _ _ _ Hstep) as Hts.
  simpl in Hds, Hc, Hts. rewrite Hd in Hb, Hds. rewrite Ht, Hd in Hts.
  apply Forall_cons in Hb as [Hb _].
  cbn [timed_run timed_step mbind option_bind enabled due deadlines now].
  rewrite Hds, Hn. unfold due. simpl.
  rewrite bool_decide_true, Hts by lia. simpl.
  eexists. split; [done|]. unfold label. rewrite Hc. simpl.
  split_and!; [done..|lia|lia|done].
Qed.

(** The timer of an earlier copy can take the label of a later copy away
    in the instant in which it appears: the write of the second copy ends
    when the timer of the first is due. *)
Theorem copied_flash :
  ∃ acts τ1 τ2,
    timed_run (acts ++ [At (WriteResolved 0)]) start = Some τ1
    ∧ timed_step (At TimerFired) τ1 = Some τ2
    ∧ label (state τ1) = "Copied!"
    ∧ label (state τ2) = "Copy Full Prompt"
    ∧ now τ2 = now τ1 ∧ deadlines τ2 = [now τ1 + delay].
Proof.
  exists [At (ChangeTopic "neon city"); At ClickCopy; At (WriteResolved 0);
          Wait delay; At ClickCopy].
  eexists _, _. split; [by vm_compute|]. by vm_compute.
Qed.

End label.

(** ** The theorems at concrete inputs *)

Lemma copied_stays_witness :
  let τ := {| state := start_write "x" initial; now := 7; deadlines := [] |} in
  ∃ τ1 τ2,
    Forall (λ d, now τ + delay ≤ d) (deadlines τ)
    ∧ timed_step (At (WriteResolved 0)) τ = Some τ1
    ∧ timed_run [At (ChangeTopic "y"); Wait 1499] τ1 = Some τ2
    ∧ now τ2 < now τ1 + delay
    ∧ label (state τ2) = "Copied!".
Proof.
  intros τ.
  assert (H1 : Forall (λ d, now τ + delay ≤ d) (deadlines τ)) by constructor.
  eexists _, _. split; [exact H1|].
  split; [reflexivity|]. split; [reflexivity|].
  assert (H4 : 7 + 1499 < 7 + delay) by (unfold delay; lia).
  split; [exact H4|].
  exact (copied_stays τ 0 _ [At (ChangeTopic "y"); Wait 1499] _ H1
           eq_refl eq_refl H4).
Defined.

Lemma copied_cut_short_witness :
  let τ := {| state := end_write None ["x"] 1 initial; now := 1000;
              deadlines := [1200] |} in
  timed_invariant τ
  ∧ ∃ τ1, timed_step (At (WriteResolved 0)) τ = Some τ1
    ∧ ∃ τ2, timed_run [Wait (1200 - now τ); At TimerFired] τ1 = Some τ2
        ∧ label (state τ1) = "Copied!"
        ∧ label (state τ2) = "Copy Full Prompt"
        ∧ now τ2 = now τ `max` 1200 ∧ now τ2 ≤ now τ + delay
        ∧ deadlines τ2 = [] ++ [now τ + delay].
Proof.
  intros τ.
  assert (Hi : timed_invariant τ)
    by (split; repeat constructor; simpl; unfold delay; lia).
  split; [exact Hi|]. eexists. split; [reflexivity|].
  exact (copied_cut_short τ 0 _ 1200 [] Hi eq_refl eq_refl).
Defined.
