(* ===== verification/Memo.v ===== *)
(** * Memo: the memoized output

    The component does not call the generator on every render: its output
    is the value of a [useMemo] hook with the dependencies
    [[topic, sceneCount, options]]
    (src/app/components/PromptGenerator.tsx, lines 198-216).  The hook keeps
    the last value and the dependencies it was computed for, and computes
    again only when a dependency has changed.  It compares dependencies
    with [Object.is]: strings and numbers by value, where [NaN] is [NaN],
    and objects by identity.  The flags are an object; [updateOption]
    (lines 261-263) does not change the object that the state holds but
    gives the state a new one, so a toggle is seen by the hook.

    [Component] is an instance of the component: the state of [Form], the
    identity of the object that [options] holds, the hook and a counter of
    the calls of the generator.  [render] runs the hook for a state and
    [dispatch] is an event followed by the render that it causes.

    The theorems: the memoized output is always the output of the current
    state ([memo_coherent]), so the function [current_output] that the other
    files use is what the component shows; an event that changes no
    dependency costs no call of the generator ([memo_hit]), and no event
    costs more than one ([computations_bound]). *)

From stdpp Require Import gmap.
From S2P Require Import Prelude JsString JsNumber AddOns Generator Export.
From S2P Require Import ParseInt Form.
#[local] Open Scope js_scope.

(** ** The hook *)

(** The dependencies of the hook: two values and the identity of an
    object. *)
Record Deps := {
  dep_topic : string;
  dep_sceneCount : number;
  dep_options : nat;
}.

#[export] Instance Deps_eq_dec : EqDecision Deps.
Proof. solve_decision. Defined.

(** Dependency by dependency, [Object.is]. *)
Definition areHookInputsEqual (nextDeps prevDeps : Deps) : bool :=
  bool_decide (nextDeps = prevDeps).

Record Memo (A : Type) := {
  memoizedValue : A;
  memoizedDeps : Deps;
}.
Arguments memoizedValue {A} _.
Arguments memoizedDeps {A} _.

(** [useMemo(create, deps)] with the hook of the last render, if any: the
    hook of this render, and whether [create] was called. *)
Definition useMemo {A} (create : () → A) (deps : Deps)
    (prev : option (Memo A)) : Memo A * bool :=
  match prev with
  | Some m =>
      if areHookInputsEqual deps (memoizedDeps m) then (m, false)
      else ({| memoizedValue := create (); memoizedDeps := deps |}, true)
  | None => ({| memoizedValue := create (); memoizedDeps := deps |}, true)
  end.

(** ** The component *)

Record Component := {
  state : State;
  options_id : nat;
  memo : Memo (option GeneratedOutput);
  computations : nat;
}.

(** The dependencies that a render passes to the hook. *)
Definition deps_of (σ : State) (id : nat) : Deps :=
  {| dep_topic := topic σ; dep_sceneCount := sceneCount σ; dep_options := id |}.

Definition render (σ : State) (id : nat)
    (prev : option (Memo (option GeneratedOutput))) (n : nat) : Component :=
  let hook :=
    useMemo (λ _, output (topic σ) (sceneCount σ) (options σ)) (deps_of σ id)
      prev in
  {| state := σ; options_id := id; memo := hook.1;
     computations := if hook.2 then S n else n |}.

(** The first render. *)
Definition mount : Component := render initial 0 None 0.

(** An event and the render that follows it.  [setOptions] is given an
    updater that returns a new object: the identity of the flags changes
    with every toggle, and only then. *)
Definition dispatch (e : Event) (c : Component) : option Component :=
  σ' ← step e (state c);
  let id :=
    match e with
    | ToggleOption _ => S (options_id c)
    | _ => options_id c
    end in
  Some (render σ' id (Some (memo c)) (computations c)).

Fixpoint dispatch_all (es : list Event) (c : Component) : option Component :=
  match es with
  | [] => Some c
  | e :: es' => dispatch e c ≫= dispatch_all es'
  end.

Inductive mounted : Component → Prop :=
  | mounted_mount : mounted mount
  | mounted_dispatch c e c' :
      mounted c → dispatch e c = Some c' → mounted c'.

(** ** The specification *)

(** The hook holds the output of the state, computed for its
    dependencies. *)
Definition coherent (c : Component) : Prop :=
  memoizedDeps (memo c) = deps_of (state c) (options_id c)
  ∧ memoizedValue (memo c) = current_output (state c).

(** The events that change a dependency. *)
Definition changes_deps (e : Event) (σ : State) : bool :=
  match e with
  | ChangeTopic value => bool_decide (value ≠ topic σ)
  | ChangeSceneCount value =>
      bool_decide (parseInt (or_else value "5") ≠ sceneCount σ)
  | ToggleOption _ => true
  | ClickCopy | WriteResolved _ | WriteRejected _ | TimerFired => false
  end.

Example dispatch_all_ex :
  (λ c, (computations c, title <$> memoizedValue (memo c)))
    <$> dispatch_all [ ChangeTopic "neon city"; ClickCopy; WriteResolved 0;
                       ChangeTopic "neon city"; ToggleOption music;
                       ToggleOption music; TimerFired ] mount
  = Some (4, Some "Neon City").
Proof. by vm_compute. Qed.

(** ** Coherence *)

Section memo.
Implicit Types (c : Component) (σ : State) (e : Event) (es : list Event).
Implicit Types (id n : nat).

Lemma render_coherent σ id prev n :
  (∀ m, prev = Some m →
        memoizedDeps m = deps_of σ id → memoizedValue m = current_output σ) →
  coherent (render σ id prev n).
Proof.
  intros Hprev. unfold coherent, render, useMemo, areHookInputsEqual.
  destruct prev as [m|]; [|done]. case_bool_decide as Hd; [|done].
  simpl. split; [done|]. by apply Hprev.
Qed.

(** An event that is not a toggle leaves the flags. *)
Lemma step_options e σ σ' :
  step e σ = Some σ' → (∀ k, e ≠ ToggleOption k) → options σ' = options σ.
Proof.
  intros Hstep He. destruct e; simpl in Hstep;
    repeat case_match; simplify_eq/=; try done. by destruct (He key).
Qed.

Lemma dispatch_coherent e c c' : coherent c → dispatch e c = Some c' → coherent c'.
Proof.
  intros [Hd Hv] Hc. unfold dispatch in Hc.
  destruct (step e (state c)) as [σ'|] eqn:Hstep; [|done]. injection Hc as <-.
  apply render_coherent. intros m [= <-]. rewrite Hd, Hv.
  intros [= Ht Hs Hid]. unfold current_output. rewrite <- Ht, <- Hs.
  f_equal. symmetry. apply (step_options e); [done|].
  intros k ->. lia.
Qed.

Lemma mount_coherent : coherent mount.
Proof. by apply render_coherent. Qed.

(** The component is the state machine of [Form] with a hook. *)
Lemma mounted_reachable c : mounted c → reachable (state c).
Proof.
  induction 1 as [|c e c' _ IH Hc]; [constructor|]. unfold dispatch in Hc.
  destruct (step e (state c)) as [σ'|] eqn:Hstep; [|done]. injection Hc as <-.
  by eapply reachable_step.
Qed.

Lemma reachable_mounted σ : reachable σ → ∃ c, mounted c ∧ state c = σ.
Proof.
  induction 1 as [|σ e σ' _ (c & Hc & <-) Hstep].
  - exists mount. split; [constructor|done].
  - assert (∃ c', dispatch e c = Some c' ∧ state c' = σ') as (c' & Hd & Hs)
      by (unfold dispatch; rewrite Hstep; by eexists).
    exists c'. split; [by eapply mounted_dispatch|done].
Qed.

Lemma mounted_coherent c : mounted c → coherent c.
Proof.
  induction 1 as [|c e c' _ IH Hc]; [apply mount_coherent|].
  by eapply dispatch_coherent.
Qed.

(** C12. The memoized output is the output: in every state that the component
    reaches, whatever the events were, the value that the hook holds is the
    output of the generator for the topic, the count and the flags of the
    state; and the component reaches the states that the state machine of
    the form reaches. *)
Theorem memo_coherent c :
  mounted c →
  memoizedValue (memo c) = current_output (state c) ∧ reachable (state c).
Proof.
  intros Hc. split; [by apply mounted_coherent|by apply mounted_reachable].
Qed.

(** C25. An event that changes no dependency costs no call of the generator and
    leaves the hook as it is; an event that changes one costs one call. *)
Theorem memo_hit e c c' :
  mounted c → dispatch e c = Some c' →
  if changes_deps e (state c)
  then computations c' = S (computations c)
  else computations c' = computations c ∧ memo c' = memo c.
Proof.
  intros [Hd _]%mounted_coherent Hc. unfold dispatch in Hc.
  destruct (step e (state c)) as [σ'|] eqn:Hstep; [|done]. injection Hc as <-.
  unfold render, useMemo, areHookInputsEqual. rewrite Hd.
  destruct e; simpl in Hstep; repeat case_match; simplify_eq/=;
    unfold deps_of in *; simplify_eq/=; try done; try lia;
    repeat case_bool_decide; simplify_eq/=; try done; try lia; congruence.
Qed.

(** No run costs more calls of the generator than it has events, the first
    render counted. *)
Theorem computations_bound es c c' :
  dispatch_all es c = Some c' → computations c' ≤ computations c + length es.
Proof.
  revert c. induction es as [|e es IH]; intros c; simpl.
  - intros [= <-]. lia.
  - destruct (dispatch e c) as [c1|] eqn:Hc; [|done]. simpl.
    intros Hrun%IH. unfold dispatch in Hc.
    destruct (step e (state c)) as [σ'|]; [|done]. injection Hc as <-.
    simpl in Hrun. case_match; lia.
Qed.

End memo.

(** ** The theorems at concrete inputs *)

Lemma memo_coherent_witness :
  ∃ c, dispatch (ToggleOption music) mount = Some c
     ∧ memoizedValue (memo c) = current_output (state c)
     ∧ reachable (state c).
Proof.
  eexists. split; [reflexivity|].
  exact (memo_coherent _
           (mounted_dispatch mount (ToggleOption music) _ mounted_mount eq_refl)).
Defined.

Lemma memo_hit_witness :
  ∃ c, dispatch ClickCopy mount = Some c
     ∧ computations c = computations mount ∧ memo c = memo mount.
Proof.
  eexists. split; [reflexivity|].
  exact (memo_hit ClickCopy mount _ mounted_mount eq_refl).
Defined.

Lemma computations_bound_witness :
  ∃ c, dispatch_all [ChangeTopic "a"; ChangeTopic "a"] mount = Some c
     ∧ computations c ≤ computations mount + 2.
Proof.
  eexists. split; [reflexivity|].
  exact (computations_bound [ChangeTopic "a"; ChangeTopic "a"] mount _ eq_refl).
Defined.
