(* ===== verification/Dom.v ===== *)
(** * Dom: the elements that the components return

    The components of the repository return JSX.  A JSX expression is a tree:
    an element has a tag, props and children; a text of the JSX and an
    expression in braces that gives a string are text nodes; a fragment adds
    its children to the children of its parent.  [Node] is that tree.  The
    props of an element are an association list from the name of the prop to
    its [Value]: a string, a number, a boolean, an object (the [style] prop)
    or a handler.  A handler is a function from the event that the browser
    passes, of which the sources read [e.target.value] only, to the [Event]
    of the state machine of [Form] that it causes.

    The browser side is modelled as far as the components rely on it:
    [textContent], the elements below a node in document order
    ([descendants]), and the delivery of a click or of a change at an
    element to its handler ([fire]), which a disabled element does not get
    and which passes the value of a number field as [NumberField] gives it.
    [offers root e] says that some gesture of the user at some element below
    [root] causes the event [e]. *)

From stdpp Require Import list strings.
From S2P Require Import Prelude JsString JsNumber NumberField AddOns Form.
#[local] Open Scope js_scope.

(** ** Nodes *)

Inductive Value :=
  | VStr (s : string)
  | VNum (n : number)
  | VBool (b : bool)
  | VObj (fields : list (string * Value))
  | VFun (handler : string → Event).

Inductive Node :=
  | Text (s : string)
  | Element (tag : string) (props : list (string * Value))
      (children : list Node).

(** The induction principle that gives the hypothesis for every child. *)
Section Node_induction.
Context (P : Node → Prop).
Context (HText : ∀ s, P (Text s)).
Context (HElement : ∀ tag props cs, Forall P cs → P (Element tag props cs)).

Fixpoint Node_children_ind (n : Node) : P n :=
  match n with
  | Text s => HText s
  | Element tag props cs =>
      HElement tag props cs
        ((fix go (ns : list Node) : Forall P ns :=
            match ns with
            | [] => Forall_nil_2 P
            | m :: ns' => Forall_cons_2 P m ns' (Node_children_ind m) (go ns')
            end) cs)
  end.

End Node_induction.

(** ** Reading a tree *)

Definition tagName (n : Node) : string :=
  match n with Text _ => "" | Element tag _ _ => tag end.

Definition children (n : Node) : list Node :=
  match n with Text _ => [] | Element _ _ cs => cs end.

(** The value of a prop of an object literal or of an element. *)
Fixpoint assoc {A} (name : string) (fields : list (string * A)) : option A :=
  match fields with
  | [] => None
  | (k, v) :: fields' =>
      if String.eqb k name then Some v else assoc name fields'
  end.

Definition prop (name : string) (n : Node) : option Value :=
  match n with Text _ => None | Element _ props _ => assoc name props end.

(** [Node.textContent]: the texts below the node, in document order. *)
Fixpoint textContent (n : Node) : string :=
  match n with
  | Text s => s
  | Element _ _ cs =>
      (fix go (ns : list Node) : string :=
         match ns with
         | [] => ""
         | m :: ns' => textContent m +:+ go ns'
         end) cs
  end.

Definition textContents (ns : list Node) : string :=
  foldr (λ m s, textContent m +:+ s) "" ns.

(** The node and the nodes below it, in document order. *)
Fixpoint descendants (n : Node) : list Node :=
  n :: match n with
       | Text _ => []
       | Element _ _ cs =>
           (fix go (ns : list Node) : list Node :=
              match ns with
              | [] => []
              | m :: ns' => descendants m ++ go ns'
              end) cs
       end.

(** The form controls below a node that have no accessible name: the
    [input] elements without an [aria-label] that are not inside a [label]
    element.  (A [label] names the control that it contains; the sources
    have no [htmlFor].) *)
Fixpoint unlabelled (in_label : bool) (n : Node) : list Node :=
  match n with
  | Text _ => []
  | Element tag props cs =>
      (if String.eqb tag "input" && negb in_label
          && negb (bool_decide (is_Some (assoc "aria-label" props)))
       then [n] else [])
      ++ (fix go (ns : list Node) : list Node :=
            match ns with
            | [] => []
            | m :: ns' =>
                unlabelled (in_label || String.eqb tag "label") m ++ go ns'
            end) cs
  end.

(** ** Gestures *)

(** What the user does at an element: a click, or a change that leaves
    [text] in the element. *)
Inductive Gesture :=
  | Click
  | Change (text : string).

Definition is_disabled (n : Node) : bool :=
  match prop "disabled" n with Some (VBool true) => true | _ => false end.

Definition handler (name : string) (n : Node) : option (string → Event) :=
  match prop name n with Some (VFun h) => Some h | _ => None end.

(** [e.target.value] after a change: the text, or for an element with
    [type="number"] the text as the number field keeps it. *)
Definition is_number_field (n : Node) : bool :=
  match prop "type" n with Some (VStr t) => String.eqb t "number" | _ => false end.

Definition target_value (n : Node) (text : string) : string :=
  if is_number_field n then sanitize text else text.

(** The event that a gesture at an element causes: the browser calls the
    handler of the gesture, unless the element is disabled. *)
Definition fire (g : Gesture) (n : Node) : option Event :=
  if is_disabled n then None else
  match g with
  | Click => (λ h, h "") <$> handler "onClick" n
  | Change text => (λ h, h (target_value n text)) <$> handler "onChange" n
  end.

Definition offers (root : Node) (e : Event) : Prop :=
  ∃ n g, n ∈ descendants root ∧ fire g n = Some e.

(** A tree without handlers. *)
Definition no_handler (p : string * Value) : bool :=
  match p.2 with VFun _ => false | _ => true end.

Fixpoint inert (n : Node) : bool :=
  match n with
  | Text _ => true
  | Element _ props cs =>
      forallb no_handler props
      && (fix go (ns : list Node) : bool :=
            match ns with
            | [] => true
            | m :: ns' => inert m && go ns'
            end) cs
  end.

Example descendants_ex :
  tagName <$> descendants
    (Element "label" []
       [Element "input" [("type", VStr "checkbox")] []; Text " Music"])
  = ["label"; "input"; ""].
Proof. reflexivity. Qed.

Example fire_ex :
  let button disabled :=
    Element "button"
      [("onClick", VFun (λ _, ClickCopy)); ("disabled", VBool disabled)]
      [Text "Copy Full Prompt"] in
  fire Click (button false) = Some ClickCopy
  ∧ fire Click (button true) = None
  ∧ fire (Change "x") (button false) = None.
Proof. by vm_compute. Qed.

(** Membership in a list that is written out. *)
Ltac list_mem :=
  repeat first [apply list_elem_of_here|apply list_elem_of_further].

(** ** The equations of the recursive functions *)

Section equations.
Implicit Types (n m : Node) (ns cs : list Node) (e : Event) (g : Gesture).
Implicit Types (tag name : string) (props : list (string * Value)).

Lemma textContent_Element tag props cs :
  textContent (Element tag props cs) = textContents cs.
Proof. reflexivity. Qed.

Lemma textContents_app ns ns' :
  textContents (ns ++ ns') = textContents ns +:+ textContents ns'.
Proof.
  induction ns as [|n ns IH]; simpl; [by rewrite str_app_nil_l|].
  by rewrite IH, str_app_assoc.
Qed.

Lemma textContents_singleton n : textContents [n] = textContent n.
Proof. apply str_app_nil_r. Qed.

Lemma descendants_Element tag props cs :
  descendants (Element tag props cs)
  = Element tag props cs :: cs ≫= descendants.
Proof. reflexivity. Qed.

Lemma unlabelled_Element b tag props cs :
  unlabelled b (Element tag props cs)
  = (if String.eqb tag "input" && negb b
        && negb (bool_decide (is_Some (assoc "aria-label" props)))
     then [Element tag props cs] else [])
    ++ cs ≫= unlabelled (b || String.eqb tag "label").
Proof. reflexivity. Qed.

Lemma inert_Element tag props cs :
  inert (Element tag props cs) = forallb no_handler props && forallb inert cs.
Proof. reflexivity. Qed.

Lemma elem_of_descendants_Element n tag props cs :
  n ∈ descendants (Element tag props cs)
  ↔ n = Element tag props cs ∨ ∃ c, c ∈ cs ∧ n ∈ descendants c.
Proof.
  rewrite descendants_Element, elem_of_cons, list_elem_of_bind. naive_solver.
Qed.

Lemma elem_of_descendants_child n c tag props cs :
  c ∈ cs → n ∈ descendants c → n ∈ descendants (Element tag props cs).
Proof. intros Hc Hn. apply elem_of_descendants_Element. right. by exists c. Qed.

Lemma elem_of_descendants_self n : n ∈ descendants n.
Proof. destruct n; simpl; apply list_elem_of_here. Qed.

(** The elements below a child are below the parent. *)
Lemma elem_of_descendants_trans n m k :
  n ∈ descendants m → m ∈ descendants k → n ∈ descendants k.
Proof.
  intros Hn. induction k as [s|tag props cs IH] using Node_children_ind.
  - intros ->%list_elem_of_singleton. done.
  - rewrite !elem_of_descendants_Element. intros [->|(c & Hc & Hm)];
      [by apply elem_of_descendants_Element in Hn|].
    right. exists c. split; [done|].
    rewrite Forall_forall in IH. by apply IH.
Qed.

(** ** What a tree offers *)

Lemma offers_Element tag props cs e :
  offers (Element tag props cs) e
  ↔ (∃ g, fire g (Element tag props cs) = Some e) ∨ ∃ c, c ∈ cs ∧ offers c e.
Proof.
  unfold offers. setoid_rewrite elem_of_descendants_Element. naive_solver.
Qed.

Lemma offers_Text s e : ¬ offers (Text s) e.
Proof.
  intros (n & g & ->%list_elem_of_singleton & Hf). by destruct g.
Qed.

Lemma assoc_no_handler name props h :
  forallb no_handler props = true → assoc name props ≠ Some (VFun h).
Proof.
  induction props as [|[k v] props IH]; [done|]. simpl.
  intros [Hv Hps]%andb_true_iff. destruct (String.eqb k name); [|by apply IH].
  intros [= ->]. done.
Qed.

Lemma fire_no_handler g tag props cs :
  forallb no_handler props = true → fire g (Element tag props cs) = None.
Proof.
  intros Hps. unfold fire. destruct (is_disabled _); [done|].
  assert (∀ name, handler name (Element tag props cs) = None) as Hh.
  { intros name. unfold handler. simpl.
    pose proof (assoc_no_handler name props) as Hn.
    destruct (assoc name props) as [[]|]; try done. by destruct (Hn handler0). }
  destruct g; by rewrite Hh.
Qed.

(** A tree without handlers offers no event. *)
Lemma inert_offers n e : inert n = true → ¬ offers n e.
Proof.
  induction n as [s|tag props cs IH] using Node_children_ind.
  - intros _. apply offers_Text.
  - rewrite inert_Element, andb_true_iff, offers_Element.
    intros [Hps Hcs] [[g Hg]|(c & Hc & Ho)].
    + by rewrite fire_no_handler in Hg.
    + rewrite Forall_forall in IH. rewrite forallb_forall in Hcs.
      eapply IH; [done| |done]. by apply Hcs, list_elem_of_In.
Qed.

Lemma fire_Text g s : fire g (Text s) = None.
Proof. by destruct g. Qed.

(** No element of a tree without handlers takes a gesture. *)
Lemma fire_inert root n g :
  inert root = true → n ∈ descendants root → fire g n = None.
Proof.
  intros Hi Hn. destruct (fire g n) as [e|] eqn:Hf; [|done].
  destruct (inert_offers root e Hi). by exists n, g.
Qed.

(** An element without handlers offers what its children offer. *)
Lemma offers_wrapper tag props cs e :
  forallb no_handler props = true →
  offers (Element tag props cs) e ↔ ∃ c, c ∈ cs ∧ offers c e.
Proof.
  intros Hps. rewrite offers_Element. split; [|by right].
  intros [[g Hg]|?]; [|done]. by rewrite fire_no_handler in Hg.
Qed.

Lemma offers_child tag props cs c e :
  c ∈ cs → offers c e → offers (Element tag props cs) e.
Proof. intros Hc Ho. apply offers_Element. right. by exists c. Qed.

(** A child without handlers does not count. *)
Lemma offers_cons_inert tag props c cs e :
  inert c = true →
  offers (Element tag props (c :: cs)) e ↔ offers (Element tag props cs) e.
Proof.
  intros Hc. rewrite !offers_Element. setoid_rewrite elem_of_cons.
  split; [|naive_solver]. intros [?|(c' & [->|?] & Ho)]; [by left| |by eauto].
  by destruct (inert_offers c e).
Qed.

End equations.
