(* ===== verification/View.v ===== *)
(** * View: what the output pane shows

    The second card of the component (src/app/components/PromptGenerator.tsx,
    lines 311-390) shows a placeholder when there is no output and otherwise
    the output as text: headings in [strong] elements, one [div] per scene,
    the prompt, and the add-on blocks that are there.  [renderOutput] is the
    element that the conditional expression of lines 315-388 gives, as a
    [Node] of [Dom]; [renderScene] is the callback of [output.scenes.map]
    and [renderAddOns] the fragment of the add-ons.  A text of the JSX is a
    [Text] node with the white space that JSX keeps; an expression in braces
    is a node of its own.

    The theorems say which blocks and which headings are shown, and that the
    keys of the scenes are distinct, as React asks of the elements of a
    list.  The heading "4) Optional Add-ons" is written inside the voiceover
    fragment, so it is shown exactly when the voiceover is, whatever the
    other flags are; the copied text of [Export] has the heading whenever a
    flag is set. *)

From stdpp Require Import gmap.
From S2P Require Import Prelude JsString JsNumber Words Lines Normalizer.
From S2P Require Import Classifier Scenes Prompt AddOns Generator Export.
From S2P Require Import Form Dom.
#[local] Open Scope js_scope.

(** [<strong>s</strong>]. *)
Definition Strong (s : string) : Node := Element "strong" [] [Text s].

(** The callback of [output.scenes.map] in the JSX (lines 332-344). *)
Definition renderScene (s : Scene) : Node :=
  Element "div"
    [ ("key", VNum (Num (Z.of_nat (index s))));
      ("style", VObj [("margin", VStr "10px 0")]) ] [
    Text "Scene "; Text (pretty (index s));
    Text LF; Text "- Setting: "; Text (setting s);
    Text LF; Text "- Camera angle: "; Text (cameraAngle s);
    Text LF; Text "- Camera movement: "; Text (cameraMovement s);
    Text LF; Text "- Character actions: "; Text (actions s);
    Text LF; Text "- Lighting: "; Text (lighting s);
    Text LF; Text "- Colors: "; Text (colors s);
    Text LF; Text "- Atmosphere: "; Text (atmosphere s);
    Text LF; Text "- Important objects: "; Text (importantObjects s) ].

(** [{x && (<>...</>)}] for a property [x] of the add-on object: nothing
    when the property is not set or is the empty string, which is shown as
    no node at all. *)
Definition when (x : option string) (fragment : string → list Node)
    : list Node :=
  match x with
  | None => []
  | Some v => if truthy v then fragment v else []
  end.

(** The fragment of the add-ons (lines 351-386). *)
Definition renderAddOns (addOns : gmap AddOnKey string) : list Node :=
  when (addOns !! voiceover) (λ v,
    [Text (LF +:+ LF); Strong "4) Optional Add-ons"; Text LF; Text v])
  ++ when (addOns !! dialogue) (λ v, [Text (LF +:+ LF); Text v])
  ++ when (addOns !! thumbnail) (λ v, [Text (LF +:+ LF); Text v])
  ++ when (addOns !! captionsTags) (λ v, [Text (LF +:+ LF); Text v])
  ++ when (addOns !! music) (λ v, [Text (LF +:+ LF); Text v]).

(** The output pane (lines 315-388): the placeholder, or the element that
    shows the output. *)
Definition renderOutput (output : option GeneratedOutput) : Node :=
  match output with
  | None =>
      Element "div" [("className", VStr "kbd")]
        [Text "Type your idea to generate a cinematic prompt."]
  | Some output =>
      Element "div"
        [("className", VStr "output"); ("aria-live", VStr "polite")]
        ([ Strong "1) Video Concept";
           Text LF; Text "Title: "; Text (title output);
           Text LF; Text "One-line: "; Text (oneLine output);
           Text LF; Text "Mood & emotion: "; Text (mood output);
           Text LF; Text "Style: "; Text (style output);
           Text (LF +:+ LF);
           Strong "2) Scene Breakdown";
           Text LF ]
         ++ (renderScene <$> scenes output)
         ++ [ Text LF;
              Strong "3) Full Text-to-Video Prompt";
              Text LF;
              Text (fullPrompt output) ]
         ++ renderAddOns (addOns output))
  end.

(** ** The specification *)

(** The headings among the nodes, in order. *)
Definition headings (ns : list Node) : list string :=
  omap (λ n, match n with
             | Element tag _ [Text s] =>
                 if String.eqb tag "strong" then Some s else None
             | _ => None
             end) ns.

(** The keys of the elements among the nodes, in order. *)
Definition keys (ns : list Node) : list number :=
  omap (λ n, match prop "key" n with Some (VNum k) => Some k | _ => None end)
    ns.

(** The texts of the pane that are not line feeds only, in order. *)
Definition texts (ns : list Node) : list string :=
  omap (λ n, match n with
             | Text s => if blank s then None else Some s
             | _ => None
             end) ns.

Example renderOutput_blank_ex :
  textContent (renderOutput (output "  " (Num 5) no_addOns))
  = "Type your idea to generate a cinematic prompt.".
Proof. reflexivity. Qed.

Example renderOutput_headings_ex :
  headings (children (renderOutput (output "neon city" (Num 3) no_addOns)))
  = ["1) Video Concept"; "2) Scene Breakdown"; "3) Full Text-to-Video Prompt"].
Proof. by vm_compute. Qed.

Example renderScene_ex :
  textContent <$> (renderScene <$> take 1 (buildScenes "neon city" (Num 3)))
  = [ "Scene 1" +:+ LF +:+ "- Setting: Neon City ? Exterior ? Golden Hour"
      +:+ LF +:+ "- Camera angle: wide establishing shot"
      +:+ LF +:+ "- Camera movement: slow forward dolly"
      +:+ LF +:+ "- Character actions: subject enters frame with purpose"
      +:+ LF +:+ "- Lighting: soft, warm rim light, long shadows"
      +:+ LF +:+ "- Colors: amber, teal accents"
      +:+ LF +:+ "- Atmosphere: dust motes, gentle breeze"
      +:+ LF +:+ "- Important objects: distant landmark, path leading in" ].
Proof. by vm_compute. Qed.

(** ** The add-ons that are shown *)

Section addOns.
Implicit Types (topic base : string) (options : OptionalAddOns).
Implicit Types (k : AddOnKey) (f : string → list Node).

Lemma when_buildAddOns topic options k f :
  when (buildAddOns topic options !! k) f
  = if flag options k then f (block (toTitleCase topic) k) else [].
Proof.
  rewrite buildAddOns_flag. destruct (flag options k); [|done]. simpl.
  by rewrite (proj2 (truthy_true _) (block_ne _ k)).
Qed.

Lemma block_not_blank base k : blank (block base k) = false.
Proof. by destruct k. Qed.

(** The fragment of the add-ons of a built object, flag by flag. *)
Lemma renderAddOns_buildAddOns topic options :
  let base := toTitleCase topic in
  renderAddOns (buildAddOns topic options)
  = (if includeVoiceover options
     then [ Text (LF +:+ LF); Strong "4) Optional Add-ons"; Text LF;
            Text (voiceoverBlock base) ]
     else [])
    ++ (if includeDialogue options
        then [Text (LF +:+ LF); Text dialogueBlock] else [])
    ++ (if includeThumbnail options
        then [Text (LF +:+ LF); Text (thumbnailBlock base)] else [])
    ++ (if includeCaptionsTags options
        then [Text (LF +:+ LF); Text (captionsTagsBlock base)] else [])
    ++ (if includeMusic options
        then [Text (LF +:+ LF); Text musicBlock] else []).
Proof. intros base. unfold renderAddOns. by rewrite !when_buildAddOns. Qed.

End addOns.

(** ** What the pane shows *)

Section view.
Implicit Types (topic : string) (n : number) (z : Z).
Implicit Types (options : OptionalAddOns) (out : GeneratedOutput).
Implicit Types (s : Scene) (ss : list Scene).

Lemma headings_app ns ns' : headings (ns ++ ns') = headings ns ++ headings ns'.
Proof. apply omap_app. Qed.

Lemma texts_app ns ns' : texts (ns ++ ns') = texts ns ++ texts ns'.
Proof. apply omap_app. Qed.

Lemma headings_renderScene ss : headings (renderScene <$> ss) = [].
Proof. induction ss as [|s ss IH]; [done|]. by rewrite fmap_cons. Qed.

Lemma headings_renderAddOns topic options :
  headings (renderAddOns (buildAddOns topic options))
  = if includeVoiceover options then ["4) Optional Add-ons"] else [].
Proof.
  rewrite renderAddOns_buildAddOns. by destruct options as [[] [] [] [] []].
Qed.

Lemma texts_renderAddOns topic options :
  texts (renderAddOns (buildAddOns topic options))
  = enabled_blocks (toTitleCase topic) options.
Proof.
  rewrite renderAddOns_buildAddOns. by destruct options as [[] [] [] [] []].
Qed.

Lemma headings_output topic n options out :
  output topic n options = Some out →
  headings (children (renderOutput (Some out)))
  = [ "1) Video Concept"; "2) Scene Breakdown";
      "3) Full Text-to-Video Prompt" ]
    ++ (if includeVoiceover options then ["4) Optional Add-ons"] else []).
Proof.
  intros Hout. output_fields Hout. unfold renderOutput, children.
  cbn [title oneLine mood style scenes fullPrompt addOns].
  rewrite !headings_app, headings_renderScene, headings_renderAddOns.
  by destruct (includeVoiceover options).
Qed.

(** The headings of the pane: none for a blank topic; otherwise the three
    headings of the sections, and the heading of the add-ons exactly when
    the voiceover is on, whatever the other flags are. *)
Theorem renderOutput_headings topic n options :
  headings (children (renderOutput (output topic n options)))
  = if blank topic then []
    else [ "1) Video Concept"; "2) Scene Breakdown";
           "3) Full Text-to-Video Prompt" ]
         ++ (if includeVoiceover options then ["4) Optional Add-ons"] else []).
Proof.
  destruct (output_cases topic n options) as [[-> ->]|[-> [out Hout]]];
    [done|].
  rewrite Hout. by eapply headings_output.
Qed.

Lemma inert_renderScene ss : forallb inert (renderScene <$> ss) = true.
Proof. induction ss as [|s ss IH]; [done|]. by rewrite fmap_cons. Qed.

Lemma inert_when (x : option string) f :
  (∀ v, forallb inert (f v) = true) → forallb inert (when x f) = true.
Proof. intros Hf. unfold when. destruct x as [v|]; [|done]. by destruct (truthy v). Qed.

(** The pane has no handler: it takes no gesture. *)
Lemma inert_renderOutput (o : option GeneratedOutput) :
  inert (renderOutput o) = true.
Proof.
  destruct o as [out|]; [|done]. unfold renderOutput, renderAddOns.
  rewrite inert_Element, !forallb_app, inert_renderScene.
  by rewrite !inert_when.
Qed.

Lemma unlabelled_renderScene b ss : (renderScene <$> ss) ≫= unlabelled b = [].
Proof. induction ss as [|s ss IH]; [done|]. by rewrite fmap_cons, bind_cons, IH. Qed.

Lemma unlabelled_when b (x : option string) f :
  (∀ v, f v ≫= unlabelled b = []) → when x f ≫= unlabelled b = [].
Proof. intros Hf. unfold when. destruct x as [v|]; [|done]. by destruct (truthy v). Qed.

(** The pane has no form control. *)
Lemma unlabelled_renderOutput b (o : option GeneratedOutput) :
  unlabelled b (renderOutput o) = [].
Proof.
  destruct o as [out|]; [|done]. unfold renderOutput, renderAddOns.
  rewrite unlabelled_Element, !bind_app, unlabelled_renderScene.
  by rewrite !unlabelled_when.
Qed.

Lemma keys_app ns ns' : keys (ns ++ ns') = keys ns ++ keys ns'.
Proof. apply omap_app. Qed.

Lemma keys_renderScene ss :
  keys (renderScene <$> ss) = (λ s, Num (Z.of_nat (index s))) <$> ss.
Proof. induction ss as [|s ss IH]; [done|]. rewrite !fmap_cons, <- IH. done. Qed.

Lemma keys_when (x : option string) f :
  (∀ v, keys (f v) = []) → keys (when x f) = [].
Proof. intros Hf. unfold when. destruct x as [v|]; [|done]. by destruct (truthy v). Qed.

Lemma keys_renderAddOns (m : gmap AddOnKey string) : keys (renderAddOns m) = [].
Proof. unfold renderAddOns. by rewrite !keys_app, !keys_when. Qed.

(** The keys of the children of the pane are the indices of the scenes. *)
Lemma keys_output out :
  keys (children (renderOutput (Some out)))
  = (λ s, Num (Z.of_nat (index s))) <$> scenes out.
Proof.
  unfold renderOutput, children.
  rewrite !keys_app, keys_renderScene, keys_renderAddOns. simpl.
  by rewrite app_nil_r.
Qed.

(** C37. React asks that the elements of a list have keys that differ.  The
    scenes are the only children of the pane that have a key; their keys are
    1, 2, ... in order, so no two of them are equal. *)
Theorem renderOutput_keys topic n options out :
  output topic n options = Some out →
  keys (children (renderOutput (Some out)))
  = (λ i, Num (Z.of_nat i)) <$> seq 1 (length (scenes out))
  ∧ NoDup (keys (children (renderOutput (Some out)))).
Proof.
  intros Hout. rewrite keys_output. output_fields Hout.
  rewrite (list_fmap_compose index (λ i, Num (Z.of_nat i))).
  rewrite buildScenes_index, buildScenes_length. split; [done|].
  apply NoDup_fmap_2; [|apply NoDup_seq]. intros i j [= Hij]. lia.
Qed.

(** The pane shows a scene as the copied text does, field by field, but for
    the heading, which has no colon in the pane. *)
Theorem renderScene_lines s :
  scene_single_line s →
  lines (textContent (renderScene s))
  = ("Scene " +:+ pretty (index s)) :: tail (scene_lines s).
Proof.
  intros Hs%scene_lines_single_line.
  rewrite <- (lines_join (_ :: tail (scene_lines s))); [|done|].
  - f_equal. unfold renderScene, scene_lines. cbn [textContent tail join].
    by rewrite !str_app_assoc, str_app_nil_r.
  - apply Forall_cons in Hs as [_ Hs]. constructor; [|done].
    unfold single_line. free_of_pieces.
Qed.

(** The add-on blocks that the pane shows are the blocks of the flags that
    are set, in the order voiceover, dialogue, thumbnail, captions, music:
    the same blocks as in the copied text. *)
Theorem renderOutput_addOns topic n options out :
  output topic n options = Some out →
  texts (renderAddOns (addOns out)) = enabled_blocks (title out) options
  ∧ addOnText out = join (LF +:+ LF) (texts (renderAddOns (addOns out))).
Proof.
  intros Hout. rewrite (output_addOnText _ _ _ _ Hout).
  output_fields Hout. by rewrite texts_renderAddOns.
Qed.

(** C36. With the voiceover off and another add-on on, the copied text has the
    heading of the add-ons and the pane has not. *)
Theorem heading_copied_not_shown topic z options out :
  output topic (Num z) options = Some out →
  includeVoiceover options = false → enabled options ≠ ∅ →
  "4) Optional Add-ons" ∈ lines (copyText out)
  ∧ "4) Optional Add-ons" ∉ headings (children (renderOutput (Some out))).
Proof.
  intros Hout Hv Hne. split.
  - rewrite (output_copyText_lines _ _ _ _ Hout). unfold addOn_lines.
    destruct (enabled_blocks (title out) options) as [|b bs] eqn:E.
    + exfalso. apply Hne. apply set_eq. intros k.
      rewrite elem_of_enabled. unfold enabled_blocks in E.
      apply fmap_nil_inv in E. split; [|set_solver]. intros Hk.
      assert (k ∈ filter (λ k, flag options k = true) all_keys) as Hin
        by (apply list_elem_of_filter; auto using elem_of_all_keys).
      rewrite E in Hin. by apply elem_of_nil in Hin.
    + set_solver.
  - rewrite (headings_output _ _ _ _ Hout), Hv. set_solver.
Qed.

End view.

(** ** The theorems at concrete inputs *)

Lemma renderOutput_addOns_witness :
  let options := {| includeVoiceover := false; includeDialogue := true;
                    includeThumbnail := false; includeCaptionsTags := false;
                    includeMusic := true |} in
  ∃ out, output "neon city" (Num 3) options = Some out
       ∧ texts (renderAddOns (addOns out)) = enabled_blocks (title out) options
       ∧ addOnText out = join (LF +:+ LF) (texts (renderAddOns (addOns out))).
Proof.
  intros options. eexists. split; [reflexivity|].
  exact (renderOutput_addOns "neon city" (Num 3) options _ eq_refl).
Defined.

Lemma heading_copied_not_shown_witness :
  let options := {| includeVoiceover := false; includeDialogue := false;
                    includeThumbnail := false; includeCaptionsTags := false;
                    includeMusic := true |} in
  ∃ out, output "neon city" (Num 3) options = Some out
       ∧ includeVoiceover options = false ∧ enabled options ≠ ∅
       ∧ "4) Optional Add-ons" ∈ lines (copyText out)
       ∧ "4) Optional Add-ons" ∉ headings (children (renderOutput (Some out))).
Proof.
  intros options. eexists.
  assert (Hne : enabled options ≠ ∅).
  { intros E. assert (music ∈ enabled options) as Hin
      by (by apply elem_of_enabled). rewrite E in Hin. set_solver. }
  split_and!; [reflexivity|reflexivity|exact Hne|..];
    by apply (heading_copied_not_shown "neon city" 3 options _ eq_refl eq_refl Hne).
Defined.

Lemma renderOutput_keys_witness :
  ∃ out, output "neon city" (Num 4) no_addOns = Some out
       ∧ keys (children (renderOutput (Some out))) = [Num 1; Num 2; Num 3; Num 4]
       ∧ NoDup (keys (children (renderOutput (Some out)))).
Proof.
  eexists. split; [reflexivity|].
  exact (renderOutput_keys "neon city" (Num 4) no_addOns _ eq_refl).
Defined.

Lemma renderScene_lines_witness :
  ∃ s, buildScenes "neon city" (Num 3) !! 0 = Some s ∧ scene_single_line s
     ∧ lines (textContent (renderScene s))
       = ("Scene " +:+ pretty (index s)) :: tail (scene_lines s).
Proof.
  eexists. split; [reflexivity|].
  assert (Hs : scene_single_line
            {| index := 1;
               fields := templates (toTitleCase "neon city") !!! 0 |}).
  { pose proof (buildScenes_single_line "neon city" (Num 3)) as H.
    by apply Forall_cons in H as [? _]. }
  split; [exact Hs|exact (renderScene_lines _ Hs)].
Defined.
