(* ===== verification/Render.v ===== *)
(** * Render: the element that the component returns

    [PromptGenerator] (src/app/components/PromptGenerator.tsx, lines
    265-392) returns a grid of two cards.  The first card is the form: the
    field of the topic, the field of the scene count, a check box for each
    add-on and the copy button.  The second card holds the output pane of
    [View].  The element is a function of the state of [Form]: the fields
    show the state ([value], [checked]), the handlers are the events of the
    state machine, the button is disabled when there is no output and its
    text is the label.

    The theorems relate the element to the state machine: the card shows the
    whole state of the component and nothing of the browser's side
    ([PromptGenerator_shows]); the gestures that the element accepts cause
    exactly the events of the user, and a click on the copy button only when
    there is an output ([offers_PromptGenerator]); the bounds that the count
    field declares are the bounds of the clamp ([count_field_bounds]). *)

From stdpp Require Import gmap.
From S2P Require Import Prelude JsString JsNumber Words Lines Normalizer.
From S2P Require Import Classifier Scenes Prompt AddOns Generator Export.
From S2P Require Import ParseInt NumberField Form Browser Dom View.
#[local] Open Scope js_scope.

(** [<div style={{ height: h }} />]. *)
Definition spacer (h : Z) : Node :=
  Element "div" [("style", VObj [("height", VNum (Num h))])] [].

(** The field of the topic (lines 272-278). *)
Definition topicField (σ : State) : Node :=
  Element "input"
    [ ("className", VStr "input");
      ("placeholder", VStr "Describe your idea in one short line (e.g., lone traveler in neon city during rain)");
      ("value", VStr (topic σ));
      ("onChange", VFun (λ value, ChangeTopic value));
      ("aria-label", VStr "Idea topic") ] [].

(** The field of the scene count (lines 284-291). *)
Definition countField (σ : State) : Node :=
  Element "input"
    [ ("className", VStr "input");
      ("type", VStr "number");
      ("min", VNum (Num 3));
      ("max", VNum (Num 10));
      ("value", VNum (sceneCount σ));
      ("onChange", VFun (λ value, ChangeSceneCount value)) ] [].

(** The check box of an add-on (one of the lines 296-300). *)
Definition checkbox (key : AddOnKey) (σ : State) : Node :=
  Element "input"
    [ ("type", VStr "checkbox");
      ("checked", VBool (flag (options σ) key));
      ("onChange", VFun (λ _, ToggleOption key)) ] [].

(** The copy button (lines 305-307). *)
Definition copyButton (σ : State) : Node :=
  Element "button"
    [ ("className", VStr "btn primary");
      ("onClick", VFun (λ _, ClickCopy));
      ("disabled", VBool (disabled σ)) ]
    [Text (label σ)].

(** The first card (lines 267-309). *)
Definition ideaCard (σ : State) : Node :=
  Element "div" [("className", VStr "card")] [
    Element "div" [("className", VStr "card-inner")] [
      Element "div" [("className", VStr "section-title")] [Text "Your Idea"];
      spacer 10;
      Element "div" [("className", VStr "row")] [topicField σ];
      spacer 12;
      Element "div" [("className", VStr "row two")] [
        Element "div" [] [
          Element "label" [("className", VStr "kbd")] [Text "Scene count"];
          countField σ ];
        Element "div" [] [
          Element "label" [("className", VStr "kbd")] [Text "Add-ons"];
          Element "div"
            [ ("className", VStr "row");
              ("style", VObj [("gridTemplateColumns", VStr "1fr 1fr")]) ] [
            Element "label" [] [checkbox voiceover σ; Text " Voiceover"];
            Element "label" [] [checkbox dialogue σ; Text " Dialogue"];
            Element "label" [] [checkbox thumbnail σ; Text " Thumbnail"];
            Element "label" [] [
              checkbox captionsTags σ; Text " Captions & tags" ];
            Element "label" [] [checkbox music σ; Text " Music"] ] ] ];
      spacer 14;
      copyButton σ ] ].

(** The second card (lines 311-390). *)
Definition promptCard (σ : State) : Node :=
  Element "div" [("className", VStr "card")] [
    Element "div" [("className", VStr "card-inner")] [
      Element "div" [("className", VStr "section-title")]
        [Text "Generated Prompt"];
      spacer 10;
      renderOutput (current_output σ) ] ].

(** The element that the component returns (lines 265-392). *)
Definition PromptGenerator (σ : State) : Node :=
  Element "div" [("className", VStr "grid")] [ideaCard σ; promptCard σ].

(** ** The specification *)

(** The state that the hooks of the component hold. *)
Definition hooks (σ : State) : string * number * OptionalAddOns * bool :=
  (topic σ, sceneCount σ, options σ, copied σ).

(** The elements of the form that have a handler. *)
Definition controls (σ : State) : list Node :=
  [ topicField σ; countField σ; checkbox voiceover σ; checkbox dialogue σ;
    checkbox thumbnail σ; checkbox captionsTags σ; checkbox music σ;
    copyButton σ ].

(** The events that the form lets through: those of the user, the click
    when the button is not disabled, and as the text of the count what a
    number field keeps. *)
Definition accepted (σ : State) (e : Event) : Prop :=
  user e = true ∧ (e = ClickCopy → disabled σ = false)
  ∧ ∀ value, e = ChangeSceneCount value → sanitize value = value.

(** The elements with the given tag below a node, in document order. *)
Definition getElementsByTagName (tag : string) (root : Node) : list Node :=
  filter (λ n, tagName n = tag) (descendants root).

Example fields_ex :
  let σ := setSceneCount (Num 7) (setTopic "neon city" initial) in
  prop "value" <$> getElementsByTagName "input" (PromptGenerator σ)
  = [ Some (VStr "neon city"); Some (VNum (Num 7)); None; None; None; None;
      None ]
  ∧ prop "checked" <$> getElementsByTagName "input" (PromptGenerator σ)
    = [ None; None; Some (VBool false); Some (VBool false);
        Some (VBool false); Some (VBool false); Some (VBool false) ]
  ∧ textContent <$> getElementsByTagName "button" (PromptGenerator σ)
    = ["Copy Full Prompt"].
Proof. by vm_compute. Qed.

(** ** The controls *)

Section controls.
Implicit Types (σ : State) (e : Event) (g : Gesture) (n : Node).
Implicit Types (k key : AddOnKey) (v value : string).

Lemma fire_topicField g σ :
  fire g (topicField σ)
  = match g with Change v => Some (ChangeTopic v) | Click => None end.
Proof. by destruct g. Qed.

Lemma fire_countField g σ :
  fire g (countField σ)
  = match g with
    | Change v => Some (ChangeSceneCount (sanitize v))
    | Click => None
    end.
Proof. by destruct g. Qed.

Lemma fire_checkbox g k σ :
  fire g (checkbox k σ)
  = match g with Change _ => Some (ToggleOption k) | Click => None end.
Proof. by destruct g. Qed.

Lemma fire_copyButton g σ :
  fire g (copyButton σ)
  = match g with
    | Click => if disabled σ then None else Some ClickCopy
    | Change _ => None
    end.
Proof.
  unfold copyButton, fire, is_disabled, handler. cbn [prop assoc String.eqb].
  simpl. by destruct (disabled σ), g.
Qed.

(** What the controls fire: the events of the user, the click only when
    the button is not disabled, and a count that the number field keeps. *)
Lemma fire_controls σ n g e :
  n ∈ controls σ → fire g n = Some e → accepted σ e.
Proof.
  unfold controls, accepted. rewrite !elem_of_cons, elem_of_nil.
  intros Hn Hf. destruct_or!; try done; subst n;
    rewrite ?fire_topicField, ?fire_countField, ?fire_checkbox,
      ?fire_copyButton in Hf;
    destruct g; try done; try (by injection Hf as <-).
  - injection Hf as <-. split_and!; [done..|].
    intros ? [= <-]. apply sanitize_idem.
  - destruct (disabled σ); [done|]. by injection Hf as <-.
Qed.

(** The controls are the only elements of the first card that take a
    gesture. *)
Lemma ideaCard_controls σ n g e :
  n ∈ descendants (ideaCard σ) → fire g n = Some e → n ∈ controls σ.
Proof.
  unfold ideaCard, spacer. intros Hn Hf.
  cbn [descendants app topicField countField checkbox copyButton] in Hn.
  repeat (apply elem_of_cons in Hn as [->|Hn]);
    [..|by apply elem_of_nil in Hn];
    first [ by rewrite fire_Text in Hf
          | by rewrite fire_no_handler in Hf by done
          | unfold controls; list_mem ].
Qed.

Lemma controls_descendants σ n : n ∈ controls σ → n ∈ descendants (ideaCard σ).
Proof.
  unfold controls, ideaCard, spacer. rewrite !elem_of_cons, elem_of_nil.
  cbn [descendants app topicField countField checkbox copyButton].
  intros Hn. destruct_or!; try done; subst n; list_mem.
Qed.

Lemma elem_of_descendants_PromptGenerator σ n :
  n ∈ descendants (PromptGenerator σ)
  ↔ n = PromptGenerator σ ∨ n ∈ descendants (ideaCard σ)
    ∨ n ∈ descendants (promptCard σ).
Proof.
  unfold PromptGenerator. rewrite elem_of_descendants_Element. split.
  - intros [->|(c & Hc & Hn)]; [by left|].
    apply elem_of_cons in Hc as [->|Hc]; [auto|].
    apply list_elem_of_singleton in Hc as ->. auto.
  - intros [->|[Hn|Hn]]; [by left|right; eexists; split; [|done]..]; list_mem.
Qed.

Lemma inert_promptCard σ : inert (promptCard σ) = true.
Proof.
  unfold promptCard. do 2 (rewrite inert_Element; cbn [forallb]).
  by rewrite inert_renderOutput.
Qed.

(** The controls are the only elements of the component that take a
    gesture. *)
Lemma PromptGenerator_controls σ n g e :
  n ∈ descendants (PromptGenerator σ) → fire g n = Some e → n ∈ controls σ.
Proof.
  rewrite elem_of_descendants_PromptGenerator. intros [->|[Hn|Hn]] Hf.
  - unfold PromptGenerator in Hf. by rewrite fire_no_handler in Hf.
  - by eapply ideaCard_controls.
  - by rewrite (fire_inert (promptCard σ)) in Hf by auto using inert_promptCard.
Qed.

End controls.

(** ** The element and the state machine *)

Section render.
Implicit Types (σ : State) (e : Event) (g : Gesture) (n field : Node).
Implicit Types (k key : AddOnKey) (v value : string) (z lo hi : Z).

Lemma offers_controls σ e :
  offers (PromptGenerator σ) e ↔ ∃ n g, n ∈ controls σ ∧ fire g n = Some e.
Proof.
  split; intros (n & g & Hn & Hf); exists n, g; (split; [|done]).
  - by eapply PromptGenerator_controls.
  - apply elem_of_descendants_PromptGenerator. right; left.
    by apply controls_descendants.
Qed.

Lemma label_copied σ σ' : label σ = label σ' → copied σ = copied σ'.
Proof. unfold label. by destruct (copied σ), (copied σ'). Qed.

(** Every event of the user has its control. *)
Lemma offers_PromptGenerator_2 σ e :
  accepted σ e → offers (PromptGenerator σ) e.
Proof.
  intros (Hu & Hd & Hs). apply offers_controls.
  destruct e as [v|v|k| | | |]; try done.
  - exists (topicField σ), (Change v). split; [unfold controls; list_mem|done].
  - exists (countField σ), (Change v). split; [unfold controls; list_mem|].
    by rewrite fire_countField, Hs.
  - exists (checkbox k σ), (Change "on").
    split; [destruct k; unfold controls; list_mem|done].
  - exists (copyButton σ), Click. split; [unfold controls; list_mem|].
    by rewrite fire_copyButton, Hd.
Qed.

(** The gestures that the component accepts cause exactly the events of the
    user: a change of the topic to any text, a change of the count to the
    empty text or to a valid number, a toggle of an add-on, and a click on
    the copy button exactly when there is an output.  No gesture causes an
    event of the browser. *)
Theorem offers_PromptGenerator σ e :
  offers (PromptGenerator σ) e ↔ accepted σ e.
Proof.
  split; [|apply offers_PromptGenerator_2].
  intros (n & g & Hn & Hf)%offers_controls. by eapply fire_controls.
Qed.

(** C34. The element shows the state of the hooks, all of it and nothing else:
    two states give the same element exactly when they agree on the topic,
    the count, the flags and [copied].  The writes in flight, the clipboard
    and the timers are not shown. *)
Theorem PromptGenerator_shows σ σ' :
  PromptGenerator σ = PromptGenerator σ' ↔ hooks σ = hooks σ'.
Proof.
  unfold hooks. split.
  - unfold PromptGenerator, ideaCard, topicField, countField, checkbox,
      copyButton.
    intros H. simplify_eq. f_equal; [f_equal; [f_equal|]|by apply label_copied].
    + done.
    + done.
    + destruct (options σ), (options σ'). by simplify_eq/=.
  - intros [= Ht Hc Ho Hcp].
    unfold PromptGenerator, ideaCard, promptCard, topicField, countField,
      checkbox, copyButton, disabled, label, current_output.
    by rewrite Ht, Hc, Ho, Hcp.
Qed.

(** C38. The field of the scene count is the one control of the component
    without an accessible name: the topic has an [aria-label], every check
    box is inside its [label], but the [label] "Scene count" stands beside
    its field and does not name it. *)
Theorem count_field_unlabelled σ :
  unlabelled false (PromptGenerator σ) = [countField σ].
Proof.
  unfold PromptGenerator, ideaCard, promptCard, spacer.
  cbn [unlabelled topicField countField checkbox copyButton app].
  by rewrite unlabelled_renderOutput.
Qed.

(** C33. The count field declares the bounds of the clamp: when the user leaves
    a text in the field that declares [min] and [max] and the text reads as
    an integer, the new output has that many scenes, clamped to the range
    from [min] to [max]. *)
Theorem count_field_bounds σ field lo hi v e z σ' out :
  field ∈ descendants (PromptGenerator σ) →
  prop "min" field = Some (VNum (Num lo)) →
  prop "max" field = Some (VNum (Num hi)) →
  fire (Change v) field = Some e →
  parseInt (or_else (sanitize v) "5") = Num z →
  step e σ = Some σ' → current_output σ' = Some out →
  length (scenes out) = Z.to_nat (Z.min (Z.max z lo) hi).
Proof.
  intros Hfield Hmin Hmax Hfire Hparse Hstep Hout.
  pose proof (PromptGenerator_controls _ _ _ _ Hfield Hfire) as Hc.
  unfold controls in Hc. rewrite !elem_of_cons, elem_of_nil in Hc.
  destruct_or!; try done; subst field; try discriminate Hmin.
  injection Hmin as <-. injection Hmax as <-.
  rewrite fire_countField in Hfire. injection Hfire as <-.
  injection Hstep as <-. unfold current_output in Hout.
  cbn [sceneCount setSceneCount topic options setTopic] in Hout.
  rewrite Hparse in Hout. output_fields Hout.
  rewrite buildScenes_length. simpl. lia.
Qed.

End render.

(** ** The theorems at concrete inputs *)

Lemma PromptGenerator_shows_witness :
  hooks (start_write "text" initial) = hooks initial
  ∧ PromptGenerator (start_write "text" initial) = PromptGenerator initial.
Proof.
  split; [reflexivity|].
  exact (proj2 (PromptGenerator_shows (start_write "text" initial) initial)
           eq_refl).
Defined.

Lemma count_field_bounds_witness :
  let σ := setTopic "neon city" initial in
  ∃ out, current_output (setSceneCount (Num 12) σ) = Some out
       ∧ length (scenes out) = 10.
Proof.
  intros σ. eexists. split; [reflexivity|].
  assert (Hin : countField σ ∈ descendants (PromptGenerator σ)).
  { apply elem_of_descendants_PromptGenerator. right; left.
    apply controls_descendants. unfold controls. list_mem. }
  exact (count_field_bounds σ (countField σ) 3 10 "12" _ 12 _ _ Hin
           eq_refl eq_refl eq_refl eq_refl eq_refl eq_refl).
Defined.
