(* ===== verification/Layout.v ===== *)
(** * Layout: the root layout and the metadata of the document

    src/app/layout.tsx exports the metadata of the document (lines 1-4) and
    the component [RootLayout] (lines 6-24), which puts its children between
    the header and the footer of the page.  [RootLayout] is a function from
    the children to the [html] element.

    The theorems say that the layout is a frame: the children are in the
    document once, in their order, between the header and the footer; the
    layout has no handler of its own, so the document accepts the gestures
    that the children accept; and the name in the header is the title of the
    metadata. *)

From stdpp Require Import list strings.
From S2P Require Import Prelude JsString JsNumber Form Dom.
#[local] Open Scope js_scope.

(** The object [metadata] (lines 1-4). *)
Definition metadata : list (string * string) :=
  [ ("title", "Cinematic Prompt Builder");
    ("description",
     "Turn ideas into high-quality cinematic text-to-video prompts") ].

(** The component [RootLayout] (lines 6-24). *)
Definition RootLayout (children : list Node) : Node :=
  Element "html" [("lang", VStr "en")] [
    Element "body" [] [
      Element "div" [("className", VStr "container")]
        ([ Element "header" [("className", VStr "header")] [
             Element "div" [("className", VStr "brand")] [
               Element "div"
                 [("className", VStr "logo"); ("aria-hidden", VBool true)] [];
               Element "div" [("className", VStr "title")]
                 [Text "Cinematic Prompt Builder"] ];
             Element "div" [("className", VStr "kbd")]
               [Text "Consistent visuals ? Short sentences ? Cinematic tone"] ] ]
         ++ children
         ++ [ Element "div" [("className", VStr "footer")]
                [Text "Built for fast prompt crafting. Deploy-ready on Vercel."] ])
    ] ].

(** ** The specification *)

(** The elements of a class below a node, in document order. *)
Definition className (n : Node) : string :=
  match prop "className" n with Some (VStr v) => v | _ => "" end.

Definition getElementsByClassName (c : string) (root : Node) : list Node :=
  filter (λ n, c ∈ split_ws (className n)) (descendants root).

(** The texts of the header and of the footer. *)
Definition header_text : string :=
  "Cinematic Prompt Builder"
  +:+ "Consistent visuals ? Short sentences ? Cinematic tone".

Definition footer_text : string :=
  "Built for fast prompt crafting. Deploy-ready on Vercel.".

Example brand_ex :
  Some (textContent <$> getElementsByClassName "title" (RootLayout []))
  = (λ t, [t]) <$> assoc "title" metadata.
Proof. by vm_compute. Qed.

(** ** The layout is a frame *)

Section layout.
Implicit Types (cs : list Node) (n c : Node) (e : Event).

(** The text of the document is the text of the header, the texts of the
    children in their order, and the text of the footer. *)
Theorem RootLayout_textContent cs :
  textContent (RootLayout cs) = header_text +:+ textContents cs +:+ footer_text.
Proof.
  unfold RootLayout.
  rewrite textContent_Element, textContents_singleton.
  rewrite textContent_Element, textContents_singleton.
  by rewrite textContent_Element, !textContents_app.
Qed.

(** The children are below the document, and what is below a child is. *)
Theorem RootLayout_descendants cs c n :
  c ∈ cs → n ∈ descendants c → n ∈ descendants (RootLayout cs).
Proof.
  intros Hc Hn. unfold RootLayout.
  do 2 (eapply elem_of_descendants_child; [apply list_elem_of_here|]).
  eapply elem_of_descendants_child; [|done].
  apply elem_of_app. right. apply elem_of_app. by left.
Qed.

(** The layout has no handler: the document accepts the gestures that its
    children accept. *)
Theorem offers_RootLayout cs e :
  offers (RootLayout cs) e ↔ ∃ c, c ∈ cs ∧ offers c e.
Proof.
  unfold RootLayout. rewrite offers_wrapper by done.
  setoid_rewrite list_elem_of_singleton. split.
  - intros (? & -> & Ho). apply offers_wrapper in Ho as (? & Hb & Ho); [|done].
    apply list_elem_of_singleton in Hb as ->.
    cbn [app] in Ho. rewrite offers_cons_inert in Ho by done.
    apply offers_wrapper in Ho as (c & [Hc|Hc]%elem_of_app & Ho); [| |done].
    + by exists c.
    + apply list_elem_of_singleton in Hc as ->.
      by apply inert_offers in Ho.
  - intros (c & Hc & Ho). eexists. split; [done|].
    eapply offers_child; [apply list_elem_of_here|].
    eapply offers_child; [|done]. apply elem_of_app. right.
    apply elem_of_app. by left.
Qed.

End layout.

(** ** The theorems at concrete inputs *)

Lemma RootLayout_descendants_witness :
  let main := Element "main" [] [Text "x"] in
  main ∈ [main] ∧ Text "x" ∈ descendants main
  ∧ Text "x" ∈ descendants (RootLayout [main]).
Proof.
  intros main.
  assert (Hc : main ∈ [main]) by apply list_elem_of_here.
  assert (Hn : Text "x" ∈ descendants main)
    by apply list_elem_of_further, list_elem_of_here.
  split_and!; [exact Hc|exact Hn|exact (RootLayout_descendants _ _ _ Hc Hn)].
Defined.
