(* ===== verification/Page.v ===== *)
(** * Page: the page of the application

    src/app/page.tsx exports the component [Page] (lines 3-20): a card that
    says how the application works, and the component [PromptGenerator]
    below it.  The page has no state of its own; [Page σ] is the element of
    the page when the state of its [PromptGenerator] is [σ].

    The page adds a text and no handler: it accepts the gestures that the
    component accepts. *)

From stdpp Require Import gmap.
From S2P Require Import Prelude JsString JsNumber Generator Form Dom View.
From S2P Require Import Render.
#[local] Open Scope js_scope.

(** The component [Page] (lines 3-20). *)
Definition Page (σ : State) : Node :=
  Element "main" [] [
    Element "div" [("className", VStr "card")] [
      Element "div" [("className", VStr "card-inner")] [
        Element "div" [("className", VStr "section-title")]
          [Text "How it works"];
        spacer 10;
        Element "div" [("className", VStr "kbd")]
          [Text "Enter a topic. You will get: 1) Video concept, 2) Scene breakdown, 3) A clean, cinematic text-to-video prompt. Optional add-ons are available."] ] ];
    spacer 16;
    PromptGenerator σ ].

Example Page_ex :
  tagName <$> children (Page initial) = ["div"; "div"; "div"].
Proof. reflexivity. Qed.

Section page.
Implicit Types (σ : State) (e : Event) (n : Node).

(** The component is on the page. *)
Lemma Page_PromptGenerator σ n :
  n ∈ descendants (PromptGenerator σ) → n ∈ descendants (Page σ).
Proof.
  intros Hn. eapply elem_of_descendants_child; [|done]. list_mem.
Qed.

(** The page accepts the gestures that the component accepts. *)
Theorem offers_Page σ e : offers (Page σ) e ↔ offers (PromptGenerator σ) e.
Proof.
  unfold Page. rewrite !offers_cons_inert by done.
  rewrite offers_wrapper by done. setoid_rewrite list_elem_of_singleton.
  naive_solver.
Qed.

End page.
