(* ===== verification/App.v ===== *)
(** * App: the document and the user

    The framework renders the page inside the root layout:
    [document σ] is [RootLayout] applied to [Page σ].  The user acts on the
    document: a gesture at an element causes the event of its handler, and
    the state machine of [Form] takes the step.  The browser causes the
    other events (the end of a clipboard write, a timer).  [ui_step] is one
    step of the application seen from the document: the gesture must be one
    that the document accepts.

    The theorems close the loop between the element and the state machine:
    the document accepts exactly the events of the user, with the click on
    the copy button only when there is an output ([offers_document]); and
    the states that the application reaches through the document are the
    reachable states of the state machine ([ui_reachable]), because a click
    that the disabled button refuses is a click that [copyAll] ignores and
    every count is the reading of a value of the number field.  Among the
    values that the count field accepts are the numbers that start with the
    point, which leave the output without a scene
    ([count_field_no_scenes]). *)

From stdpp Require Import gmap relations.
From S2P Require Import Prelude JsString JsNumber Generator Export Form.
From S2P Require Import ParseInt NumberField Browser Dom View Render Layout Page.
#[local] Open Scope js_scope.

(** The document: the page inside the root layout. *)
Definition document (σ : State) : Node := RootLayout [Page σ].

(** One step of the application: a gesture that the document accepts, or an
    event of the browser. *)
Inductive ui_step (σ : State) : State → Prop :=
  | ui_gesture e σ' :
      offers (document σ) e → step e σ = Some σ' → ui_step σ σ'
  | ui_browser σ' : browser_step σ σ' → ui_step σ σ'.

Example document_ex :
  textContent <$> getElementsByTagName "button" (document initial)
  = ["Copy Full Prompt"]
  ∧ tagName <$> children (document initial) = ["body"].
Proof. by vm_compute. Qed.

Section app.
Implicit Types (σ : State) (e : Event) (n : Node).

Lemma offers_document_component σ e :
  offers (document σ) e ↔ offers (PromptGenerator σ) e.
Proof.
  unfold document. rewrite offers_RootLayout.
  setoid_rewrite list_elem_of_singleton. rewrite <- offers_Page. naive_solver.
Qed.

(** A click on the copy button without an output changes nothing. *)
Lemma step_ClickCopy_disabled σ σ' :
  disabled σ = true → step ClickCopy σ = Some σ' → σ' = σ.
Proof.
  unfold disabled. intros Hd%bool_decide_eq_true. simpl. rewrite Hd.
  by intros [= <-].
Qed.

(** C21. The document accepts exactly the events of the user: a change of the
    topic or of the count, a toggle of an add-on, and a click on the copy
    button exactly when there is an output.  Neither the layout nor the page
    adds a gesture, and no gesture causes an event of the browser. *)
Theorem offers_document σ e :
  offers (document σ) e
  ↔ user e = true ∧ (e = ClickCopy → disabled σ = false)
    ∧ ∀ value, e = ChangeSceneCount value → sanitize value = value.
Proof.
  rewrite offers_document_component, offers_controls. split.
  - intros (n & g & Hn & Hf). by eapply fire_controls.
  - intros Ha. by apply offers_controls, offers_PromptGenerator_2.
Qed.

(** The number field keeps no count from the state machine: a change of
    the count to any text is the change to a text that the field keeps. *)
Lemma step_ChangeSceneCount_field value σ :
  ∃ text, sanitize text = text
    ∧ step (ChangeSceneCount text) σ = step (ChangeSceneCount value) σ.
Proof.
  destruct (number_field_onto (parseInt (or_else value "5")))
    as (text & Hs & Hp).
  exists text. split; [done|]. simpl. by rewrite Hp.
Qed.

(** Every event of the user is accepted, ignored by the state machine or a
    change of the count that the number field replaces. *)
Lemma user_accepted e σ :
  user e = true →
  (e = ClickCopy ∧ disabled σ = true) ∨ (∃ value, e = ChangeSceneCount value)
  ∨ accepted σ e.
Proof.
  unfold accepted. destruct e, (disabled σ) eqn:Hd; naive_solver.
Qed.

(** Every step of the state machine is a step of the application or leaves
    the state as it is. *)
Lemma step_ui_step e σ σ' : step e σ = Some σ' → ui_step σ σ' ∨ σ' = σ.
Proof.
  intros Hstep. destruct (user e) eqn:Hu; [|left; apply ui_browser; by exists e].
  destruct (user_accepted e σ Hu) as [[-> Hd]|[[v ->]|Ha]].
  - right. by eapply step_ClickCopy_disabled.
  - destruct (step_ChangeSceneCount_field v σ) as (text & Hs & Hstep').
    left. apply (ui_gesture _ (ChangeSceneCount text)); [|congruence].
    apply offers_document_component, offers_PromptGenerator_2.
    split_and!; [done..|]. by intros ? [= <-].
  - left. eapply ui_gesture; [|done].
    by apply offers_document_component, offers_PromptGenerator_2.
Qed.

(** C22. The count field lets the user empty the scene breakdown.  In every
    state with a topic that is not blank the document accepts, in the count
    field, every valid number that starts with the point; the handler then
    stores [NaN], the output has no scene, and the copy button is enabled. *)
Theorem count_field_no_scenes σ text :
  blank (topic σ) = false →
  valid_float text = true → starts_digit (unsigned text) = false →
  ∃ σ' out,
    offers (document σ) (ChangeSceneCount text)
    ∧ step (ChangeSceneCount text) σ = Some σ'
    ∧ sceneCount σ' = NaN
    ∧ current_output σ' = Some out ∧ scenes out = []
    ∧ disabled σ' = false.
Proof.
  intros Hb Hv Hs. destruct (sanitize_point text Hv Hs) as [Hk Hp].
  assert (disabled (setSceneCount NaN σ) = false) as Hd.
  { apply not_true_iff_false. rewrite disabled_blank. simpl. by rewrite Hb. }
  destruct (current_output (setSceneCount NaN σ)) as [out|] eqn:Hout;
    [|unfold disabled in Hd; by rewrite bool_decide_true in Hd].
  exists (setSceneCount NaN σ), out. simpl. rewrite Hp.
  split_and!; [|done..| |done].
  - apply offers_document_component, offers_PromptGenerator_2.
    split_and!; [done..|]. by intros ? [= <-].
  - unfold current_output in Hout. simpl in Hout. by output_fields Hout.
Qed.

(** C20. The states that the application reaches through the document are the
    reachable states of the state machine: the disabled button refuses the
    clicks that [copyAll] would ignore, and nothing else. *)
Theorem ui_reachable σ : rtc ui_step initial σ ↔ reachable σ.
Proof.
  split.
  - revert σ. apply rtc_ind_r; [constructor|]. intros σ σ' _ Hui IH.
    destruct Hui as [e ? _ Hstep|? (e & _ & Hstep)]; by eapply reachable_step.
  - induction 1 as [|σ e σ' _ IH Hstep]; [done|].
    destruct (step_ui_step _ _ _ Hstep) as [Hui| ->]; [|done].
    by eapply rtc_r.
Qed.

End app.

(** ** The theorems at concrete inputs *)

Lemma ui_reachable_witness :
  reachable (setTopic "neon city" initial)
  ∧ rtc ui_step initial (setTopic "neon city" initial).
Proof.
  assert (Hr : reachable (setTopic "neon city" initial))
    by exact (reachable_step initial (ChangeTopic "neon city") _
                reachable_initial eq_refl).
  split; [exact Hr|exact (proj2 (ui_reachable _) Hr)].
Defined.

Lemma count_field_no_scenes_witness :
  let σ := setTopic "neon city" initial in
  blank (topic σ) = false ∧ valid_float ".5" = true
  ∧ starts_digit (unsigned ".5") = false
  ∧ ∃ σ' out,
      offers (document σ) (ChangeSceneCount ".5")
      ∧ step (ChangeSceneCount ".5") σ = Some σ'
      ∧ sceneCount σ' = NaN
      ∧ current_output σ' = Some out ∧ scenes out = []
      ∧ disabled σ' = false.
Proof.
  intros σ. split_and!; [reflexivity..|].
  exact (count_field_no_scenes σ ".5" eq_refl eq_refl eq_refl).
Defined.
